(** * AstroCM: the Git-repository content layer

    A shallow embedding of [services/baseGitService.ts], of the GitHub adapter
    ([GithubAdapter]) and of the Gitea/Gogs adapter ([BaseGiteaAdapter],
    [GogsAdapter]), and the properties of the content contract that are
    established on it.

    JavaScript strings are sequences of UTF-16 code units, [Promise]-returning
    methods are computations in a state-and-exception monad over the browser
    world (the remote backend behind [fetch], the dispatched window events and
    the console), and the browser built-ins the code calls are either written
    out from their standards ([btoa], [atob], [TextEncoder], [TextDecoder]) or
    taken as operations of the runtime ([toLowerCase], [localeCompare],
    the regular-expression engine, [JSON.parse]). *)

From Stdlib Require Import ZArith List Bool Lia String Ascii DecimalString Permutation.
Import ListNotations.
Open Scope Z_scope.

(** ** JavaScript strings *)

(** A JavaScript string: its UTF-16 code units, each in [0, 65535]. *)
Definition jsstring := list Z.

(** An ASCII literal of the source as a JavaScript string. *)
Definition js (s : string) : jsstring :=
  map (fun a => Z.of_N (N_of_ascii a)) (list_ascii_of_string s).

Module JsString.

(** [a === b] on strings. *)
Fixpoint eqb (a b : jsstring) : bool :=
  match a, b with
  | [], [] => true
  | x :: a', y :: b' => (x =? y) && eqb a' b'
  | _, _ => false
  end.

(** A string is truthy when it is not empty. *)
Definition truthy (s : jsstring) : bool :=
  match s with [] => false | _ :: _ => true end.

(** [s.startsWith(p)] *)
Fixpoint startsWith (s p : jsstring) {struct p} : bool :=
  match p, s with
  | [], _ => true
  | _ :: _, [] => false
  | y :: p', x :: s' => (x =? y) && startsWith s' p'
  end.

(** [s.endsWith(p)] *)
Definition endsWith (s p : jsstring) : bool :=
  startsWith (rev s) (rev p).

(** [s.includes(p)] *)
Fixpoint includes (s p : jsstring) : bool :=
  startsWith s p ||
  match s with
  | [] => false
  | _ :: s' => includes s' p
  end.

(** [s.split(sep)] for a separator of one code unit: never empty. *)
Fixpoint split (s : jsstring) (sep : Z) : list jsstring :=
  match s with
  | [] => [[]]
  | c :: s' =>
      if c =? sep then [] :: split s' sep
      else match split s' sep with
           | seg :: segs => (c :: seg) :: segs
           | [] => [[c]]
           end
  end.

(** [arr.pop()] read for its value: the last element, if any. *)
Definition pop (arr : list jsstring) : option jsstring :=
  match rev arr with
  | [] => None
  | x :: _ => Some x
  end.

(** [arr.includes(x)] on an array of strings. *)
Definition arrayIncludes (arr : list jsstring) (x : jsstring) : bool :=
  existsb (eqb x) arr.

(** [s.replace(/\/$/, '')]: one trailing slash is removed. *)
Definition stripTrailingSlash (s : jsstring) : jsstring :=
  match rev s with
  | c :: r => if c =? 47 then rev r else s
  | [] => s
  end.

(** A number inside a template literal: its decimal digits. *)
Definition decimal (n : Z) : jsstring :=
  js (NilZero.string_of_int (Z.to_int n)).

(** ASCII case folding, as the [i] flag of a regular expression applies it
    to a pattern of ASCII letters (outside unicode mode a character above
    127 never folds onto an ASCII one). *)
Definition asciiLower (c : Z) : Z :=
  if (65 <=? c) && (c <=? 90) then c + 32 else c.

Definition slash : Z := 47.
Definition comma : Z := 44.
Definition dot : Z := 46.

End JsString.

(** ** Thrown values *)

(** The errors the code throws or receives, with the data they are built
    from; [message] gives the text of [error.message]. *)
Inductive JsError :=
| Unauthorized
    (* new Error('Unauthorized: Token expired or invalid.') *)
| HttpError (prefix : jsstring) (status : Z) (statusText detail : jsstring)
    (* new Error(`<prefix>${status} ${statusText} - ${detail}`) *)
| FileExists (name : jsstring)
    (* new Error(`A file with the name '${name}' already exists in this directory.`) *)
| PlainError (msg : jsstring)
    (* new Error(msg) *)
| TypeError (msg : jsstring)
| SyntaxError (msg : jsstring)
| InvalidCharacterError.
    (* the DOMException of btoa and atob *)

Definition message (e : JsError) : jsstring :=
  match e with
  | Unauthorized => js "Unauthorized: Token expired or invalid."
  | HttpError prefix status statusText detail =>
      prefix ++ JsString.decimal status ++ js " " ++ statusText ++ js " - " ++ detail
  | FileExists name =>
      js "A file with the name '" ++ name ++ js "' already exists in this directory."
  | PlainError msg => msg
  | TypeError msg => msg
  | SyntaxError msg => msg
  | InvalidCharacterError => js "The string to be decoded is not correctly encoded."
  end.

Inductive Result (A : Type) :=
| Ok (a : A)
| Err (e : JsError).
Arguments Ok {A} a.
Arguments Err {A} e.

Definition isOk {A} (r : Result A) : bool :=
  match r with Ok _ => true | Err _ => false end.

(** ** Transport encoding: [base64Encode] and the decoding of [getFileContent] *)

Module Encoding.

(** *** UTF-16 *)

Definition isCodeUnit (c : Z) : bool := (0 <=? c) && (c <=? 65535).
Definition isHighSurrogate (c : Z) : bool := (55296 <=? c) && (c <=? 56319).
Definition isLowSurrogate (c : Z) : bool := (56320 <=? c) && (c <=? 57343).
Definition isSurrogate (c : Z) : bool := (55296 <=? c) && (c <=? 57343).

Definition replacementCharacter : Z := 65533. (* U+FFFD *)
Definition byteOrderMark : Z := 65279.        (* U+FEFF *)

(** A string is well formed (a Unicode string) when its code units are in
    range and every surrogate is half of a high-low pair. *)
Fixpoint wellFormed (s : jsstring) : bool :=
  match s with
  | [] => true
  | c :: s' =>
      if isHighSurrogate c then
        match s' with
        | d :: s'' => isLowSurrogate d && wellFormed s''
        | [] => false
        end
      else isCodeUnit c && negb (isLowSurrogate c) && wellFormed s'
  end.

(** The scalar values of a string, as [TextEncoder.encode] reads its
    argument: a surrogate pair is one code point, an unpaired surrogate
    becomes U+FFFD. *)
Fixpoint toScalarValues (s : jsstring) : list Z :=
  match s with
  | [] => []
  | c :: s' =>
      if isHighSurrogate c then
        match s' with
        | d :: s'' =>
            if isLowSurrogate d
            then (65536 + (c - 55296) * 1024 + (d - 56320)) :: toScalarValues s''
            else replacementCharacter :: toScalarValues s'
        | [] => [replacementCharacter]
        end
      else if isLowSurrogate c then replacementCharacter :: toScalarValues s'
      else c :: toScalarValues s'
  end.

(** Code points back to code units, as [TextDecoder.decode] builds its
    result. *)
Definition fromCodePoint (cp : Z) : jsstring :=
  if cp <? 65536 then [cp]
  else [55296 + (cp - 65536) / 1024; 56320 + (cp - 65536) mod 1024].

Definition fromCodePoints (cps : list Z) : jsstring :=
  flat_map fromCodePoint cps.

(** *** UTF-8 *)

Definition utf8EncodeCodePoint (cp : Z) : list Z :=
  if cp <? 128 then [cp]
  else if cp <? 2048 then [192 + cp / 64; 128 + cp mod 64]
  else if cp <? 65536 then
    [224 + cp / 4096; 128 + (cp / 64) mod 64; 128 + cp mod 64]
  else
    [240 + cp / 262144; 128 + (cp / 4096) mod 64;
     128 + (cp / 64) mod 64; 128 + cp mod 64].

(** [new TextEncoder().encode(str)] *)
Definition TextEncoder_encode (str : jsstring) : list Z :=
  flat_map utf8EncodeCodePoint (toScalarValues str).

Definition inRange (lo hi b : Z) : bool := (lo <=? b) && (b <=? hi).
Definition isContinuation (b : Z) : bool := inRange 128 191 b.

(** The UTF-8 decoder of the Encoding standard, without the byte order
    mark handling: a malformed sequence yields U+FFFD and decoding resumes
    at the byte that broke it. *)
Fixpoint utf8Decode (bytes : list Z) : list Z :=
  match bytes with
  | [] => []
  | b0 :: r0 =>
      if inRange 0 127 b0 then b0 :: utf8Decode r0
      else if inRange 194 223 b0 then
        match r0 with
        | [] => [replacementCharacter]
        | b1 :: r1 =>
            if isContinuation b1
            then ((b0 - 192) * 64 + (b1 - 128)) :: utf8Decode r1
            else replacementCharacter :: utf8Decode r0
        end
      else if inRange 224 239 b0 then
        match r0 with
        | [] => [replacementCharacter]
        | b1 :: r1 =>
            if inRange (if b0 =? 224 then 160 else 128)
                       (if b0 =? 237 then 159 else 191) b1
            then
              match r1 with
              | [] => [replacementCharacter]
              | b2 :: r2 =>
                  if isContinuation b2
                  then ((b0 - 224) * 4096 + (b1 - 128) * 64 + (b2 - 128))
                         :: utf8Decode r2
                  else replacementCharacter :: utf8Decode r1
              end
            else replacementCharacter :: utf8Decode r0
        end
      else if inRange 240 244 b0 then
        match r0 with
        | [] => [replacementCharacter]
        | b1 :: r1 =>
            if inRange (if b0 =? 240 then 144 else 128)
                       (if b0 =? 244 then 143 else 191) b1
            then
              match r1 with
              | [] => [replacementCharacter]
              | b2 :: r2 =>
                  if isContinuation b2
                  then
                    match r2 with
                    | [] => [replacementCharacter]
                    | b3 :: r3 =>
                        if isContinuation b3
                        then ((b0 - 240) * 262144 + (b1 - 128) * 4096
                              + (b2 - 128) * 64 + (b3 - 128))
                               :: utf8Decode r3
                        else replacementCharacter :: utf8Decode r2
                    end
                  else replacementCharacter :: utf8Decode r1
              end
            else replacementCharacter :: utf8Decode r0
        end
      else replacementCharacter :: utf8Decode r0
  end.

(** [new TextDecoder('utf-8').decode(bytes)]: the decoder is not fatal and
    its [ignoreBOM] option is off, so a leading U+FEFF is dropped from the
    output. *)
Definition TextDecoder_decode (bytes : list Z) : jsstring :=
  fromCodePoints
    (match utf8Decode bytes with
     | cp :: cps => if cp =? byteOrderMark then cps else cp :: cps
     | [] => []
     end).

(** *** Base64 *)

(** The base64 alphabet: the character of a six-bit value. *)
Definition base64Char (v : Z) : Z :=
  if v <? 26 then 65 + v            (* A-Z *)
  else if v <? 52 then 97 + (v - 26) (* a-z *)
  else if v <? 62 then 48 + (v - 52) (* 0-9 *)
  else if v =? 62 then 43            (* + *)
  else 47.                           (* / *)

Definition isBase64Char (c : Z) : bool :=
  inRange 65 90 c || inRange 97 122 c || inRange 48 57 c
  || (c =? 43) || (c =? 47).

Definition base64Value (c : Z) : Z :=
  if inRange 65 90 c then c - 65
  else if inRange 97 122 c then c - 97 + 26
  else if inRange 48 57 c then c - 48 + 52
  else if c =? 43 then 62
  else 63.

Definition equalsSign : Z := 61.

(** The six-bit groups of a byte sequence; a last group of one or two bytes
    is completed with zero bits. *)
Fixpoint sextets (bytes : list Z) : list Z :=
  match bytes with
  | a :: b :: c :: rest =>
      a / 4 :: (a mod 4) * 16 + b / 16 :: (b mod 16) * 4 + c / 64 :: c mod 64
        :: sextets rest
  | [a; b] => [a / 4; (a mod 4) * 16 + b / 16; (b mod 16) * 4]
  | [a] => [a / 4; (a mod 4) * 16]
  | [] => []
  end.

Definition padding (bytes : list Z) : jsstring :=
  match (Z.of_nat (List.length bytes)) mod 3 with
  | 1 => [equalsSign; equalsSign]
  | 2 => [equalsSign]
  | _ => []
  end.

(** [btoa(binary)]: throws when a code unit is above 255. *)
Definition btoa (binary : jsstring) : Result jsstring :=
  if forallb (inRange 0 255) binary
  then Ok (map base64Char (sextets binary) ++ padding binary)
  else Err InvalidCharacterError.

Definition isAsciiWhitespace (c : Z) : bool :=
  (c =? 9) || (c =? 10) || (c =? 12) || (c =? 13) || (c =? 32).

(** One or two trailing equals signs are removed. *)
Definition stripPadding (data : jsstring) : jsstring :=
  match rev data with
  | c1 :: r1 =>
      if c1 =? equalsSign then
        match r1 with
        | c2 :: r2 => if c2 =? equalsSign then rev r2 else rev r1
        | [] => rev r1
        end
      else data
  | [] => data
  end.

(** The bytes of a sequence of six-bit values; the bits of an incomplete
    last byte are discarded. *)
Fixpoint unsextets (vs : list Z) : list Z :=
  match vs with
  | a :: b :: c :: d :: rest =>
      a * 4 + b / 16 :: (b mod 16) * 16 + c / 4 :: (c mod 4) * 64 + d
        :: unsextets rest
  | [a; b; c] => [a * 4 + b / 16; (b mod 16) * 16 + c / 4]
  | [a; b] => [a * 4 + b / 16]
  | _ => []
  end.

(** [atob(data)]: the forgiving base64 decoding of the HTML standard. *)
Definition atob (data : jsstring) : Result jsstring :=
  let data1 := filter (fun c => negb (isAsciiWhitespace c)) data in
  let data2 :=
    if (Z.of_nat (List.length data1)) mod 4 =? 0
    then stripPadding data1 else data1 in
  if (Z.of_nat (List.length data2)) mod 4 =? 1 then Err InvalidCharacterError
  else if negb (forallb isBase64Char data2) then Err InvalidCharacterError
  else Ok (unsextets (map base64Value data2)).

(** [String.fromCharCode(n)] for one argument. *)
Definition fromCharCode (n : Z) : Z := n mod 65536.

(** [base64Encode] of both adapters. *)
Definition base64Encode (str : jsstring) : Result jsstring :=
  let data := TextEncoder_encode str in
  let binary := map fromCharCode data in
  btoa binary.

(** The decoding steps of [getFileContent] (and of [getFileAsBlob]):
    [atob], then one byte per character into a [Uint8Array]. *)
Definition decodeBytes (content : jsstring) : Result (list Z) :=
  match atob content with
  | Ok binaryString => Ok (map (fun c => c mod 256) binaryString)
  | Err e => Err e
  end.

(** [atob], the byte loop and [TextDecoder('utf-8').decode] of
    [getFileContent]. *)
Definition decodeContent (content : jsstring) : Result jsstring :=
  match decodeBytes content with
  | Ok bytes => Ok (TextDecoder_decode bytes)
  | Err e => Err e
  end.

End Encoding.

(** ** The JavaScript runtime *)

(** A parsed JSON value; the value of a number is not looked at. *)
Unset Elimination Schemes.
Inductive Json :=
| JNull
| JBoolean (b : bool)
| JNumber
| JString (s : jsstring)
| JArray (items : list Json)
| JObject (members : list (jsstring * Json)).
Set Elimination Schemes.

(** The two regular expressions of [findProductionUrl], written here with
    [Q] for the class of the two quote characters and [NQ] for its
    complement:
    [jsSiteRegex] is [/site\s*:\s*Q(https?:\/\/NQ+)Q/] and
    [yamlSiteRegex] is [/^\s*(?:site|url)\s*:\s*Q?(https?:\/\/[^Q\s]+)Q?/m]. *)
Inductive RegExp := jsSiteRegex | yamlSiteRegex.

(** Built-ins whose behaviour depends on Unicode tables, on the locale or on
    an engine: they are operations of the runtime the code runs on.
    [String_match s re] is [s.match(re)]: the matched text followed by its
    capture groups, or [None] for [null]. *)
Class JsRuntime := {
  toLowerCase : jsstring -> jsstring;
  localeCompare : jsstring -> jsstring -> Z;
  String_match : jsstring -> RegExp -> option (list jsstring);
  JSON_parse : jsstring -> Result Json
}.

(** [value[key]] on a parsed JSON value: reading a property of [null]
    throws, a value that has no such property gives [undefined]. *)
Fixpoint lookupMember (key : jsstring) (members : list (jsstring * Json)) : option Json :=
  match members with
  | [] => None
  | (k, v) :: rest => if JsString.eqb k key then Some v else lookupMember key rest
  end.

Definition getMember (value : Json) (key : jsstring) : Result (option Json) :=
  match value with
  | JNull => Err (TypeError (js "Cannot read properties of null"))
  | JObject members => Ok (lookupMember key members)
  | _ => Ok None
  end.

(** ** Data shapes *)

(** The declarations of [types.ts] ([GithubRepo], [GithubContent],
    [ContentInfo], [RepoTreeInfo]), with the fields the services read, under
    the names the code reads them by; [owner.login] and [permissions.push]
    are the fields [repo_owner] and [repo_push]. *)
Record GithubRepo := {
  repo_name : jsstring;
  repo_owner : jsstring;
  repo_private : bool;
  default_branch : jsstring;
  repo_push : bool
}.

Record ContentInfo := {
  ci_name : jsstring;
  ci_path : jsstring;
  ci_type : jsstring;           (* 'file' or 'dir' *)
  ci_sha : jsstring;
  ci_size : Z;
  ci_content : option jsstring;
  ci_encoding : option jsstring
}.

Definition GithubContent := ContentInfo.

(** An entry of a recursive tree response. *)
Record TreeItem := {
  tree_path : jsstring;
  tree_type : jsstring;         (* 'blob' or 'tree' *)
  tree_sha : jsstring;
  tree_size : option Z
}.

Record RepoTreeInfo := {
  info_name : jsstring;
  info_path : jsstring;
  info_type : jsstring;
  info_sha : jsstring;
  info_size : option Z;
  info_hasMarkdown : option bool
}.

(** [new Blob([bytes], { type: mimeType })] *)
Record Blob := {
  blob_bytes : list Z;
  blob_type : jsstring
}.

(** A [File] handed to [uploadFile], by what [FileReader.readAsDataURL]
    does with it: [reader.result] on load, or the error of [onerror]. *)
Record File := {
  readAsDataURL : Result jsstring
}.

(** ** HTTP *)

Inductive Method := GET | PUT | POST | DELETE.

(** The object given to [JSON.stringify] as the body of a write; a member
    that is [undefined] is left out of the text. *)
Record WriteBody := {
  wb_message : jsstring;
  wb_content : option jsstring;
  wb_sha : option jsstring
}.

Record RequestInit := {
  init_method : option Method;
  init_body : option WriteBody
}.

Definition noOptions : RequestInit := {| init_method := None; init_body := None |}.

Record Request := {
  req_url : jsstring;
  req_method : Method;
  req_authorization : jsstring;
  req_accept : jsstring;
  req_body : option WriteBody
}.

(** What [response.json()] resolves to, by the shapes the backends answer
    with; [PNotJson] is a body that does not parse, for which
    [response.json()] rejects. *)
Inductive Payload :=
| PRepo (repo : GithubRepo)
| PFile (file : GithubContent)
| PListing (entries : list GithubContent)
| PTree (tree : list TreeItem) (truncated : bool)
| PMessage (msg : option jsstring) (error : option jsstring)
| PEmpty
| PNotJson.

Record Response := {
  status : Z;
  statusText : jsstring;
  payload : Payload
}.

(** [response.ok] *)
Definition ok (r : Response) : bool := (200 <=? status r) && (status r <=? 299).

(** [fetch] resolves with a response or rejects (network failure). *)
Inductive FetchResult :=
| Responded (r : Response)
| Rejected.

(** The remote side of [fetch]: a state and its answer to a request. *)
Class Backend := {
  Remote : Type;
  serve : Remote -> Request -> Remote * FetchResult
}.

Inductive ConsoleLevel := ConsoleWarn | ConsoleError.

(** ** The world of an operation *)

Section Effects.
Context `{Backend}.

(** The state an asynchronous operation runs in and acts on: the backend,
    the exchanges made so far through [fetch] (oldest first), the events
    dispatched on [window] and the console output. *)
Record World := {
  remote : Remote;
  traffic : list (Request * FetchResult);
  events : list jsstring;
  console : list (ConsoleLevel * jsstring)
}.

(** A [Promise<A>]: it settles with a value or a thrown error and leaves a
    new world. *)
Definition M (A : Type) : Type := World -> Result A * World.

Definition ret {A} (a : A) : M A := fun w => (Ok a, w).

Definition throw {A} (e : JsError) : M A := fun w => (Err e, w).

Definition bind {A B} (m : M A) (k : A -> M B) : M B :=
  fun w =>
    match m w with
    | (Ok a, w') => k a w'
    | (Err e, w') => (Err e, w')
    end.

(** [try { m } catch (e) { handler e }] *)
Definition tryCatch {A} (m : M A) (handler : JsError -> M A) : M A :=
  fun w =>
    match m w with
    | (Ok a, w') => (Ok a, w')
    | (Err e, w') => handler e w'
    end.

(** A synchronous step that may throw. *)
Definition lift {A} (r : Result A) : M A := fun w => (r, w).

Definition fetch (req : Request) : M Response :=
  fun w =>
    let (remote', answer) := serve (remote w) req in
    let w' := {| remote := remote';
                 traffic := traffic w ++ [(req, answer)];
                 events := events w;
                 console := console w |} in
    match answer with
    | Responded r => (Ok r, w')
    | Rejected => (Err (TypeError (js "Failed to fetch")), w')
    end.

(** [window.dispatchEvent(new Event(type))] *)
Definition dispatchEvent (type : jsstring) : M unit :=
  fun w =>
    (Ok tt, {| remote := remote w;
               traffic := traffic w;
               events := events w ++ [type];
               console := console w |}).

Definition consoleLog (level : ConsoleLevel) (text : jsstring) : M unit :=
  fun w =>
    (Ok tt, {| remote := remote w;
               traffic := traffic w;
               events := events w;
               console := console w ++ [(level, text)] |}).

(** A loop over an array that threads a state through asynchronous steps;
    the first step that throws ends it. *)
Fixpoint forEachM {A S} (items : list A) (step : A -> S -> M S) (s : S) : M S :=
  match items with
  | [] => ret s
  | item :: rest => bind (step item s) (forEachM rest step)
  end.

(** [Promise.all(items.map(f))] for steps that are run one after the
    other. *)
Fixpoint mapM {A B} (f : A -> M B) (items : list A) : M (list B) :=
  match items with
  | [] => ret []
  | item :: rest =>
      bind (f item) (fun b => bind (mapM f rest) (fun bs => ret (b :: bs)))
  end.

End Effects.

Declare Scope js_scope.
Delimit Scope js_scope with js.
Notation "x <- m ;; k" := (bind m (fun x => k))
  (at level 61, m at next level, right associativity) : js_scope.
Notation "m ;;; k" := (bind m (fun _ => k))
  (at level 61, right associativity) : js_scope.
Open Scope js_scope.

Definition isDelete (m : option Method) : bool :=
  match m with Some DELETE => true | _ => false end.

Definition isPut (m : option Method) : bool :=
  match m with Some PUT => true | _ => false end.

Definition methodOf (m : option Method) : Method :=
  match m with Some m' => m' | None => GET end.

(** [value || ''] for a string that may be [undefined]. *)
Definition orEmpty (value : option jsstring) : jsstring :=
  match value with Some s => s | None => [] end.

(** [a || b] for strings that may be [undefined]. *)
Definition orElse (a b : option jsstring) : option jsstring :=
  match a with
  | Some s => if JsString.truthy s then Some s else b
  | None => b
  end.

(** [errorData.message] and [errorData.error] of an error body. *)
Definition messageOf (p : Payload) : option jsstring :=
  match p with PMessage m _ => m | _ => None end.

Definition errorOf (p : Payload) : option jsstring :=
  match p with PMessage _ e => e | _ => None end.

(** [fileData.sha] of a response taken for a file. *)
Definition shaOf (p : Payload) : option jsstring :=
  match p with PFile f => Some (ci_sha f) | _ => None end.

(** Whether [if (sha)] holds for a string that may be [undefined]. *)
Definition truthySha (s : option jsstring) : bool :=
  match s with Some v => JsString.truthy v | None => false end.

(** [`${repo.default_branch}`] of a response taken for repository details. *)
Definition branchOf (p : Payload) : jsstring :=
  match p with PRepo r => default_branch r | _ => js "undefined" end.

(** A response taken for a directory listing, at its first use as an array
    ([contents.map], [for ... of contents]): anything else throws there. *)
Definition asListing (p : Payload) : Result (list GithubContent) :=
  match p with
  | PListing entries => Ok entries
  | _ => Err (TypeError (js "contents is not iterable"))
  end.

Definition contentsEndpoint (owner repoName path : jsstring) : jsstring :=
  js "/repos/" ++ owner ++ js "/" ++ repoName ++ js "/contents/" ++ path.

Definition repoEndpoint (owner repoName : jsstring) : jsstring :=
  js "/repos/" ++ owner ++ js "/" ++ repoName.

Definition treeEndpoint (owner repoName branch : jsstring) : jsstring :=
  js "/repos/" ++ owner ++ js "/" ++ repoName ++ js "/git/trees/" ++ branch
     ++ js "?recursive=1".

(** The file name of a path: [path.split('/').pop()]. *)
Definition lastSegment (path : jsstring) : option jsstring :=
  JsString.pop (JsString.split path JsString.slash).

(** [Array.prototype.sort(compare)]: a stable sort by insertion. *)
Fixpoint sortInsert {A} (compare : A -> A -> Z) (x : A) (sorted : list A) : list A :=
  match sorted with
  | [] => [x]
  | y :: rest =>
      if compare x y <=? 0 then x :: y :: rest
      else y :: sortInsert compare x rest
  end.

Fixpoint Array_sort {A} (compare : A -> A -> Z) (items : list A) : list A :=
  match items with
  | [] => []
  | x :: rest => sortInsert compare x (Array_sort compare rest)
  end.

(** [arr.findIndex(test)], with [None] for -1. *)
Fixpoint findIndex {A} (test : A -> bool) (items : list A) : option nat :=
  match items with
  | [] => None
  | x :: rest =>
      if test x then Some O
      else match findIndex test rest with
           | Some i => Some (S i)
           | None => None
           end
  end.

(** [arr.splice(index, 1)]: the removed elements and what is left. *)
Definition splice1 {A} (items : list A) (index : nat) : list A * list A :=
  (firstn 1 (skipn index items), firstn index items ++ skipn (S index) items).

(** The MIME type [getFileAsBlob] gives to a file name. *)
Definition mimeTypeOf `{JsRuntime} (fileName : jsstring) : jsstring :=
  let extension :=
    match JsString.pop (JsString.split fileName JsString.dot) with
    | Some e => toLowerCase e
    | None => []
    end in
  if JsString.eqb extension (js "jpg") || JsString.eqb extension (js "jpeg")
  then js "image/jpeg"
  else if JsString.eqb extension (js "png") then js "image/png"
  else if JsString.eqb extension (js "gif") then js "image/gif"
  else if JsString.eqb extension (js "webp") then js "image/webp"
  else if JsString.eqb extension (js "svg") then js "image/svg+xml"
  else if JsString.eqb extension (js "bmp") then js "image/bmp"
  else js "application/octet-stream".

(** [fileToBase64]: the part of the data URL after its first comma, which is
    [undefined] when there is none. *)
Definition fileToBase64 (file : File) : Result (option jsstring) :=
  match readAsDataURL file with
  | Ok result =>
      if JsString.truthy result
      then Ok (nth_error (JsString.split result JsString.comma) 1)
      else Err (PlainError (js "Failed to read file"))
  | Err e => Err e
  end.

(** ** [BaseGitService]: the shared implementations *)

Module BaseGitService.

Definition ignoredDirs : list jsstring :=
  [js "node_modules"; js ".git"; js ".github"; js "dist"; js "build";
   js "vendor"; js ".vscode"; js "pages"; js "page"].

Definition ignoredTreeDirs : list jsstring :=
  [js "node_modules"; js ".git"; js ".github"; js "dist"; js "build";
   js "vendor"; js ".vscode"].

(** What a scan has done so far: the [foundDirs] set in insertion order,
    and, as a record of the calls, each path handed to [getRepoContents]
    with what the call settled to (oldest first). *)
Record ScanState := {
  foundDirs : list jsstring;
  listings : list (jsstring * Result (list ContentInfo))
}.

(** [set.add(x)] on a set kept in insertion order. *)
Definition setAdd (x : jsstring) (set : list jsstring) : list jsstring :=
  if JsString.arrayIncludes set x then set else set ++ [x].

Definition isFile (item : ContentInfo) : bool := JsString.eqb (ci_type item) (js "file").
Definition isDir (item : ContentInfo) : bool := JsString.eqb (ci_type item) (js "dir").

(** The content predicate: [name.endsWith('.md') || name.endsWith('.mdx')]. *)
Definition isMarkdownName (name : jsstring) : bool :=
  JsString.endsWith name (js ".md") || JsString.endsWith name (js ".mdx").

(** The image predicate: [/\.(jpe?g|png|gif|webp|svg)$/i.test(name)]. *)
Definition isImageName (name : jsstring) : bool :=
  let folded := map JsString.asciiLower name in
  existsb (JsString.endsWith folded)
    [js ".jpg"; js ".jpeg"; js ".png"; js ".gif"; js ".webp"; js ".svg"].

Section Shared.
Context `{JsRuntime} `{Backend}.

(** The abstract methods the shared implementations call. *)
Variable getRepoContents : jsstring -> M (list ContentInfo).
Variable getFileContent : jsstring -> M jsstring.

Definition toTreeInfo (item : ContentInfo) : RepoTreeInfo :=
  {| info_name := ci_name item;
     info_path := ci_path item;
     info_type := if isFile item then js "file" else js "dir";
     info_sha := ci_sha item;
     info_size := Some (ci_size item);
     info_hasMarkdown := None |}.

Definition listFiles (path : jsstring) : M (list RepoTreeInfo) :=
  tryCatch
    (contents <- getRepoContents path ;;
     ret (map toTreeInfo contents))
    (fun e =>
       consoleLog ConsoleWarn (js "listFiles failed, returning empty list") ;;;
       ret []).

Definition lastNameOf (p : jsstring) : jsstring :=
  match lastSegment p with
  | Some seg => toLowerCase seg
  | None => []
  end.

Definition depthOf (p : jsstring) : Z :=
  Z.of_nat (List.length (JsString.split p JsString.slash)).

(** The comparison function of [sortPaths]. *)
Definition comparePaths (preferredNames : list jsstring) (a b : jsstring) : Z :=
  let aLastName := lastNameOf a in
  let bLastName := lastNameOf b in
  let aIsPreferred := JsString.arrayIncludes preferredNames aLastName in
  let bIsPreferred := JsString.arrayIncludes preferredNames bLastName in
  if aIsPreferred && negb bIsPreferred then -1
  else if negb aIsPreferred && bIsPreferred then 1
  else
    let aDepth := depthOf a in
    let bDepth := depthOf b in
    if negb (aDepth =? bDepth) then aDepth - bDepth
    else localeCompare a b.

Definition sortPaths (paths : list jsstring) (preferredNames : list jsstring)
  : list jsstring :=
  Array_sort (comparePaths preferredNames) paths.

(** The loop over the entries of a listing: whether a matching file was
    seen, and the subdirectories to descend into. *)
Definition hasMatchingFile (fileCheck : jsstring -> bool)
    (contents : list ContentInfo) : bool :=
  existsb (fun item => isFile item && fileCheck (ci_name item)) contents.

Definition subDirsOf (fileCheck : jsstring -> bool)
    (contents : list ContentInfo) : list ContentInfo :=
  filter
    (fun item =>
       if isFile item && fileCheck (ci_name item) then false
       else isDir item
            && negb (JsString.arrayIncludes ignoredDirs (toLowerCase (ci_name item))))
    contents.

Definition noteListing (p : jsstring) (r : Result (list ContentInfo))
    (st : ScanState) : ScanState :=
  {| foundDirs := foundDirs st; listings := listings st ++ [(p, r)] |}.

Definition addFound (p : jsstring) (st : ScanState) : ScanState :=
  {| foundDirs := setAdd p (foundDirs st); listings := listings st |}.

(** [scanDirectoryGeneric], by recursion on [fuel]; the sibling scans of
    [Promise.all] are run one after the other, in the order of
    [subDirs].  A scan never rejects (its whole body is inside [try]), so
    inside the [try] only [getRepoContents] can throw, and the set is
    then the one the call was entered with. *)
Fixpoint scanDirectoryGenericFuel (fuel : nat) (path : jsstring)
    (depth maxDepth : nat) (fileCheck : jsstring -> bool) (st : ScanState)
  : M ScanState :=
  match fuel with
  | O => ret st
  | S fuel' =>
      if (maxDepth <=? depth)%nat then ret st
      else
        tryCatch
          (contents <- getRepoContents path ;;
           let st1 := noteListing path (Ok contents) st in
           let st2 :=
             if hasMatchingFile fileCheck contents && JsString.truthy path
             then addFound path st1 else st1 in
           forEachM (subDirsOf fileCheck contents)
             (fun dir =>
                scanDirectoryGenericFuel fuel' (ci_path dir)
                  (depth + 1) maxDepth fileCheck)
             st2)
          (fun error =>
             consoleLog ConsoleWarn
               (js "Could not scan directory '" ++ path ++ js "':") ;;;
             ret (noteListing path (Err error) st))
  end.

(** The recursion stops at [depth >= maxDepth], so [maxDepth - depth]
    steps, and one to reach the test, are all it takes. *)
Definition scanDirectoryGeneric (path : jsstring) (depth maxDepth : nat)
    (fileCheck : jsstring -> bool) (st : ScanState) : M ScanState :=
  scanDirectoryGenericFuel (S (maxDepth - depth)) path depth maxDepth fileCheck st.

Definition emptyScan : ScanState := {| foundDirs := []; listings := [] |}.

Definition contentPreferredDirNames : list jsstring :=
  [js "posts"; js "post"; js "blog"; js "content"; js "data"; js "articles"].

Definition imagePreferredDirNames : list jsstring :=
  [js "images"; js "assets"; js "static"; js "public"].

(** The scan of [scanForContentDirectories], with its record of calls. *)
Definition scanContent : M ScanState :=
  scanDirectoryGeneric [] 0 4 isMarkdownName emptyScan.

Definition scanForContentDirectories : M (list jsstring) :=
  st <- scanContent ;;
  ret (sortPaths (foundDirs st) contentPreferredDirNames).

(** The scan of [scanForImageDirectories], with its record of calls. *)
Definition scanImages : M ScanState :=
  scanDirectoryGeneric [] 0 4 isImageName emptyScan.

Definition isPublicImages (p : jsstring) : bool :=
  JsString.eqb (toLowerCase p) (js "public/images").

(** The promotion of [public/images] in a sorted list. *)
Definition promotePublicImages (sorted : list jsstring) : list jsstring :=
  match findIndex isPublicImages sorted with
  | Some (S i) =>
      let (removed, rest) := splice1 sorted (S i) in
      removed ++ rest
  | _ => sorted
  end.

Definition scanForImageDirectories : M (list jsstring) :=
  st <- scanImages ;;
  ret (promotePublicImages (sortPaths (foundDirs st) imagePreferredDirNames)).

Definition filesToScan : list (jsstring * RegExp) :=
  [(js "astro.config.mjs", jsSiteRegex);
   (js "astro.config.ts", jsSiteRegex);
   (js "astro.config.js", jsSiteRegex);
   (js "src/config.yaml", yamlSiteRegex);
   (js "src/config.yml", yamlSiteRegex);
   (js "src/config.ts", jsSiteRegex);
   (js "src/config.js", jsSiteRegex)].

(** [match && match[1]] then [match[1].replace(/\/$/, '')]. *)
Definition siteUrlIn (content : jsstring) (regex : RegExp) : option jsstring :=
  match String_match content regex with
  | Some groups =>
      match nth_error groups 1 with
      | Some url =>
          if JsString.truthy url then Some (JsString.stripTrailingSlash url)
          else None
      | None => None
      end
  | None => None
  end.

(** The loop over [filesToScan]: [Some url] when an iteration returns. *)
Fixpoint scanConfigFiles (files : list (jsstring * RegExp)) : M (option jsstring) :=
  match files with
  | [] => ret None
  | (filePath, regex) :: rest =>
      found <- tryCatch
                 (content <- getFileContent filePath ;;
                  ret (siteUrlIn content regex))
                 (fun error => ret None) ;;
      match found with
      | Some url => ret (Some url)
      | None => scanConfigFiles rest
      end
  end.

(** The [homepage] branch: [pkg.homepage] when it is a string that
    starts with [http]. *)
Definition homepageOf (content : jsstring) : Result (option jsstring) :=
  match JSON_parse content with
  | Err e => Err e
  | Ok pkg =>
      match getMember pkg (js "homepage") with
      | Err e => Err e
      | Ok (Some (JString homepage)) =>
          if JsString.truthy homepage && JsString.startsWith homepage (js "http")
          then Ok (Some (JsString.stripTrailingSlash homepage))
          else Ok None
      | Ok _ => Ok None
      end
  end.

Definition findProductionUrl : M (option jsstring) :=
  found <- scanConfigFiles filesToScan ;;
  match found with
  | Some url => ret (Some url)
  | None =>
      tryCatch
        (content <- getFileContent (js "package.json") ;;
         lift (homepageOf content))
        (fun error => ret None)
  end.

End Shared.

End BaseGitService.

(** ** The GitHub adapter *)

Module GithubService.

Definition API_BASE_URL : jsstring := js "https://api.github.com".

(** The request [makeRequest] hands to [fetch]. *)
Definition requestFor (endpoint token : jsstring) (options : RequestInit) : Request :=
  {| req_url := API_BASE_URL ++ endpoint;
     req_method := methodOf (init_method options);
     req_authorization := js "token " ++ token;
     req_accept := js "application/vnd.github.v3+json";
     req_body := init_body options |}.

Section Requests.
Context `{Backend}.

Definition makeRequest (endpoint token : jsstring) (options : RequestInit)
  : M Payload :=
  response <- fetch (requestFor endpoint token options) ;;
  if status response =? 401 then
    dispatchEvent (js "auth-error") ;;;
    throw Unauthorized
  else if negb (ok response) then
    let errorData :=
      match payload response with
      | PNotJson => PMessage (Some (js "An unknown error occurred")) None
      | p => p
      end in
    throw (HttpError (js "GitHub API Error: ") (status response)
             (statusText response) (orEmpty (orElse (messageOf errorData) None)))
  else if (status response =? 204) || (status response =? 201)
          || ((status response =? 200) && isDelete (init_method options)) then
    ret (match payload response with PNotJson => PEmpty | p => p end)
  else
    match payload response with
    | PNotJson => throw (SyntaxError (js "Unexpected end of JSON input"))
    | p => ret p
    end.

Definition verifyToken (token : jsstring) : M Payload :=
  makeRequest (js "/user") token noOptions.

Definition getRepoDetails (token owner repo : jsstring) : M Payload :=
  makeRequest (repoEndpoint owner repo) token noOptions.

End Requests.

Definition base64Encode := Encoding.base64Encode.

End GithubService.

(** The entry of [listFiles] for a blob of the recursive tree. *)
Definition blobInfo (item : TreeItem) : RepoTreeInfo :=
  {| info_name := orEmpty (orElse (lastSegment (tree_path item)) None);
     info_path := tree_path item;
     info_type := js "file";
     info_sha := tree_sha item;
     info_size := tree_size item;
     info_hasMarkdown := None |}.

(** [path ? (path.endsWith('/') ? path : path + '/') : ''] *)
Definition normalizePath (path : jsstring) : jsstring :=
  if JsString.truthy path
  then (if JsString.endsWith path (js "/") then path else path ++ js "/")
  else [].

(** The filter of [listFiles] on the entries of the recursive tree. *)
Definition underPath (normalizedPath : jsstring) (item : TreeItem) : bool :=
  JsString.eqb (tree_type item) (js "blob")
  && (JsString.eqb normalizedPath [] || JsString.startsWith (tree_path item) normalizedPath).

(** The entries of [getRepoTree]: directories before files, then by name. *)
Definition compareTreeInfo `{JsRuntime} (a b : RepoTreeInfo) : Z :=
  let aDir := JsString.eqb (info_type a) (js "dir") in
  let bDir := JsString.eqb (info_type b) (js "dir") in
  if aDir && negb bDir then -1
  else if negb aDir && bDir then 1
  else localeCompare (info_name a) (info_name b).

Definition dirInfo (item : ContentInfo) (hasMarkdown : bool) : RepoTreeInfo :=
  {| info_name := ci_name item;
     info_path := ci_path item;
     info_type := js "dir";
     info_sha := ci_sha item;
     info_size := None;
     info_hasMarkdown := Some hasMarkdown |}.

Definition fileInfo (item : ContentInfo) : RepoTreeInfo :=
  {| info_name := ci_name item;
     info_path := ci_path item;
     info_type := js "file";
     info_sha := ci_sha item;
     info_size := Some (ci_size item);
     info_hasMarkdown := None |}.

Definition someMarkdown (subContents : list ContentInfo) : bool :=
  existsb (fun subItem => BaseGitService.isFile subItem
                          && BaseGitService.isMarkdownName (ci_name subItem))
    subContents.

(** [items.filter(item => item !== null)] *)
Definition dropNulls {A} (items : list (option A)) : list A :=
  flat_map (fun item => match item with Some x => [x] | None => [] end) items.

Module GithubAdapter.

(** The fields of an adapter object. *)
Record t := {
  token : jsstring;
  owner : jsstring;
  repoName : jsstring
}.

Definition new (token owner repoName : jsstring) : t :=
  {| token := token; owner := owner; repoName := repoName |}.

Section Methods.
Context `{JsRuntime} `{Backend}.
Variable this : t.

(** The private method [makeRequest]. *)
Definition request (endpoint : jsstring) (options : RequestInit) : M Payload :=
  GithubService.makeRequest endpoint (token this) options.

Definition getFileSha (path : jsstring) : M (option jsstring) :=
  tryCatch
    (fileData <- request (contentsEndpoint (owner this) (repoName this) path)
                   noOptions ;;
     ret (shaOf fileData))
    (fun error =>
       if JsString.includes (message error) (js "404") then ret None
       else throw error).

Definition getRepoDetails : M Payload :=
  request (repoEndpoint (owner this) (repoName this)) noOptions.

Definition getRepoContents (path : jsstring) : M (list GithubContent) :=
  contents <- request (contentsEndpoint (owner this) (repoName this) path)
                noOptions ;;
  lift (asListing contents).

(** What [getFileContent] does with the answer: the decoding, or the
    error it throws when there is no base64 content. *)
Definition decodeFileData (fileData : Payload) : Result jsstring :=
  let failure := PlainError (js "Could not decode file content.") in
  match fileData with
  | PFile file =>
      match ci_content file, ci_encoding file with
      | Some content, Some encoding =>
          if JsString.truthy content && JsString.eqb encoding (js "base64")
          then Encoding.decodeContent content
          else Err failure
      | _, _ => Err failure
      end
  | _ => Err failure
  end.

Definition getFileContent (path : jsstring) : M jsstring :=
  fileData <- request (contentsEndpoint (owner this) (repoName this) path)
                noOptions ;;
  lift (decodeFileData fileData).

(** [super.listFiles] *)
Definition super_listFiles : jsstring -> M (list RepoTreeInfo) :=
  BaseGitService.listFiles getRepoContents.

(** The body of the [try] of [listFiles]: the recursive tree. *)
Definition listFilesFast (path : jsstring) : M (list RepoTreeInfo) :=
  repo <- getRepoDetails ;;
  let branch := branchOf repo in
  response <- request (treeEndpoint (owner this) (repoName this) branch)
                noOptions ;;
  match response with
  | PTree tree truncated =>
      (if truncated
       then consoleLog ConsoleWarn
              (js "Tree response truncated. Some files may be missing (limit is usually 100k).")
       else ret tt) ;;;
      let normalizedPath := normalizePath path in
      ret (map blobInfo (filter (underPath normalizedPath) tree))
  | _ => throw (TypeError (js "Cannot read properties of undefined (reading 'filter')"))
  end.

Definition listFiles (path : jsstring) : M (list RepoTreeInfo) :=
  tryCatch (listFilesFast path)
    (fun e =>
       consoleLog ConsoleError (js "Tree API failed, falling back to contents API") ;;;
       super_listFiles path).

Definition uploadFile (path : jsstring) (file : File) (commitMessage : jsstring)
    (sha : option jsstring) : M Payload :=
  content <- lift (fileToBase64 file) ;;
  finalSha <- (if truthySha sha then ret sha else getFileSha path) ;;
  let body := {| wb_message := commitMessage; wb_content := content;
                 wb_sha := finalSha |} in
  request (contentsEndpoint (owner this) (repoName this) path)
    {| init_method := Some PUT; init_body := Some body |}.

Definition createFileFromString (path newContent commitMessage : jsstring)
  : M Payload :=
  sha <- getFileSha path ;;
  if truthySha sha then
    throw (FileExists (orEmpty (lastSegment path)))
  else
    content <- lift (GithubService.base64Encode newContent) ;;
    let body := {| wb_message := commitMessage; wb_content := Some content;
                   wb_sha := None |} in
    request (contentsEndpoint (owner this) (repoName this) path)
      {| init_method := Some PUT; init_body := Some body |}.

Definition updateFileContent (path newContent commitMessage sha : jsstring)
  : M Payload :=
  content <- lift (GithubService.base64Encode newContent) ;;
  let body := {| wb_message := commitMessage; wb_content := Some content;
                 wb_sha := Some sha |} in
  request (contentsEndpoint (owner this) (repoName this) path)
    {| init_method := Some PUT; init_body := Some body |}.

Definition deleteFile (path sha commitMessage : jsstring) : M Payload :=
  let body := {| wb_message := commitMessage; wb_content := None;
                 wb_sha := Some sha |} in
  request (contentsEndpoint (owner this) (repoName this) path)
    {| init_method := Some DELETE; init_body := Some body |}.

Definition getFileAsBlob (path : jsstring) : M Blob :=
  fileData <- request (contentsEndpoint (owner this) (repoName this) path)
                noOptions ;;
  let failure :=
    PlainError (js "Could not get file content for path: " ++ path) in
  match fileData with
  | PFile file =>
      match ci_content file, ci_encoding file with
      | Some content, Some encoding =>
          if JsString.truthy content && JsString.eqb encoding (js "base64")
          then
            bytes <- lift (Encoding.decodeBytes content) ;;
            ret {| blob_bytes := bytes; blob_type := mimeTypeOf (ci_name file) |}
          else throw failure
      | _, _ => throw failure
      end
  | _ => throw failure
  end.

Definition treeEntry (item : ContentInfo) : M (option RepoTreeInfo) :=
  if JsString.arrayIncludes BaseGitService.ignoredTreeDirs (toLowerCase (ci_name item))
  then ret None
  else if BaseGitService.isDir item then
    tryCatch
      (subContents <- getRepoContents (ci_path item) ;;
       ret (Some (dirInfo item (someMarkdown subContents))))
      (fun e => ret (Some (dirInfo item false)))
  else ret (Some (fileInfo item)).

Definition getRepoTree (path : jsstring) : M (list RepoTreeInfo) :=
  contents <- getRepoContents path ;;
  processedItems <- mapM treeEntry contents ;;
  ret (Array_sort compareTreeInfo (dropNulls processedItems)).

Definition scanForContentDirectories : M (list jsstring) :=
  BaseGitService.scanForContentDirectories getRepoContents.

Definition scanForImageDirectories : M (list jsstring) :=
  BaseGitService.scanForImageDirectories getRepoContents.

Definition findProductionUrl : M (option jsstring) :=
  BaseGitService.findProductionUrl getFileContent.

End Methods.

End GithubAdapter.

(** ** The Gitea and Gogs adapter *)

Module BaseGiteaService.

(** The request [makeGiteaRequest] hands to [fetch]. *)
Definition requestFor (endpoint token baseUrl : jsstring) (options : RequestInit)
  : Request :=
  {| req_url := baseUrl ++ js "/api/v1" ++ endpoint;
     req_method := methodOf (init_method options);
     req_authorization := js "token " ++ token;
     req_accept := js "application/json";
     req_body := init_body options |}.

Section Requests.
Context `{Backend}.

Definition makeGiteaRequest (endpoint token baseUrl : jsstring)
    (options : RequestInit) : M Payload :=
  response <- fetch (requestFor endpoint token baseUrl options) ;;
  if status response =? 401 then
    dispatchEvent (js "auth-error") ;;;
    throw Unauthorized
  else if negb (ok response) then
    let errorData :=
      match payload response with
      | PNotJson =>
          PMessage (Some (js "An unknown Gitea/Gogs error occurred")) None
      | p => p
      end in
    throw (HttpError (js "API Error: ") (status response) (statusText response)
             (orEmpty (orElse (messageOf errorData)
                         (orElse (errorOf errorData) None))))
  else if (status response =? 204) || (status response =? 201)
          || ((status response =? 200)
              && (isDelete (init_method options) || isPut (init_method options)))
  then
    ret (match payload response with PNotJson => PEmpty | p => p end)
  else
    match payload response with
    | PNotJson => throw (SyntaxError (js "Unexpected end of JSON input"))
    | p => ret p
    end.

End Requests.

Definition base64Encode := Encoding.base64Encode.

End BaseGiteaService.

Module BaseGiteaAdapter.

Record t := {
  token : jsstring;
  owner : jsstring;
  repoName : jsstring;
  baseUrl : jsstring
}.

Definition new (token owner repoName baseUrl : jsstring) : t :=
  {| token := token; owner := owner; repoName := repoName;
     baseUrl := JsString.stripTrailingSlash baseUrl |}.

Section Methods.
Context `{JsRuntime} `{Backend}.
Variable this : t.

(** The protected method [makeRequest]. *)
Definition request (endpoint : jsstring) (options : RequestInit) : M Payload :=
  BaseGiteaService.makeGiteaRequest endpoint (token this) (baseUrl this) options.

Definition getFileSha (path : jsstring) : M (option jsstring) :=
  tryCatch
    (fileData <- request (contentsEndpoint (owner this) (repoName this) path)
                   noOptions ;;
     ret (shaOf fileData))
    (fun error =>
       if JsString.includes (message error) (js "404") then ret None
       else throw error).

Definition getRepoDetails : M Payload :=
  request (repoEndpoint (owner this) (repoName this)) noOptions.

Definition getRepoContents (path : jsstring) : M (list GithubContent) :=
  contents <- request (contentsEndpoint (owner this) (repoName this) path)
                noOptions ;;
  lift (asListing contents).

(** What [getFileContent] does with the answer: the decoding, or the
    error it throws when there is no base64 content. *)
Definition decodeFileData (fileData : Payload) : Result jsstring :=
  let failure := PlainError (js "Could not decode file content from Gitea/Gogs.") in
  match fileData with
  | PFile file =>
      match ci_content file, ci_encoding file with
      | Some content, Some encoding =>
          if JsString.truthy content && JsString.eqb encoding (js "base64")
          then Encoding.decodeContent content
          else Err failure
      | _, _ => Err failure
      end
  | _ => Err failure
  end.

Definition getFileContent (path : jsstring) : M jsstring :=
  fileData <- request (contentsEndpoint (owner this) (repoName this) path)
                noOptions ;;
  lift (decodeFileData fileData).

Definition super_listFiles : jsstring -> M (list RepoTreeInfo) :=
  BaseGitService.listFiles getRepoContents.

Definition listFilesFast (path : jsstring) : M (list RepoTreeInfo) :=
  repo <- getRepoDetails ;;
  let branch := branchOf repo in
  response <- request (treeEndpoint (owner this) (repoName this) branch)
                noOptions ;;
  match response with
  | PTree tree truncated =>
      (if truncated
       then consoleLog ConsoleWarn (js "Tree response truncated.")
       else ret tt) ;;;
      let normalizedPath := normalizePath path in
      ret (map blobInfo (filter (underPath normalizedPath) tree))
  | _ => throw (TypeError (js "Cannot read properties of undefined (reading 'filter')"))
  end.

Definition listFiles (path : jsstring) : M (list RepoTreeInfo) :=
  tryCatch (listFilesFast path)
    (fun e =>
       consoleLog ConsoleError (js "Tree API failed, falling back") ;;;
       super_listFiles path).

Definition uploadFile (path : jsstring) (file : File) (commitMessage : jsstring)
    (sha : option jsstring) : M Payload :=
  content <- lift (fileToBase64 file) ;;
  finalSha <- (if truthySha sha then ret sha else getFileSha path) ;;
  if truthySha finalSha then
    let body := {| wb_message := commitMessage; wb_content := content;
                   wb_sha := finalSha |} in
    request (contentsEndpoint (owner this) (repoName this) path)
      {| init_method := Some PUT; init_body := Some body |}
  else
    let body := {| wb_message := commitMessage; wb_content := content;
                   wb_sha := None |} in
    request (contentsEndpoint (owner this) (repoName this) path)
      {| init_method := Some POST; init_body := Some body |}.

Definition createFileFromString (path newContent commitMessage : jsstring)
  : M Payload :=
  sha <- getFileSha path ;;
  if truthySha sha then
    throw (FileExists (orEmpty (lastSegment path)))
  else
    content <- lift (BaseGiteaService.base64Encode newContent) ;;
    let body := {| wb_message := commitMessage; wb_content := Some content;
                   wb_sha := None |} in
    request (contentsEndpoint (owner this) (repoName this) path)
      {| init_method := Some POST; init_body := Some body |}.

Definition updateFileContent (path newContent commitMessage sha : jsstring)
  : M Payload :=
  content <- (if JsString.startsWith newContent (js "data:")
              then ret (nth_error (JsString.split newContent JsString.comma) 1)
              else c <- lift (BaseGiteaService.base64Encode newContent) ;;
                   ret (Some c)) ;;
  let body := {| wb_message := commitMessage; wb_content := content;
                 wb_sha := Some sha |} in
  request (contentsEndpoint (owner this) (repoName this) path)
    {| init_method := Some PUT; init_body := Some body |}.

Definition deleteFile (path sha commitMessage : jsstring) : M Payload :=
  let body := {| wb_message := commitMessage; wb_content := None;
                 wb_sha := Some sha |} in
  request (contentsEndpoint (owner this) (repoName this) path)
    {| init_method := Some DELETE; init_body := Some body |}.

Definition getFileAsBlob (path : jsstring) : M Blob :=
  fileData <- request (contentsEndpoint (owner this) (repoName this) path)
                noOptions ;;
  let failure :=
    PlainError (js "Could not get file content for path: " ++ path) in
  match fileData with
  | PFile file =>
      match ci_content file, ci_encoding file with
      | Some content, Some encoding =>
          if JsString.truthy content && JsString.eqb encoding (js "base64")
          then
            bytes <- lift (Encoding.decodeBytes content) ;;
            ret {| blob_bytes := bytes; blob_type := mimeTypeOf (ci_name file) |}
          else throw failure
      | _, _ => throw failure
      end
  | _ => throw failure
  end.

Definition treeEntry (item : ContentInfo) : M (option RepoTreeInfo) :=
  if JsString.arrayIncludes BaseGitService.ignoredTreeDirs (toLowerCase (ci_name item))
  then ret None
  else if BaseGitService.isDir item then
    tryCatch
      (subContents <- getRepoContents (ci_path item) ;;
       ret (Some (dirInfo item (someMarkdown subContents))))
      (fun e => ret (Some (dirInfo item false)))
  else ret (Some (fileInfo item)).

Definition getRepoTree (path : jsstring) : M (list RepoTreeInfo) :=
  contents <- getRepoContents path ;;
  processedItems <- mapM treeEntry contents ;;
  ret (Array_sort compareTreeInfo (dropNulls processedItems)).

Definition scanForContentDirectories : M (list jsstring) :=
  BaseGitService.scanForContentDirectories getRepoContents.

Definition scanForImageDirectories : M (list jsstring) :=
  BaseGitService.scanForImageDirectories getRepoContents.

Definition findProductionUrl : M (option jsstring) :=
  BaseGitService.findProductionUrl getFileContent.

End Methods.

End BaseGiteaAdapter.

(** [GogsAdapter] adds nothing to [BaseGiteaAdapter]. *)
Module GogsService.

Section Requests.
Context `{Backend}.

Definition verifyToken (token baseUrl : jsstring) : M Payload :=
  BaseGiteaService.makeGiteaRequest (js "/user") token baseUrl noOptions.

Definition getRepoDetails (token owner repo baseUrl : jsstring) : M Payload :=
  BaseGiteaService.makeGiteaRequest (repoEndpoint owner repo) token baseUrl noOptions.

End Requests.

End GogsService.

Module GogsAdapter := BaseGiteaAdapter.

(** ** A reference backend

    The remote repository as the contract describes it: a flat store of files
    addressed by path, each with the content hash that writes are compared
    against, behind the REST surface the adapters consume.  It gives the
    examples a backend to run on, and is the backend on which the two listing
    paths of [listFiles] are compared. *)

Module RefBackend.

Record StoredFile := {
  sf_path : jsstring;
  sf_sha : jsstring;
  sf_content : jsstring       (* base64 text *)
}.

Record State := {
  api : jsstring;             (* the URL the endpoints are appended to *)
  credentials : jsstring;     (* the Authorization header that is accepted *)
  repository : GithubRepo;
  files : list StoredFile;
  treeLimit : nat             (* most entries in one tree response *)
}.

(** [Some rest] when [s] is [prefix ++ rest]. *)
Fixpoint stripPrefix (prefix s : jsstring) {struct prefix} : option jsstring :=
  match prefix, s with
  | [], _ => Some s
  | _ :: _, [] => None
  | p :: prefix', c :: s' => if c =? p then stripPrefix prefix' s' else None
  end.

Definition hasSlash (s : jsstring) : bool := existsb (Z.eqb JsString.slash) s.

(** The hash given to new content: any function of the content serves. *)
Definition hashOf (content : jsstring) : jsstring := js "sha:" ++ content.

Definition lookup (p : jsstring) (fs : list StoredFile) : option StoredFile :=
  find (fun f => JsString.eqb (sf_path f) p) fs.

Definition remove (p : jsstring) (fs : list StoredFile) : list StoredFile :=
  filter (fun f => negb (JsString.eqb (sf_path f) p)) fs.

Definition store (p content : jsstring) (fs : list StoredFile) : list StoredFile :=
  remove p fs ++ [{| sf_path := p; sf_sha := hashOf content; sf_content := content |}].

(** The part of a stored path below a directory prefix. *)
Definition below (dirPrefix : jsstring) (f : StoredFile) : jsstring :=
  skipn (List.length dirPrefix) (sf_path f).

Definition isDirectFile (dirPrefix : jsstring) (f : StoredFile) : bool :=
  JsString.startsWith (sf_path f) dirPrefix && negb (hasSlash (below dirPrefix f)).

Definition isDeeperFile (dirPrefix : jsstring) (f : StoredFile) : bool :=
  JsString.startsWith (sf_path f) dirPrefix && hasSlash (below dirPrefix f).

Definition fileEntry (dirPrefix : jsstring) (f : StoredFile) : ContentInfo :=
  {| ci_name := below dirPrefix f;
     ci_path := sf_path f;
     ci_type := js "file";
     ci_sha := sf_sha f;
     ci_size := Z.of_nat (List.length (sf_content f));
     ci_content := None;
     ci_encoding := None |}.

Definition dirEntry (dirPrefix : jsstring) (f : StoredFile) : ContentInfo :=
  let dirName := hd [] (JsString.split (below dirPrefix f) JsString.slash) in
  {| ci_name := dirName;
     ci_path := dirPrefix ++ dirName;
     ci_type := js "dir";
     ci_sha := js "tree:" ++ dirPrefix ++ dirName;
     ci_size := 0;
     ci_content := None;
     ci_encoding := None |}.

(** Entries with the same path are listed once. *)
Fixpoint dedupe (entries : list ContentInfo) : list ContentInfo :=
  match entries with
  | [] => []
  | e :: rest =>
      if existsb (fun e' => JsString.eqb (ci_path e') (ci_path e)) rest
      then dedupe rest else e :: dedupe rest
  end.

(** The shallow listing of a directory: its files, then its
    subdirectories. *)
Definition childrenOf (dirPrefix : jsstring) (fs : list StoredFile) : list ContentInfo :=
  map (fileEntry dirPrefix) (filter (isDirectFile dirPrefix) fs)
  ++ dedupe (map (dirEntry dirPrefix) (filter (isDeeperFile dirPrefix) fs)).

Definition fileObject (f : StoredFile) : ContentInfo :=
  {| ci_name := orEmpty (lastSegment (sf_path f));
     ci_path := sf_path f;
     ci_type := js "file";
     ci_sha := sf_sha f;
     ci_size := Z.of_nat (List.length (sf_content f));
     ci_content := Some (sf_content f);
     ci_encoding := Some (js "base64") |}.

Definition blobItem (f : StoredFile) : TreeItem :=
  {| tree_path := sf_path f;
     tree_type := js "blob";
     tree_sha := sf_sha f;
     tree_size := Some (Z.of_nat (List.length (sf_content f))) |}.

(** The directories above a path, outermost first. *)
Fixpoint ancestors (prefix : jsstring) (segments : list jsstring) : list jsstring :=
  match segments with
  | [] => []
  | [_] => []
  | seg :: rest =>
      let dir := if JsString.truthy prefix then prefix ++ js "/" ++ seg else seg in
      dir :: ancestors dir rest
  end.

Definition treeOnly (dir : jsstring) : TreeItem :=
  {| tree_path := dir;
     tree_type := js "tree";
     tree_sha := js "tree:" ++ dir;
     tree_size := None |}.

(** The whole tree: every file as a blob, and the directories above
    them. *)
Definition treeItems (fs : list StoredFile) : list TreeItem :=
  map blobItem fs
  ++ map treeOnly
       (nodup (list_eq_dec Z.eq_dec)
          (flat_map (fun f => ancestors [] (JsString.split (sf_path f) JsString.slash)) fs)).

Definition respond (st : State) (code : Z) (text : string) (p : Payload)
  : State * FetchResult :=
  (st, Responded {| status := code; statusText := js text; payload := p |}).

Definition failure (st : State) (code : Z) (text : string) : State * FetchResult :=
  respond st code text (PMessage (Some (js text)) None).

Definition withFiles (st : State) (fs : list StoredFile) : State :=
  {| api := api st; credentials := credentials st; repository := repository st;
     files := fs; treeLimit := treeLimit st |}.

Definition getContents (st : State) (p : jsstring) : State * FetchResult :=
  let entries := childrenOf (normalizePath p) (files st) in
  match entries with
  | _ :: _ => respond st 200 "OK" (PListing entries)
  | [] =>
      match lookup p (files st) with
      | Some f => respond st 200 "OK" (PFile (fileObject f))
      | None =>
          if JsString.truthy p then failure st 404 "Not Found"
          else respond st 200 "OK" (PListing [])
      end
  end.

Definition getTree (st : State) : State * FetchResult :=
  let items := treeItems (files st) in
  respond st 200 "OK"
    (PTree (firstn (treeLimit st) items)
       (treeLimit st <? List.length items)%nat).

(** [PUT]: a write that carries a hash replaces the file when the hash is
    the current one; a write that carries none creates the file when there
    is none.  A body without content writes an empty file. *)
Definition putContents (st : State) (p : jsstring) (body : WriteBody)
  : State * FetchResult :=
  let content := orEmpty (wb_content body) in
  match lookup p (files st), wb_sha body with
  | Some f, Some h =>
      if JsString.eqb h (sf_sha f)
      then respond (withFiles st (store p content (files st))) 200 "OK" PEmpty
      else failure st 409 "Conflict"
  | None, Some h => failure st 409 "Conflict"
  | Some f, None => failure st 422 "Unprocessable Entity"
  | None, None =>
      respond (withFiles st (store p content (files st))) 201 "Created" PEmpty
  end.

(** [POST]: creates the file when there is none. *)
Definition postContents (st : State) (p : jsstring) (body : WriteBody)
  : State * FetchResult :=
  let content := orEmpty (wb_content body) in
  match lookup p (files st) with
  | Some f => failure st 422 "Unprocessable Entity"
  | None =>
      respond (withFiles st (store p content (files st))) 201 "Created" PEmpty
  end.

Definition deleteContents (st : State) (p : jsstring) (body : WriteBody)
  : State * FetchResult :=
  match lookup p (files st), wb_sha body with
  | Some f, Some h =>
      if JsString.eqb h (sf_sha f)
      then respond (withFiles st (remove p (files st))) 200 "OK" PEmpty
      else failure st 409 "Conflict"
  | Some f, None => failure st 422 "Unprocessable Entity"
  | None, _ => failure st 404 "Not Found"
  end.

Definition repoUrl (st : State) : jsstring :=
  api st ++ repoEndpoint (repo_owner (repository st)) (repo_name (repository st)).

Definition route (st : State) (req : Request) : State * FetchResult :=
  if negb (JsString.eqb (req_authorization req) (credentials st))
  then failure st 401 "Unauthorized"
  else
    match stripPrefix (repoUrl st) (req_url req) with
    | None => failure st 404 "Not Found"
    | Some [] =>
        match req_method req with
        | GET => respond st 200 "OK" (PRepo (repository st))
        | _ => failure st 405 "Method Not Allowed"
        end
    | Some rest =>
        match stripPrefix (js "/contents/") rest with
        | Some p =>
            match req_method req, req_body req with
            | GET, _ => getContents st p
            | PUT, Some body => putContents st p body
            | POST, Some body => postContents st p body
            | DELETE, Some body => deleteContents st p body
            | _, None => failure st 422 "Unprocessable Entity"
            end
        | None =>
            if JsString.eqb rest
                 (js "/git/trees/" ++ default_branch (repository st)
                    ++ js "?recursive=1")
            then
              match req_method req with
              | GET => getTree st
              | _ => failure st 405 "Method Not Allowed"
              end
            else failure st 404 "Not Found"
        end
    end.

#[export] Instance backend : Backend := {| Remote := State; serve := route |}.

(** A world that has seen nothing yet. *)
Definition fresh (st : State) : World :=
  {| remote := st; traffic := []; events := []; console := [] |}.

End RefBackend.

(** ** A runtime for the examples

    ASCII lower-casing, comparison by code units, and the regular expression
    matches and the parse of the texts the examples use. *)

Module TestRuntime.

Fixpoint compareUnits (a b : jsstring) : Z :=
  match a, b with
  | [], [] => 0
  | [], _ :: _ => -1
  | _ :: _, [] => 1
  | x :: a', y :: b' =>
      if x <? y then -1 else if y <? x then 1 else compareUnits a' b'
  end.

Definition matchSite (content : jsstring) (re : RegExp) : option (list jsstring) :=
  match re with
  | jsSiteRegex =>
      if JsString.eqb content (js "export default { site: 'https://example.org/' }")
      then Some [js "site: 'https://example.org/'"; js "https://example.org/"]
      else None
  | yamlSiteRegex =>
      if JsString.eqb content (js "url: https://example.net")
      then Some [js "url: https://example.net"; js "https://example.net"]
      else None
  end.

(** A text between double quotes. *)
Definition quoted (s : string) : jsstring := 34 :: js s ++ [34].

(** A package manifest with a homepage. *)
Definition manifest : jsstring :=
  js "{ " ++ quoted "homepage" ++ js ": " ++ quoted "https://example.com/" ++ js " }".

Definition parse (content : jsstring) : Result Json :=
  if JsString.eqb content manifest
  then Ok (JObject [(js "homepage", JString (js "https://example.com/"))])
  else Err (SyntaxError (js "Unexpected token")).

#[export] Instance runtime : JsRuntime := {|
  toLowerCase := map JsString.asciiLower;
  localeCompare := compareUnits;
  String_match := matchSite;
  JSON_parse := parse
|}.

End TestRuntime.

(** ** The operations of the contract *)

(** An adapter object of either kind ([GogsAdapter] objects are
    [BaseGiteaAdapter] objects). *)
Inductive Adapter :=
| Github (this : GithubAdapter.t)
| Gitea (this : BaseGiteaAdapter.t).

(** A call of a method of [IGitService], with its arguments. *)
Inductive Operation :=
| GetRepoContents (path : jsstring)
| ListFiles (path : jsstring)
| GetFileContent (path : jsstring)
| GetFileAsBlob (path : jsstring)
| UploadFile (path : jsstring) (file : File) (commitMessage : jsstring)
    (sha : option jsstring)
| CreateFileFromString (path newContent commitMessage : jsstring)
| UpdateFileContent (path newContent commitMessage sha : jsstring)
| DeleteFile (path sha commitMessage : jsstring)
| GetRepoTree (path : jsstring)
| GetRepoDetails
| ScanForContentDirectories
| ScanForImageDirectories
| FindProductionUrl.

Section Perform.
Context `{JsRuntime} `{Backend}.

(** A promise awaited for its settling only. *)
Definition settle {A} (m : M A) : M unit := m ;;; ret tt.

(** The call of an operation on an adapter object. *)
Definition perform (adapter : Adapter) (op : Operation) : M unit :=
  match adapter with
  | Github this =>
      match op with
      | GetRepoContents path => settle (GithubAdapter.getRepoContents this path)
      | ListFiles path => settle (GithubAdapter.listFiles this path)
      | GetFileContent path => settle (GithubAdapter.getFileContent this path)
      | GetFileAsBlob path => settle (GithubAdapter.getFileAsBlob this path)
      | UploadFile path file commitMessage sha =>
          settle (GithubAdapter.uploadFile this path file commitMessage sha)
      | CreateFileFromString path newContent commitMessage =>
          settle (GithubAdapter.createFileFromString this path newContent commitMessage)
      | UpdateFileContent path newContent commitMessage sha =>
          settle (GithubAdapter.updateFileContent this path newContent commitMessage sha)
      | DeleteFile path sha commitMessage =>
          settle (GithubAdapter.deleteFile this path sha commitMessage)
      | GetRepoTree path => settle (GithubAdapter.getRepoTree this path)
      | GetRepoDetails => settle (GithubAdapter.getRepoDetails this)
      | ScanForContentDirectories => settle (GithubAdapter.scanForContentDirectories this)
      | ScanForImageDirectories => settle (GithubAdapter.scanForImageDirectories this)
      | FindProductionUrl => settle (GithubAdapter.findProductionUrl this)
      end
  | Gitea this =>
      match op with
      | GetRepoContents path => settle (BaseGiteaAdapter.getRepoContents this path)
      | ListFiles path => settle (BaseGiteaAdapter.listFiles this path)
      | GetFileContent path => settle (BaseGiteaAdapter.getFileContent this path)
      | GetFileAsBlob path => settle (BaseGiteaAdapter.getFileAsBlob this path)
      | UploadFile path file commitMessage sha =>
          settle (BaseGiteaAdapter.uploadFile this path file commitMessage sha)
      | CreateFileFromString path newContent commitMessage =>
          settle (BaseGiteaAdapter.createFileFromString this path newContent commitMessage)
      | UpdateFileContent path newContent commitMessage sha =>
          settle (BaseGiteaAdapter.updateFileContent this path newContent commitMessage sha)
      | DeleteFile path sha commitMessage =>
          settle (BaseGiteaAdapter.deleteFile this path sha commitMessage)
      | GetRepoTree path => settle (BaseGiteaAdapter.getRepoTree this path)
      | GetRepoDetails => settle (BaseGiteaAdapter.getRepoDetails this)
      | ScanForContentDirectories => settle (BaseGiteaAdapter.scanForContentDirectories this)
      | ScanForImageDirectories => settle (BaseGiteaAdapter.scanForImageDirectories this)
      | FindProductionUrl => settle (BaseGiteaAdapter.findProductionUrl this)
      end
  end.

(** Whether an exchange was answered with the authentication-failure
    status. *)
Definition isAuthFailure (exchange : Request * FetchResult) : bool :=
  match snd exchange with
  | Responded r => status r =? 401
  | Rejected => false
  end.

Definition isAuthError (event : jsstring) : bool :=
  JsString.eqb event (js "auth-error").

(** What an operation added to the world: the exchanges it made and the
    events it dispatched. *)
Definition extends (w w' : World) (exchanges : list (Request * FetchResult))
    (dispatched : list jsstring) : Prop :=
  traffic w' = traffic w ++ exchanges /\ events w' = events w ++ dispatched.

(** An operation signals authentication failures: it dispatches one
    [auth-error] event for each 401 answer it gets, and no other event. *)
Definition signals {A} (m : M A) : Prop :=
  forall w, exists exchanges dispatched,
    extends w (snd (m w)) exchanges dispatched
    /\ List.length (filter isAuthFailure exchanges) = List.length dispatched
    /\ Forall (fun e => isAuthError e = true) dispatched.

End Perform.

(** ** The vocabulary of the contract *)

(** The kinds of failure the contract tells apart, and the kind of a thrown
    error: a rejected credential, a missing path, a hash mismatch or an
    existing file on create, and everything else. *)
Inductive ErrorKind := AuthInvalid | NotFound | Conflict | NetworkOrBackendError.

Definition kindOf (e : JsError) : ErrorKind :=
  match e with
  | Unauthorized => AuthInvalid
  | FileExists _ => Conflict
  | HttpError _ status _ _ =>
      if status =? 409 then Conflict
      else if status =? 404 then NotFound
      else NetworkOrBackendError
  | _ => NetworkOrBackendError
  end.

(** The paths of the file entries of a listing. *)
Definition filePaths (entries : list RepoTreeInfo) : list jsstring :=
  map info_path (filter (fun e => JsString.eqb (info_type e) (js "file")) entries).



(** A JavaScript string proper: every code unit is in range. *)
Definition validString (s : jsstring) : Prop :=
  Forall (fun c => 0 <= c <= 65535) s.

Section Sniffing.
Context `{JsRuntime}.

(** The production URL as the contract words it, over what reading each
    file gives: the URLs found in the configuration files, in the order of
    the list, then the homepage of the package manifest; a file that cannot
    be read contributes nothing.  The result is the first of them. *)
Definition urlsFound (read : jsstring -> Result jsstring) : list jsstring :=
  flat_map
    (fun file =>
       match read (fst file) with
       | Ok content =>
           match BaseGitService.siteUrlIn content (snd file) with
           | Some url => [url]
           | None => []
           end
       | Err _ => []
       end)
    BaseGitService.filesToScan
  ++ match read (js "package.json") with
     | Ok content =>
         match BaseGitService.homepageOf content with
         | Ok (Some url) => [url]
         | _ => []
         end
     | Err _ => []
     end.

(** The URLs found in a list of configuration files. *)
Definition configUrls (read : jsstring -> Result jsstring)
    (files : list (jsstring * RegExp)) : list jsstring :=
  flat_map
    (fun file =>
       match read (fst file) with
       | Ok content =>
           match BaseGitService.siteUrlIn content (snd file) with
           | Some url => [url]
           | None => []
           end
       | Err _ => []
       end)
    files.

End Sniffing.

(** ** Notions the properties are stated with *)

Section RequestsOf.
Context `{JsRuntime} `{Backend}.

(** The request an adapter object sends for an endpoint. *)
Definition requestOf (adapter : Adapter) (endpoint : jsstring)
    (options : RequestInit) : Request :=
  match adapter with
  | Github this =>
      GithubService.requestFor endpoint (GithubAdapter.token this) options
  | Gitea this =>
      BaseGiteaService.requestFor endpoint (BaseGiteaAdapter.token this)
        (BaseGiteaAdapter.baseUrl this) options
  end.

Definition ownerOf (adapter : Adapter) : jsstring :=
  match adapter with
  | Github this => GithubAdapter.owner this
  | Gitea this => BaseGiteaAdapter.owner this
  end.

Definition repoNameOf (adapter : Adapter) : jsstring :=
  match adapter with
  | Github this => GithubAdapter.repoName this
  | Gitea this => BaseGiteaAdapter.repoName this
  end.

(** The read of the entry at a path, of the repository details and of the
    recursive tree of a branch. *)
Definition contentsRequest (adapter : Adapter) (path : jsstring) : Request :=
  requestOf adapter (contentsEndpoint (ownerOf adapter) (repoNameOf adapter) path)
    noOptions.

Definition repoRequest (adapter : Adapter) : Request :=
  requestOf adapter (repoEndpoint (ownerOf adapter) (repoNameOf adapter)) noOptions.

Definition treeRequest (adapter : Adapter) (branch : jsstring) : Request :=
  requestOf adapter (treeEndpoint (ownerOf adapter) (repoNameOf adapter) branch)
    noOptions.

(** [getRepoContents] of an adapter object. *)
Definition getRepoContentsOf (adapter : Adapter) (path : jsstring)
  : M (list ContentInfo) :=
  match adapter with
  | Github this => GithubAdapter.getRepoContents this path
  | Gitea this => BaseGiteaAdapter.getRepoContents this path
  end.

(** [listFiles] of an adapter object. *)
Definition listFilesOf (adapter : Adapter) (path : jsstring) : M (list RepoTreeInfo) :=
  match adapter with
  | Github this => GithubAdapter.listFiles this path
  | Gitea this => BaseGiteaAdapter.listFiles this path
  end.

(** The warning [listFiles] logs for a truncated tree. *)
Definition truncationWarning (adapter : Adapter) : jsstring :=
  match adapter with
  | Github _ =>
      js "Tree response truncated. Some files may be missing (limit is usually 100k)."
  | Gitea _ => js "Tree response truncated."
  end.

(** The world after one more exchange. *)
Definition after (w : World) (remote' : Remote) (req : Request)
    (answer : FetchResult) : World :=
  {| remote := remote';
     traffic := traffic w ++ [(req, answer)];
     events := events w;
     console := console w |}.

(** The backend answers a request with a success that carries JSON. *)
Definition answers (R : Remote) (req : Request) (R' : Remote) (r : Response) : Prop :=
  serve R req = (R', Responded r) /\ ok r = true /\ payload r <> PNotJson.

(** The backend reports a file at a path: it answers the read of the path
    with the file and its hash, and the read changes nothing. *)
Definition reportsFile (R : Remote) (adapter : Adapter) (path : jsstring)
    (r : Response) (file : GithubContent) : Prop :=
  answers R (contentsRequest adapter path) R r
  /\ payload r = PFile file /\ ci_sha file <> [].

(** The write of a body at a path. *)
Definition putRequest (adapter : Adapter) (path : jsstring) (body : WriteBody)
  : Request :=
  requestOf adapter (contentsEndpoint (ownerOf adapter) (repoNameOf adapter) path)
    {| init_method := Some PUT; init_body := Some body |}.

(** The backend compares and swaps at a path whose current hash is
    [current] ([None] when there is no file): a [PUT] on the path that
    carries a hash is accepted when the hash is the current one, and is
    refused with status 409, the remote state unchanged, when it is not. *)
Definition comparesAndSwaps (R : Remote) (adapter : Adapter) (path : jsstring)
    (current : option jsstring) : Prop :=
  forall body hash,
    wb_sha body = Some hash ->
    exists R' r,
      serve R (putRequest adapter path body) = (R', Responded r)
      /\ (current = Some hash -> ok r = true /\ payload r <> PNotJson)
      /\ (current <> Some hash -> status r = 409 /\ R' = R).

End RequestsOf.

Section ScanNotions.
Context `{JsRuntime}.

(** A path may be listed when it is the root or the path of a directory
    entry, of a name outside the ignore set, that a listing returned. *)
Definition reached (seen : list (jsstring * Result (list ContentInfo)))
    (p : jsstring) : Prop :=
  p = []
  \/ exists parent contents dir,
       In (parent, Ok contents) seen /\ In dir contents
       /\ ci_type dir = js "dir" /\ ci_path dir = p
       /\ ~ In (toLowerCase (ci_name dir)) BaseGitService.ignoredDirs.

(** A directory is a hit when its own listing holds a matching file. *)
Definition hit (fileCheck : jsstring -> bool)
    (seen : list (jsstring * Result (list ContentInfo))) (p : jsstring) : Prop :=
  exists contents file,
    In (p, Ok contents) seen /\ In file contents
    /\ ci_type file = js "file" /\ fileCheck (ci_name file) = true.

(** The invariant of a scan. *)
Record goodScan (fileCheck : jsstring -> bool) (st : BaseGitService.ScanState)
  : Prop := {
  found_not_root : forall p, In p (BaseGitService.foundDirs st) -> p <> [];
  found_hit : forall p, In p (BaseGitService.foundDirs st) ->
                        hit fileCheck (BaseGitService.listings st) p;
  listed_reached : forall p r, In (p, r) (BaseGitService.listings st) ->
                               reached (BaseGitService.listings st) p
}.

Definition grows (st st' : BaseGitService.ScanState) : Prop :=
  exists more, BaseGitService.listings st' = BaseGitService.listings st ++ more.

End ScanNotions.

(** A Unicode scalar value, a byte and a six-bit value. *)
Definition isScalar (cp : Z) : Prop :=
  0 <= cp <= 1114111 /\ ~ (55296 <= cp <= 57343).

Definition isByte (b : Z) : Prop := 0 <= b <= 255.

Definition isSextet (v : Z) : Prop := 0 <= v <= 63.

Section OnTheReferenceBackend.
Existing Instance RefBackend.backend.

(** The reference backend holds the repository of a GitHub adapter object
    and accepts its token. *)
Definition servesGithub (st : RefBackend.State) (this : GithubAdapter.t) : Prop :=
  RefBackend.api st = GithubService.API_BASE_URL
  /\ RefBackend.credentials st = js "token " ++ GithubAdapter.token this
  /\ repo_owner (RefBackend.repository st) = GithubAdapter.owner this
  /\ repo_name (RefBackend.repository st) = GithubAdapter.repoName this.




End OnTheReferenceBackend.

(** ** Example repositories *)

Module Examples.

Definition stored (p c : string) : RefBackend.StoredFile :=
  {| RefBackend.sf_path := js p;
     RefBackend.sf_sha := RefBackend.hashOf (js c);
     RefBackend.sf_content := js c |}.

Definition site : GithubRepo :=
  {| repo_name := js "site"; repo_owner := js "ann"; repo_private := false;
     default_branch := js "main"; repo_push := true |}.

(** A blog: a post, a post in a subdirectory, Git metadata, two images. *)
Definition blog : RefBackend.State :=
  {| RefBackend.api := GithubService.API_BASE_URL;
     RefBackend.credentials := js "token s3cret";
     RefBackend.repository := site;
     RefBackend.files :=
       [stored "posts/a.md" "QQ=="; stored "posts/sub/b.md" "Qg==";
        stored ".git/config" "Qw=="; stored "public/images/x.png" "AA==";
        stored "img/y.PNG" "AA=="];
     RefBackend.treeLimit := 100 |}.

(** The same blog behind a backend whose tree responses hold two entries. *)
Definition crowded : RefBackend.State :=
  {| RefBackend.api := RefBackend.api blog;
     RefBackend.credentials := RefBackend.credentials blog;
     RefBackend.repository := site;
     RefBackend.files := RefBackend.files blog;
     RefBackend.treeLimit := 2 |}.

(** A repository whose only Markdown file is two levels down. *)
Definition nested : RefBackend.State :=
  {| RefBackend.api := GithubService.API_BASE_URL;
     RefBackend.credentials := js "token s3cret";
     RefBackend.repository := site;
     RefBackend.files :=
       [stored "docs/deep/x.md" "QQ=="; stored "README.md" "Qg==";
        stored "node_modules/pkg/readme.md" "Qw=="];
     RefBackend.treeLimit := 100 |}.

(** A file stored with the transport encoding of a text. *)
Definition storedText (p : string) (text : jsstring) : RefBackend.StoredFile :=
  let encoded :=
    match Encoding.base64Encode text with
    | Ok c => c
    | Err _ => []
    end in
  {| RefBackend.sf_path := js p;
     RefBackend.sf_sha := RefBackend.hashOf encoded;
     RefBackend.sf_content := encoded |}.

(** A site with an Astro configuration and a package manifest. *)
Definition configured : RefBackend.State :=
  {| RefBackend.api := GithubService.API_BASE_URL;
     RefBackend.credentials := js "token s3cret";
     RefBackend.repository := site;
     RefBackend.files :=
       [storedText "package.json" TestRuntime.manifest;
        storedText "astro.config.ts"
          (js "export default { site: 'https://example.org/' }");
        storedText "src/pages/index.md" (js "# Home")];
     RefBackend.treeLimit := 100 |}.

Definition ann : GithubAdapter.t :=
  GithubAdapter.new (js "s3cret") (js "ann") (js "site").

(** Configuration files as a reader finds them. *)
Definition configFiles (p : jsstring) : Result jsstring :=
  if JsString.eqb p (js "astro.config.ts")
  then Ok (js "export default { site: 'https://example.org/' }")
  else if JsString.eqb p (js "src/config.yml")
  then Ok (js "url: https://example.net")
  else if JsString.eqb p (js "package.json")
  then Ok TestRuntime.manifest
  else Err (HttpError (js "GitHub API Error: ") 404 (js "Not Found") (js "Not Found")).

(** A reader that finds only the package manifest. *)
Definition manifestOnly (p : jsstring) : Result jsstring :=
  if JsString.eqb p (js "package.json")
  then Ok TestRuntime.manifest
  else Err (HttpError (js "GitHub API Error: ") 404 (js "Not Found") (js "Not Found")).

Section Readers.
Context `{Backend}.

(** [getFileContent] over a reader: the world is left as it is. *)
Definition reading (read : jsstring -> Result jsstring) (p : jsstring) : M jsstring :=
  lift (read p).

End Readers.

End Examples.

From Stdlib Require Import Sorted.

(** ** The other methods of an adapter object *)

Section MethodsOf.
Context `{JsRuntime} `{Backend}.

(** The private method [makeRequest] of an adapter object. *)
Definition requestM (adapter : Adapter) (endpoint : jsstring)
    (options : RequestInit) : M Payload :=
  match adapter with
  | Github this => GithubAdapter.request this endpoint options
  | Gitea this => BaseGiteaAdapter.request this endpoint options
  end.

Definition getFileShaOf (adapter : Adapter) (path : jsstring) : M (option jsstring) :=
  match adapter with
  | Github this => GithubAdapter.getFileSha this path
  | Gitea this => BaseGiteaAdapter.getFileSha this path
  end.

Definition getFileContentOf (adapter : Adapter) (path : jsstring) : M jsstring :=
  match adapter with
  | Github this => GithubAdapter.getFileContent this path
  | Gitea this => BaseGiteaAdapter.getFileContent this path
  end.

Definition getFileAsBlobOf (adapter : Adapter) (path : jsstring) : M Blob :=
  match adapter with
  | Github this => GithubAdapter.getFileAsBlob this path
  | Gitea this => BaseGiteaAdapter.getFileAsBlob this path
  end.

Definition getRepoTreeOf (adapter : Adapter) (path : jsstring) : M (list RepoTreeInfo) :=
  match adapter with
  | Github this => GithubAdapter.getRepoTree this path
  | Gitea this => BaseGiteaAdapter.getRepoTree this path
  end.

Definition listFilesFastOf (adapter : Adapter) (path : jsstring)
  : M (list RepoTreeInfo) :=
  match adapter with
  | Github this => GithubAdapter.listFilesFast this path
  | Gitea this => BaseGiteaAdapter.listFilesFast this path
  end.

Definition uploadFileOf (adapter : Adapter) (path : jsstring) (file : File)
    (commitMessage : jsstring) (sha : option jsstring) : M Payload :=
  match adapter with
  | Github this => GithubAdapter.uploadFile this path file commitMessage sha
  | Gitea this => BaseGiteaAdapter.uploadFile this path file commitMessage sha
  end.

Definition createFileFromStringOf (adapter : Adapter)
    (path newContent commitMessage : jsstring) : M Payload :=
  match adapter with
  | Github this => GithubAdapter.createFileFromString this path newContent commitMessage
  | Gitea this => BaseGiteaAdapter.createFileFromString this path newContent commitMessage
  end.

Definition deleteFileOf (adapter : Adapter) (path sha commitMessage : jsstring)
  : M Payload :=
  match adapter with
  | Github this => GithubAdapter.deleteFile this path sha commitMessage
  | Gitea this => BaseGiteaAdapter.deleteFile this path sha commitMessage
  end.

(** The method an adapter creates a file with: GitHub has one verb for
    create and update, Gitea and Gogs create with [POST]. *)
Definition createMethod (adapter : Adapter) : Method :=
  match adapter with
  | Github _ => PUT
  | Gitea _ => POST
  end.

(** The text [getFileContent] fails with when there is nothing to decode. *)
Definition decodeFailure (adapter : Adapter) : jsstring :=
  match adapter with
  | Github _ => js "Could not decode file content."
  | Gitea _ => js "Could not decode file content from Gitea/Gogs."
  end.

(** The endpoint of the contents of a path, and a write on it. *)
Definition contentsEndpointOf (adapter : Adapter) (path : jsstring) : jsstring :=
  contentsEndpoint (ownerOf adapter) (repoNameOf adapter) path.

Definition writeOptions (method : Method) (body : WriteBody) : RequestInit :=
  {| init_method := Some method; init_body := Some body |}.

(** The operations that send one request and hand its answer on, with the
    request they send. *)
Definition soleRequest (adapter : Adapter) (op : Operation) : option Request :=
  match op with
  | GetRepoContents path => Some (contentsRequest adapter path)
  | GetFileContent path => Some (contentsRequest adapter path)
  | GetFileAsBlob path => Some (contentsRequest adapter path)
  | GetRepoTree path => Some (contentsRequest adapter path)
  | GetRepoDetails => Some (repoRequest adapter)
  | DeleteFile path sha commitMessage =>
      Some (requestOf adapter (contentsEndpointOf adapter path)
              (writeOptions DELETE
                 {| wb_message := commitMessage; wb_content := None;
                    wb_sha := Some sha |}))
  | _ => None
  end.

(** The error a refusal is thrown as: the prefix of the adapter, the
    status and its text, and the [message] of the error body (on Gitea and
    Gogs its [error] when there is no message), a fixed text standing in
    for a body that is not JSON. *)
Definition refusalDetail (adapter : Adapter) (body : Payload) : jsstring :=
  match adapter with
  | Github _ =>
      match body with
      | PNotJson => js "An unknown error occurred"
      | _ => orEmpty (orElse (messageOf body) None)
      end
  | Gitea _ =>
      match body with
      | PNotJson => js "An unknown Gitea/Gogs error occurred"
      | _ => orEmpty (orElse (messageOf body) (orElse (errorOf body) None))
      end
  end.

Definition refusalOf (adapter : Adapter) (r : Response) : JsError :=
  HttpError
    (match adapter with
     | Github _ => js "GitHub API Error: "
     | Gitea _ => js "API Error: "
     end)
    (status r) (statusText r) (refusalDetail adapter (payload r)).

End MethodsOf.

(** ** Orders and levels *)

Section Orders.
Context `{JsRuntime}.

(** The rank [sortPaths] gives: a path whose last name is preferred comes
    before one whose last name is not; among paths of the same kind the
    one of fewer segments comes first. *)
Definition isPreferred (preferredNames : list jsstring) (p : jsstring) : bool :=
  JsString.arrayIncludes preferredNames (BaseGitService.lastNameOf p).

Definition rankedBefore (preferredNames : list jsstring) (a b : jsstring) : Prop :=
  (isPreferred preferredNames a = true /\ isPreferred preferredNames b = false)
  \/ (isPreferred preferredNames a = isPreferred preferredNames b
      /\ BaseGitService.depthOf a <= BaseGitService.depthOf b).

(** No file before a directory. *)
Definition directoryFirst (a b : RepoTreeInfo) : Prop :=
  info_type b = js "dir" -> info_type a = js "dir".

(** A path is at level [k] of a scan when it is the root ([k = 0]) or the
    path of a directory entry of the listing of a path at level [k - 1]. *)
Fixpoint levelOf (seen : list (jsstring * Result (list ContentInfo)))
    (k : nat) (p : jsstring) : Prop :=
  match k with
  | O => p = []
  | S k' =>
      exists parent contents dir,
        In (parent, Ok contents) seen /\ In dir contents
        /\ ci_type dir = js "dir" /\ ci_path dir = p
        /\ levelOf seen k' parent
  end.

(** What a scan keeps besides [goodScan]: no directory is found twice and
    every listed path is at a level below the depth limit. *)
Definition boundedScan (maxDepth : nat) (st : BaseGitService.ScanState) : Prop :=
  NoDup (BaseGitService.foundDirs st)
  /\ forall p r, In (p, r) (BaseGitService.listings st) ->
       exists k, (k < maxDepth)%nat /\ levelOf (BaseGitService.listings st) k p.

(** A name [getRepoTree] leaves out. *)
Definition isIgnoredInTree (name : jsstring) : bool :=
  JsString.arrayIncludes BaseGitService.ignoredTreeDirs (toLowerCase name).

(** What [getRepoTree] makes of an entry of the listing: nothing for an
    ignored name, else an entry of the same name and path that is a
    directory when the entry is one and a file when it is not; only a
    directory is said to hold Markdown. *)
Definition entryFor (item : ContentInfo) (entry : option RepoTreeInfo) : Prop :=
  match entry with
  | None => isIgnoredInTree (ci_name item) = true
  | Some e =>
      isIgnoredInTree (ci_name item) = false
      /\ info_name e = ci_name item
      /\ info_path e = ci_path item
      /\ info_type e = (if BaseGitService.isDir item then js "dir" else js "file")
      /\ (info_hasMarkdown e = Some true -> BaseGitService.isDir item = true)
  end.

End Orders.

(** A transport text as a backend may send it: the base64 text with line
    breaks and other ASCII whitespace put in. *)
Definition wrappedAs (content text : jsstring) : Prop :=
  filter (fun c => negb (Encoding.isAsciiWhitespace c)) content = text.

(** The scalar values a text decoder hands out: a leading U+FEFF is
    dropped. *)
Definition withoutByteOrderMark (cps : list Z) : list Z :=
  match cps with
  | cp :: rest => if cp =? Encoding.byteOrderMark then rest else cp :: rest
  | [] => []
  end.

(** ** Further built-ins of strings and arrays *)

Module StringBuiltins.

(** The white space and line terminators of the language, which [trim]
    removes. *)
Definition isWhiteSpace (c : Z) : bool :=
  (c =? 9) || (c =? 10) || (c =? 11) || (c =? 12) || (c =? 13) || (c =? 32)
  || (c =? 160) || (c =? 5760) || Encoding.inRange 8192 8202 c
  || (c =? 8232) || (c =? 8233) || (c =? 8239) || (c =? 8287)
  || (c =? 12288) || (c =? 65279).

Fixpoint trimStart (s : jsstring) : jsstring :=
  match s with
  | c :: s' => if isWhiteSpace c then trimStart s' else s
  | [] => []
  end.

(** [s.trim()] *)
Definition trim (s : jsstring) : jsstring :=
  rev (trimStart (rev (trimStart s))).

(** [arr.join(sep)] for a separator of one code unit. *)
Fixpoint join (arr : list jsstring) (sep : Z) : jsstring :=
  match arr with
  | [] => []
  | [x] => x
  | x :: rest => x ++ sep :: join rest sep
  end.

End StringBuiltins.

(** ** [utils/image.ts] *)

Module ImageUtils.

Definition commonImageExtensions : list jsstring :=
  [js ".jpg"; js ".jpeg"; js ".png"; js ".gif"; js ".webp"; js ".svg";
   js ".bmp"; js ".ico"; js ".tiff"].

Definition isImageFile `{JsRuntime} (filename acceptedTypes : jsstring) : bool :=
  let lowerFilename := toLowerCase filename in
  if negb (JsString.truthy acceptedTypes)
     || JsString.eqb (StringBuiltins.trim acceptedTypes) []
     || JsString.eqb (StringBuiltins.trim acceptedTypes) (js "image/*")
  then existsb (fun ext => JsString.endsWith lowerFilename ext) commonImageExtensions
  else
    let allowedExtensions :=
      filter (fun t => JsString.startsWith t (js "."))
        (map (fun t => toLowerCase (StringBuiltins.trim t))
           (JsString.split acceptedTypes JsString.comma)) in
    if (List.length allowedExtensions =? 0)%nat
    then existsb (fun ext => JsString.endsWith lowerFilename ext) commonImageExtensions
    else existsb (fun ext => JsString.endsWith lowerFilename ext) allowedExtensions.

End ImageUtils.

(** ** [utils/parsing.ts]: [escapeRegExp] *)

Module Parsing.

Definition backslash : Z := 92.

(** The class of the pattern of [escapeRegExp]: the characters
    [. * + ? ^ $ { } ( ) | [ ] \], which are the syntax characters of the
    regular-expression grammar. *)
Definition isSyntaxCharacter (c : Z) : bool :=
  existsb (Z.eqb c) [46; 42; 43; 63; 94; 36; 123; 125; 40; 41; 124; 91; 93; 92].

(** [str.replace(/[.*+?^${}()|[\]\\]/g, '\\$&')]: a backslash is put before
    each character of the class. *)
Definition escapeRegExp (str : jsstring) : jsstring :=
  flat_map (fun c => if isSyntaxCharacter c then [backslash; c] else [c]) str.

(** The text a pattern spells when it is built from pattern characters
    (anything but a syntax character, matching itself) and identity
    escapes of syntax characters (a backslash and the character, matching
    the character) only; [None] for a pattern that uses anything else of
    the grammar. *)
Fixpoint literalOf (pattern : jsstring) : option jsstring :=
  match pattern with
  | [] => Some []
  | c :: rest =>
      if c =? backslash then
        match rest with
        | d :: rest' =>
            if isSyntaxCharacter d
            then option_map (cons d) (literalOf rest')
            else None
        | [] => None
        end
      else if isSyntaxCharacter c then None
      else option_map (cons c) (literalOf rest)
  end.

End Parsing.

(** ** [components/DirectoryPicker.tsx]: the path the picker shows *)

Module DirectoryPicker.

(** [handleItemClick] and [goUp] as steps on the state [currentPath]. *)
Definition handleItemClick (item : GithubContent) (currentPath : jsstring)
  : jsstring :=
  if BaseGitService.isDir item then ci_path item else currentPath.

Definition goUp (currentPath : jsstring) : jsstring :=
  if JsString.eqb currentPath [] then currentPath
  else
    let parts := filter JsString.truthy (JsString.split currentPath JsString.slash) in
    StringBuiltins.join (removelast parts) JsString.slash.

(** The path of an entry [name] of the directory [parent], as the
    backends give it. *)
Definition childPath (parent name : jsstring) : jsstring :=
  if JsString.truthy parent then parent ++ JsString.slash :: name else name.

(** A path proper: no empty segment, so no leading, trailing or doubled
    slash; the root is the empty path. *)
Definition properPath (p : jsstring) : Prop :=
  p = [] \/ Forall (fun seg => seg <> []) (JsString.split p JsString.slash).

End DirectoryPicker.

(** ** More example repositories *)

Module MoreExamples.

(** A text stored with a line break inside its base64 text, an empty file
    and a picture. *)
Definition hello : RefBackend.StoredFile :=
  {| RefBackend.sf_path := js "notes/hello.md";
     RefBackend.sf_sha := js "sha:hello";
     RefBackend.sf_content := js "SGVs" ++ [10] ++ js "bG8=" |}.

Definition empty : RefBackend.StoredFile :=
  {| RefBackend.sf_path := js "notes/empty.md";
     RefBackend.sf_sha := js "sha:empty";
     RefBackend.sf_content := [] |}.

Definition dot : RefBackend.StoredFile :=
  {| RefBackend.sf_path := js "notes/dot.PNG";
     RefBackend.sf_sha := js "sha:dot";
     RefBackend.sf_content := js "iVBO" ++ [13; 10] ++ js "Rw==" |}.

Definition notes : RefBackend.State :=
  {| RefBackend.api := GithubService.API_BASE_URL;
     RefBackend.credentials := js "token s3cret";
     RefBackend.repository := Examples.site;
     RefBackend.files := [hello; empty; dot];
     RefBackend.treeLimit := 100 |}.

(** The answer of the reference backend for a stored file. *)
Definition fileAnswer (f : RefBackend.StoredFile) : Response :=
  {| status := 200; statusText := js "OK";
     payload := PFile (RefBackend.fileObject f) |}.

End MoreExamples.

(** A backend that is out of order: it answers every request with status
    500 and a text that happens to hold the digits 404. *)
Module Broken.

Definition answer : Response :=
  {| status := 500; statusText := js "Upstream 404";
     payload := PMessage (Some (js "try again")) None |}.

Definition backend : Backend :=
  {| Remote := unit; serve := fun st req => (st, Responded answer) |}.

Definition fresh : @World backend :=
  @Build_World backend tt [] [] [].

(** The same with a text that holds no such digits. *)
Definition plainAnswer : Response :=
  {| status := 500; statusText := js "Internal Server Error";
     payload := PMessage (Some (js "try again")) None |}.

Definition plainBackend : Backend :=
  {| Remote := unit; serve := fun st req => (st, Responded plainAnswer) |}.

Definition plainFresh : @World plainBackend :=
  @Build_World plainBackend tt [] [] [].

End Broken.

(** A repository with a picture in [public/images] and one in a directory
    that differs from it by case only. *)
Module CaseVariants.

Definition repository : RefBackend.State :=
  {| RefBackend.api := GithubService.API_BASE_URL;
     RefBackend.credentials := js "token s3cret";
     RefBackend.repository := Examples.site;
     RefBackend.files :=
       [Examples.stored "public/images/a.png" "AA==";
        Examples.stored "Public/Images/b.png" "AA=="];
     RefBackend.treeLimit := 100 |}.

End CaseVariants.

Module Uploads.

(** A small text file as [FileReader.readAsDataURL] reads it. *)
Definition greeting : File :=
  {| readAsDataURL := Ok (js "data:text/plain;base64" ++ JsString.comma :: js "SGk=") |}.

Definition notFound : Response :=
  {| status := 404; statusText := js "Not Found";
     payload := PMessage (Some (js "Not Found")) None |}.

End Uploads.

Module Deep.

(** A repository with Markdown three and four directories down. *)
Definition repository : RefBackend.State :=
  {| RefBackend.api := GithubService.API_BASE_URL;
     RefBackend.credentials := js "token s3cret";
     RefBackend.repository := Examples.site;
     RefBackend.files :=
       [Examples.stored "a/b/c/x.md" "QQ==";
        Examples.stored "a/b/c/d/y.md" "Qg=="];
     RefBackend.treeLimit := 100 |}.

End Deep.

(** ** The production URL as the contract words it

    Written from the contract, not from the code: the sources of a
    production URL in their priority order, what each of them declares, and
    the first URL found, its trailing slash stripped. *)

Module UrlContract.

(** Where a production URL may stand: a configuration file of the site,
    read in the syntax that goes with it, or the homepage of the package
    manifest. *)
Inductive Source :=
| ConfigFile (path : jsstring) (syntax : RegExp)
| ManifestHomepage.

(** The sources in priority order: the Astro configuration files, then the
    YAML, TypeScript and JavaScript configuration files, then the
    manifest. *)
Definition sources : list Source :=
  [ConfigFile (js "astro.config.mjs") jsSiteRegex;
   ConfigFile (js "astro.config.ts") jsSiteRegex;
   ConfigFile (js "astro.config.js") jsSiteRegex;
   ConfigFile (js "src/config.yaml") yamlSiteRegex;
   ConfigFile (js "src/config.yml") yamlSiteRegex;
   ConfigFile (js "src/config.ts") jsSiteRegex;
   ConfigFile (js "src/config.js") jsSiteRegex;
   ManifestHomepage].

(** A text with its trailing slash stripped: the text up to a slash that
    ends it. *)
Fixpoint withoutTrailingSlash (s : jsstring) : jsstring :=
  match s with
  | [] => []
  | c :: rest =>
      match rest with
      | [] => if c =? JsString.slash then [] else [c]
      | _ :: _ => c :: withoutTrailingSlash rest
      end
  end.

Section Reading.
Context `{JsRuntime}.

(** The URL a configuration text declares: what the regular expression
    of its syntax captures, when it matches and captures a text. *)
Definition declaredSite (content : jsstring) (syntax : RegExp) : option jsstring :=
  match String_match content syntax with
  | Some (_ :: url :: _) =>
      match url with
      | [] => None
      | _ :: _ => Some url
      end
  | _ => None
  end.

(** The URL a manifest declares: the [homepage] member of the object it
    parses to, when that is a string that starts with [http]. *)
Definition declaredHomepage (content : jsstring) : option jsstring :=
  match JSON_parse content with
  | Ok (JObject members) =>
      match lookupMember (js "homepage") members with
      | Some (JString homepage) =>
          if JsString.startsWith homepage (js "http") then Some homepage
          else None
      | _ => None
      end
  | _ => None
  end.

(** What a source yields, over what reading each file gives: the URL it
    declares, the trailing slash stripped; a file whose read fails is
    skipped. *)
Definition found (read : jsstring -> Result jsstring) (source : Source)
  : option jsstring :=
  match source with
  | ConfigFile path syntax =>
      match read path with
      | Ok content => option_map withoutTrailingSlash (declaredSite content syntax)
      | Err _ => None
      end
  | ManifestHomepage =>
      match read (js "package.json") with
      | Ok content => option_map withoutTrailingSlash (declaredHomepage content)
      | Err _ => None
      end
  end.

(** The first URL found in a list of sources taken in order; [None] is
    the explicit not-found. *)
Fixpoint firstFound (read : jsstring -> Result jsstring) (from : list Source)
  : option jsstring :=
  match from with
  | [] => None
  | source :: rest =>
      match found read source with
      | Some url => Some url
      | None => firstFound read rest
      end
  end.

Definition productionUrl (read : jsstring -> Result jsstring) : option jsstring :=
  firstFound read sources.

End Reading.

End UrlContract.

(** A repository that declares its URL in the package manifest only. *)
Module ManifestOnly.

Definition repository : RefBackend.State :=
  {| RefBackend.api := GithubService.API_BASE_URL;
     RefBackend.credentials := js "token s3cret";
     RefBackend.repository := Examples.site;
     RefBackend.files :=
       [Examples.storedText "package.json" TestRuntime.manifest;
        Examples.storedText "src/pages/index.md" (js "# Home")];
     RefBackend.treeLimit := 100 |}.

End ManifestOnly.

(** * Properties *)

(** ** The transport encoding *)

Module EncodingFacts.
Import Encoding.

Ltac Zify.zify_post_hook ::= Z.to_euclidean_division_equations.

Lemma inRange_true lo hi b : lo <= b <= hi -> inRange lo hi b = true.
Proof. unfold inRange. intros. apply andb_true_iff. split; apply Z.leb_le; lia. Qed.

Lemma inRange_false lo hi b : b < lo \/ hi < b -> inRange lo hi b = false.
Proof.
unfold inRange. intros [H | H].
- apply andb_false_iff. left. apply Z.leb_gt. lia.
- apply andb_false_iff. right. apply Z.leb_gt. lia.
Qed.

Lemma inRange_spec lo hi b : inRange lo hi b = true <-> lo <= b <= hi.
Proof. unfold inRange. rewrite andb_true_iff, !Z.leb_le. tauto. Qed.


Ltac range_true := rewrite inRange_true by lia.
Ltac range_false := rewrite inRange_false by lia.

Lemma utf8Decode_encode_one cp rest :
isScalar cp ->
utf8Decode (utf8EncodeCodePoint cp ++ rest) = cp :: utf8Decode rest.
Proof.
intros [Hr Hs]. unfold utf8EncodeCodePoint.
destruct (Z.ltb_spec cp 128).
{ cbn [app utf8Decode]. range_true. reflexivity. }
destruct (Z.ltb_spec cp 2048).
{ cbn [app utf8Decode]. range_false. range_true.
  unfold isContinuation. range_true. f_equal. lia. }
destruct (Z.ltb_spec cp 65536).
{ cbn [app utf8Decode]. range_false. range_false. range_true.
  unfold isContinuation.
  destruct (Z.eqb_spec (224 + cp / 4096) 224);
    destruct (Z.eqb_spec (224 + cp / 4096) 237);
    try lia; range_true; range_true; f_equal; lia. }
cbn [app utf8Decode]. do 3 range_false. range_true.
unfold isContinuation.
destruct (Z.eqb_spec (240 + cp / 262144) 240);
  destruct (Z.eqb_spec (240 + cp / 262144) 244);
  try lia; range_true; range_true; range_true; f_equal; lia.
Qed.

Lemma utf8Decode_encode cps :
Forall isScalar cps ->
utf8Decode (flat_map utf8EncodeCodePoint cps) = cps.
Proof.
induction 1 as [| cp cps Hcp _ IH]; [reflexivity |].
cbn [flat_map]. rewrite utf8Decode_encode_one by assumption. now rewrite IH.
Qed.

Lemma utf8Encode_bytes cp : isScalar cp -> Forall isByte (utf8EncodeCodePoint cp).
Proof.
intros [Hr Hs]. unfold utf8EncodeCodePoint, isByte.
destruct (Z.ltb_spec cp 128); [repeat constructor; lia |].
destruct (Z.ltb_spec cp 2048); [repeat constructor; lia |].
destruct (Z.ltb_spec cp 65536); repeat constructor; lia.
Qed.

Lemma flat_map_Forall {A B} (P : B -> Prop) (f : A -> list B) l :
Forall (fun a => Forall P (f a)) l -> Forall P (flat_map f l).
Proof.
induction 1; cbn; [constructor | apply Forall_app; auto].
Qed.

Lemma fromCodePoints_cons cp cps :
fromCodePoints (cp :: cps) = fromCodePoint cp ++ fromCodePoints cps.
Proof. reflexivity. Qed.

(** What a well-formed string becomes under [toScalarValues]: scalar values
  that spell the string back, and whose first one is U+FEFF only when the
  string starts with U+FEFF. *)
Lemma wellFormed_scalars_aux n : forall s,
(List.length s <= n)%nat -> wellFormed s = true ->
Forall isScalar (toScalarValues s)
/\ fromCodePoints (toScalarValues s) = s
/\ (hd 0 (toScalarValues s) = byteOrderMark -> hd 0 s = byteOrderMark).
Proof.
induction n as [| n IH]; intros s Hlen Hwf.
{ destruct s; [cbn; auto | cbn in Hlen; lia]. }
destruct s as [| c s]; [cbn; auto |].
cbn [wellFormed toScalarValues] in *.
destruct (isHighSurrogate c) eqn:Hhi.
- destruct s as [| d s]; [discriminate |].
  apply andb_true_iff in Hwf as [Hlo Hwf]. rewrite Hlo.
  destruct (IH s) as (IH1 & IH2 & _); [cbn in Hlen; lia | assumption |].
  apply inRange_spec in Hhi, Hlo.
  split; [| split].
  + constructor; [unfold isScalar; lia | assumption].
  + rewrite fromCodePoints_cons, IH2. unfold fromCodePoint.
    destruct (Z.ltb_spec (65536 + (c - 55296) * 1024 + (d - 56320)) 65536);
      [lia |].
    cbn [app]. f_equal; [lia | f_equal; lia].
  + cbn [hd]. unfold byteOrderMark. lia.
- apply andb_true_iff in Hwf as [Hwf Hrest].
  apply andb_true_iff in Hwf as [Hcu Hnlo].
  apply negb_true_iff in Hnlo. rewrite Hnlo.
  destruct (IH s) as (IH1 & IH2 & _); [cbn in Hlen; lia | assumption |].
  assert (Hc : isScalar c).
  { unfold isScalar. apply inRange_spec in Hcu.
    unfold isHighSurrogate, isLowSurrogate in *. fold (inRange 55296 56319 c) in Hhi.
    fold (inRange 56320 57343 c) in Hnlo.
    destruct (Z.le_gt_cases 55296 c), (Z.le_gt_cases c 57343); try lia.
    destruct (Z.le_gt_cases c 56319).
    - rewrite inRange_true in Hhi by lia. discriminate.
    - rewrite inRange_true in Hnlo by lia. discriminate. }
  split; [| split].
  + constructor; assumption.
  + rewrite fromCodePoints_cons, IH2. unfold fromCodePoint.
    apply inRange_spec in Hcu.
    destruct (Z.ltb_spec c 65536); [reflexivity | lia].
  + cbn [hd]. auto.
Qed.

Lemma wellFormed_scalars s :
wellFormed s = true ->
Forall isScalar (toScalarValues s)
/\ fromCodePoints (toScalarValues s) = s
/\ (hd 0 (toScalarValues s) = byteOrderMark -> hd 0 s = byteOrderMark).
Proof. apply (wellFormed_scalars_aux (List.length s)). lia. Qed.

(** Whatever the string, its scalar values are scalar values. *)
Lemma toScalarValues_scalar_aux n : forall s,
(List.length s <= n)%nat -> validString s -> Forall isScalar (toScalarValues s).
Proof.
assert (Hrep : isScalar replacementCharacter)
  by (unfold isScalar, replacementCharacter; lia).
induction n as [| n IH]; intros s Hlen Hv.
{ destruct s; [constructor | cbn in Hlen; lia]. }
destruct s as [| c s]; [constructor |].
inversion_clear Hv as [| ? ? Hc Hs]. cbn [toScalarValues].
assert (IHs : Forall isScalar (toScalarValues s))
  by (apply IH; [cbn in Hlen; lia | assumption]).
destruct (isHighSurrogate c) eqn:Hhi.
- destruct s as [| d s]; [constructor; [assumption | constructor] |].
  destruct (isLowSurrogate d) eqn:Hlo.
  + inversion_clear Hs as [| ? ? Hd Hs'].
    apply inRange_spec in Hhi, Hlo.
    constructor; [unfold isScalar; lia |].
    apply IH; [cbn in Hlen; lia | assumption].
  + constructor; assumption.
- destruct (isLowSurrogate c) eqn:Hlo; constructor; try assumption.
  unfold isScalar. split; [lia |]. intros Hsur.
  destruct (Z.le_gt_cases c 56319).
  + unfold isHighSurrogate in Hhi. fold (inRange 55296 56319 c) in Hhi.
    rewrite inRange_true in Hhi by lia. discriminate.
  + unfold isLowSurrogate in Hlo. fold (inRange 56320 57343 c) in Hlo.
    rewrite inRange_true in Hlo by lia. discriminate.
Qed.

Lemma toScalarValues_scalar s :
validString s -> Forall isScalar (toScalarValues s).
Proof. apply (toScalarValues_scalar_aux (List.length s)). lia. Qed.

Lemma TextEncoder_bytes_valid s :
validString s -> Forall isByte (TextEncoder_encode s).
Proof.
intros Hv. apply flat_map_Forall.
eapply Forall_impl; [| exact (toScalarValues_scalar s Hv)].
apply utf8Encode_bytes.
Qed.

Lemma TextEncoder_bytes s :
wellFormed s = true -> Forall isByte (TextEncoder_encode s).
Proof.
intros Hwf. apply flat_map_Forall.
destruct (wellFormed_scalars s Hwf) as (Hs & _).
eapply Forall_impl; [| exact Hs]. apply utf8Encode_bytes.
Qed.

(** *** Base64 *)

Lemma list_ind3 {A} (P : list A -> Prop) :
P [] -> (forall a, P [a]) -> (forall a b, P [a; b]) ->
(forall a b c l, P l -> P (a :: b :: c :: l)) ->
forall l, P l.
Proof.
intros H0 H1 H2 H3.
assert (H : forall l, P l /\ (forall a, P (a :: l)) /\ (forall a b, P (a :: b :: l))).
{ induction l as [| x l (IHa & IHb & IHc)]; auto. }
intro l. apply H.
Qed.

Lemma base64Value_Char v : 0 <= v <= 63 -> base64Value (base64Char v) = v.
Proof.
intros Hv. unfold base64Char.
destruct (Z.ltb_spec v 26).
{ unfold base64Value. range_true. lia. }
destruct (Z.ltb_spec v 52).
{ unfold base64Value. range_false. range_true. lia. }
destruct (Z.ltb_spec v 62).
{ unfold base64Value. range_false. range_false. range_true. lia. }
destruct (Z.eqb_spec v 62).
{ subst. reflexivity. }
assert (v = 63) by lia. subst. reflexivity.
Qed.

Lemma isBase64Char_Char v : 0 <= v <= 63 -> isBase64Char (base64Char v) = true.
Proof.
intros Hv. unfold base64Char, isBase64Char.
destruct (Z.ltb_spec v 26); [range_true; reflexivity |].
destruct (Z.ltb_spec v 52); [range_false; range_true; reflexivity |].
destruct (Z.ltb_spec v 62); [do 2 range_false; range_true; reflexivity |].
destruct (Z.eqb_spec v 62); [reflexivity |].
rewrite !orb_true_r. reflexivity.
Qed.

Lemma isBase64Char_plain c :
isBase64Char c = true -> isAsciiWhitespace c = false /\ c <> equalsSign.
Proof.
unfold isBase64Char, isAsciiWhitespace, equalsSign. intros H.
repeat (apply orb_true_iff in H as [H | H]);
  try apply inRange_spec in H; try apply Z.eqb_eq in H;
  (split; [| lia]);
  repeat (apply orb_false_iff; split); apply Z.eqb_neq; lia.
Qed.


Lemma sextets_range bytes : Forall isByte bytes -> Forall isSextet (sextets bytes).
Proof.
induction bytes as [| a | a b | a b c l IH] using list_ind3; intros H;
  unfold isByte, isSextet in *.
- constructor.
- inversion_clear H. cbn. repeat constructor; lia.
- inversion_clear H as [| ? ? Ha H']. inversion_clear H'.
  cbn. repeat constructor; lia.
- inversion_clear H as [| ? ? Ha H']. inversion_clear H' as [| ? ? Hb H''].
  inversion_clear H'' as [| ? ? Hc Hl].
  cbn [sextets]. repeat constructor; try lia. apply IH, Hl.
Qed.

Lemma unsextets_sextets bytes : Forall isByte bytes -> unsextets (sextets bytes) = bytes.
Proof.
induction bytes as [| a | a b | a b c l IH] using list_ind3; intros H;
  unfold isByte in *.
- reflexivity.
- inversion_clear H. cbn. f_equal. lia.
- inversion_clear H as [| ? ? Ha H']. inversion_clear H'.
  cbn. f_equal; [lia | f_equal; lia].
- inversion_clear H as [| ? ? Ha H']. inversion_clear H' as [| ? ? Hb H''].
  inversion_clear H'' as [| ? ? Hc Hl].
  cbn [sextets unsextets]. rewrite (IH Hl).
  f_equal; [lia | f_equal; [lia | f_equal; lia]].
Qed.

(** The length of the encoded text, with its padding, by the number of bytes
  modulo three. *)
Lemma sextets_length bytes :
(Z.of_nat (List.length bytes) mod 3 = 0 /\ padding bytes = []
   /\ Z.of_nat (List.length (sextets bytes)) mod 4 = 0)
\/ (Z.of_nat (List.length bytes) mod 3 = 1
   /\ padding bytes = [equalsSign; equalsSign]
   /\ Z.of_nat (List.length (sextets bytes)) mod 4 = 2)
\/ (Z.of_nat (List.length bytes) mod 3 = 2 /\ padding bytes = [equalsSign]
   /\ Z.of_nat (List.length (sextets bytes)) mod 4 = 3).
Proof.
induction bytes as [| a | a b | a b c l IH] using list_ind3.
- left. repeat split; reflexivity.
- right. left. repeat split; reflexivity.
- right. right. repeat split; reflexivity.
- assert (E3 : Z.of_nat (List.length (a :: b :: c :: l)) mod 3
               = Z.of_nat (List.length l) mod 3).
  { cbn [List.length]. lia. }
  assert (E4 : Z.of_nat (List.length (sextets (a :: b :: c :: l))) mod 4
               = Z.of_nat (List.length (sextets l)) mod 4).
  { cbn [sextets List.length]. lia. }
  unfold padding in *. rewrite E3, E4. exact IH.
Qed.

Lemma stripPadding_encoded text pad :
Forall (fun c => c <> equalsSign) text ->
pad = [] \/ pad = [equalsSign] \/ pad = [equalsSign; equalsSign] ->
stripPadding (text ++ pad) = text.
Proof.
intros Htext Hpad. unfold stripPadding. rewrite rev_app_distr.
assert (Hhd : forall c r, rev text = c :: r -> (c =? equalsSign) = false).
{ intros c r E. apply Z.eqb_neq.
  apply (proj1 (Forall_forall _ _) Htext). apply in_rev. rewrite E. now left. }
destruct Hpad as [-> | [-> | ->]]; cbn [rev app].
- destruct (rev text) as [| c r] eqn:E.
  + now rewrite app_nil_r.
  + rewrite (Hhd c r eq_refl). now rewrite app_nil_r.
- change (equalsSign =? equalsSign) with true. cbn match.
  destruct (rev text) as [| c r] eqn:E.
  + rewrite <- E. apply rev_involutive.
  + rewrite (Hhd c r eq_refl). rewrite <- E. apply rev_involutive.
- change (equalsSign =? equalsSign) with true. cbn match.
  apply rev_involutive.
Qed.

Lemma filter_all {A} (f : A -> bool) l :
Forall (fun x => f x = true) l -> filter f l = l.
Proof.
induction 1 as [| x l Hx _ IH]; cbn; [reflexivity |]. now rewrite Hx, IH.
Qed.

Lemma atob_btoa binary :
Forall isByte binary -> exists text, btoa binary = Ok text /\ atob text = Ok binary.
Proof.
intros Hb. unfold btoa.
assert (Hall : forallb (inRange 0 255) binary = true).
{ apply forallb_forall. intros x Hx. apply inRange_true.
  apply (proj1 (Forall_forall _ _) Hb x Hx). }
rewrite Hall. eexists. split; [reflexivity |].
pose proof (sextets_range binary Hb) as Hsx.
set (text := map base64Char (sextets binary)).
assert (Hchars : Forall (fun c => isBase64Char c = true) text).
{ unfold text. apply Forall_map. eapply Forall_impl; [| exact Hsx].
  intros v Hv. now apply isBase64Char_Char. }
assert (Hne : Forall (fun c => c <> equalsSign) text).
{ eapply Forall_impl; [| exact Hchars]. intros c Hc. now apply isBase64Char_plain. }
assert (Hpadshape : padding binary = [] \/ padding binary = [equalsSign]
                    \/ padding binary = [equalsSign; equalsSign]).
{ destruct (sextets_length binary) as [(_ & E & _) | [(_ & E & _) | (_ & E & _)]];
    rewrite E; auto. }
assert (Hws : Forall (fun c => negb (isAsciiWhitespace c) = true) (text ++ padding binary)).
{ apply Forall_app. split.
  - eapply Forall_impl; [| exact Hchars]. intros c Hc.
    apply isBase64Char_plain in Hc as [-> _]. reflexivity.
  - destruct Hpadshape as [-> | [-> | ->]]; repeat constructor. }
unfold atob. rewrite (filter_all _ _ Hws).
assert (Hlen : Z.of_nat (List.length (text ++ padding binary)) mod 4 = 0).
{ rewrite length_app. unfold text. rewrite length_map.
  destruct (sextets_length binary) as [(_ & E & L) | [(_ & E & L) | (_ & E & L)]];
    rewrite E; cbn [List.length]; lia. }
rewrite Hlen. change (0 =? 0) with true. cbn match.
rewrite (stripPadding_encoded text _ Hne Hpadshape).
assert (Hlen1 : (Z.of_nat (List.length text) mod 4 =? 1) = false).
{ apply Z.eqb_neq. unfold text. rewrite length_map.
  destruct (sextets_length binary) as [(_ & _ & L) | [(_ & _ & L) | (_ & _ & L)]];
    rewrite L; lia. }
rewrite Hlen1.
assert (Hfa : forallb isBase64Char text = true).
{ apply forallb_forall. apply Forall_forall. exact Hchars. }
rewrite Hfa. cbn [negb]. f_equal.
unfold text. rewrite map_map.
rewrite (map_ext_in _ (fun v => v)).
- rewrite map_id. now apply unsextets_sextets.
- intros v Hv. apply base64Value_Char.
  apply (proj1 (Forall_forall _ _) Hsx v Hv).
Qed.

Lemma map_id_on {A} (f : A -> A) (P : A -> Prop) l :
(forall x, P x -> f x = x) -> Forall P l -> map f l = l.
Proof. intros Hf. induction 1; cbn; [reflexivity |]. now rewrite Hf, IHForall. Qed.

(** [base64Encode] never throws. *)
Lemma base64Encode_total s :
validString s -> exists content, base64Encode s = Ok content.
Proof.
intros Hv. pose proof (TextEncoder_bytes_valid s Hv) as Hbytes.
unfold base64Encode.
rewrite (map_id_on fromCharCode isByte) by
  (auto; unfold fromCharCode, isByte; intros; lia).
destruct (atob_btoa _ Hbytes) as (text & Hen & _). now exists text.
Qed.

End EncodingFacts.

(** ** Strings *)

Module JsStringFacts.
Import JsString.

Lemma eqb_eq a : forall b, eqb a b = true <-> a = b.
Proof.
  induction a as [| x a IH]; intros [| y b]; cbn; split; intros E;
    try reflexivity; try discriminate.
  - apply andb_true_iff in E as [E1 E2]. apply Z.eqb_eq in E1.
    apply IH in E2. now subst.
  - injection E as -> ->. rewrite Z.eqb_refl. cbn. now apply IH.
Qed.

Lemma eqb_refl a : eqb a a = true.
Proof. now apply eqb_eq. Qed.

Lemma eqb_neq a b : eqb a b = false <-> a <> b.
Proof.
  split.
  - intros E Heq. apply eqb_eq in Heq. congruence.
  - intros Hne. destruct (eqb a b) eqn:E; [| reflexivity].
    apply eqb_eq in E. contradiction.
Qed.

Lemma truthy_spec s : truthy s = true <-> s <> [].
Proof. destruct s; cbn; split; intros; congruence. Qed.

Lemma arrayIncludes_spec arr x : arrayIncludes arr x = true <-> In x arr.
Proof.
  unfold arrayIncludes. rewrite existsb_exists. split.
  - intros (y & Hy & E). apply eqb_eq in E. now subst.
  - intros Hin. exists x. split; [assumption | apply eqb_refl].
Qed.

Lemma startsWith_app p : forall s, startsWith (p ++ s) p = true.
Proof.
  induction p as [| y p IH]; intros s; [now destruct s |].
  cbn. now rewrite Z.eqb_refl, IH.
Qed.

Lemma startsWith_spec p : forall s,
  startsWith s p = true <-> exists rest, s = p ++ rest.
Proof.
  induction p as [| y p IH]; intros s.
  - cbn. split; [intros _; now exists s | reflexivity].
  - destruct s as [| x s]; cbn.
    + split; [discriminate | intros (rest & E); discriminate].
    + rewrite andb_true_iff, Z.eqb_eq, IH. split.
      * intros (-> & rest & ->). now exists rest.
      * intros (rest & E). injection E as -> ->. split; [reflexivity | now exists rest].
Qed.

(** A literal of the source is a JavaScript string. *)
Lemma validString_js (s : string) : validString (js s).
Proof.
  unfold validString, js. induction s as [| a s IH]; cbn; constructor.
  - pose proof (N_ascii_bounded a). lia.
  - exact IH.
Qed.

End JsStringFacts.

(** ** The monad of operations *)

Section MonadFacts.
Context `{JsRuntime} `{Backend}.

Lemma extends_refl w : extends w w [] [].
Proof. unfold extends. now rewrite !app_nil_r. Qed.

Lemma extends_trans w1 w2 w3 x1 d1 x2 d2 :
  extends w1 w2 x1 d1 -> extends w2 w3 x2 d2 ->
  extends w1 w3 (x1 ++ x2) (d1 ++ d2).
Proof.
  unfold extends. intros [T1 E1] [T2 E2]. rewrite T2, T1, E2, E1.
  now rewrite !app_assoc.
Qed.

(** Two successive stretches of an operation that signal make one that
    signals. *)
Lemma signals_step w1 w2 w3 :
  (exists x d, extends w1 w2 x d
     /\ List.length (filter isAuthFailure x) = List.length d
     /\ Forall (fun e => isAuthError e = true) d) ->
  (exists x d, extends w2 w3 x d
     /\ List.length (filter isAuthFailure x) = List.length d
     /\ Forall (fun e => isAuthError e = true) d) ->
  exists x d, extends w1 w3 x d
     /\ List.length (filter isAuthFailure x) = List.length d
     /\ Forall (fun e => isAuthError e = true) d.
Proof.
  intros (x1 & d1 & E1 & L1 & F1) (x2 & d2 & E2 & L2 & F2).
  exists (x1 ++ x2), (d1 ++ d2). split; [| split].
  - eapply extends_trans; eassumption.
  - rewrite filter_app, !length_app. lia.
  - apply Forall_app. now split.
Qed.

Lemma signals_here w :
  exists x d, extends w w x d
     /\ List.length (filter isAuthFailure x) = List.length d
     /\ Forall (fun e => isAuthError e = true) d.
Proof. exists [], []. split; [apply extends_refl | split; [reflexivity | constructor]]. Qed.

Lemma signals_ret {A} (a : A) : signals (ret a).
Proof. intros w. apply signals_here. Qed.

Lemma signals_throw {A} e : signals (@throw _ A e).
Proof. intros w. apply signals_here. Qed.

Lemma signals_lift {A} (r : Result A) : signals (lift r).
Proof. intros w. apply signals_here. Qed.

Lemma signals_consoleLog level text : signals (consoleLog level text).
Proof.
  intros w. exists [], []. cbn. split; [| split; [reflexivity | constructor]].
  unfold extends. cbn. now rewrite !app_nil_r.
Qed.

Lemma signals_bind {A B} (m : M A) (k : A -> M B) :
  signals m -> (forall a, signals (k a)) -> signals (bind m k).
Proof.
  intros Hm Hk w. unfold bind. specialize (Hm w).
  destruct (m w) as [[a | e] w1]; cbn [snd] in *; [| exact Hm].
  eapply signals_step; [exact Hm | apply Hk].
Qed.

Lemma signals_tryCatch {A} (m : M A) (handler : JsError -> M A) :
  signals m -> (forall e, signals (handler e)) -> signals (tryCatch m handler).
Proof.
  intros Hm Hh w. unfold tryCatch. specialize (Hm w).
  destruct (m w) as [[a | e] w1]; cbn [snd] in *; [exact Hm |].
  eapply signals_step; [exact Hm | apply Hh].
Qed.

Lemma signals_forEachM {A S} (items : list A) (step : A -> S -> M S) :
  (forall item s, signals (step item s)) ->
  forall s, signals (forEachM items step s).
Proof.
  intros Hstep. induction items as [| item rest IH]; intros s; cbn [forEachM].
  - apply signals_ret.
  - apply signals_bind; [apply Hstep | exact IH].
Qed.

Lemma signals_mapM {A B} (f : A -> M B) (items : list A) :
  (forall item, signals (f item)) -> signals (mapM f items).
Proof.
  intros Hf. induction items as [| item rest IH]; cbn [mapM].
  - apply signals_ret.
  - apply signals_bind; [apply Hf | intros b].
    apply signals_bind; [exact IH | intros bs; apply signals_ret].
Qed.

Lemma signals_settle {A} (m : M A) : signals m -> signals (settle m).
Proof. intros Hm. apply signals_bind; [exact Hm | intros; apply signals_ret]. Qed.

(** The two request functions: the one place where a response is looked
    at, and where [auth-error] is dispatched. *)
Lemma signals_fetch_401 {A} (req : Request) (k : Response -> M A) :
  (forall r, status r = 401 ->
             k r = (dispatchEvent (js "auth-error") ;;; throw Unauthorized)) ->
  (forall r, status r <> 401 -> signals (k r)) ->
  (forall r, status r <> 401 -> forall w, snd (k r w) = w) ->
  signals (bind (fetch req) k).
Proof.
  intros H401 Hother Hsame w. unfold bind, fetch.
  destruct (serve (remote w) req) as [remote' answer].
  destruct answer as [r |]; cbn [snd].
  - destruct (Z.eq_dec (status r) 401) as [E | NE].
    + rewrite (H401 r E). cbn.
      exists [(req, Responded r)], [js "auth-error"]. split; [| split].
      * split; reflexivity.
      * cbn. unfold isAuthFailure. cbn. rewrite E. reflexivity.
      * repeat constructor.
    + rewrite (Hsame r NE).
      exists [(req, Responded r)], []. split; [| split].
      * split; cbn; [reflexivity | now rewrite app_nil_r].
      * cbn. unfold isAuthFailure. cbn.
        apply Z.eqb_neq in NE. now rewrite NE.
      * constructor.
  - exists [(req, Rejected)], []. split; [| split].
    + split; cbn; [reflexivity | now rewrite app_nil_r].
    + reflexivity.
    + constructor.
Qed.

Lemma signals_makeRequest endpoint token options :
  signals (GithubService.makeRequest endpoint token options).
Proof.
  unfold GithubService.makeRequest. apply signals_fetch_401.
  - intros r E. apply Z.eqb_eq in E. now rewrite E.
  - intros r NE. apply Z.eqb_neq in NE. rewrite NE.
    destruct (negb (ok r)); [apply signals_throw |].
    destruct (_ || _); [apply signals_ret |].
    destruct (payload r); first [apply signals_ret | apply signals_throw].
  - intros r NE w. apply Z.eqb_neq in NE. rewrite NE.
    destruct (negb (ok r)); [reflexivity |].
    destruct (_ || _); [reflexivity |].
    destruct (payload r); reflexivity.
Qed.

Lemma signals_makeGiteaRequest endpoint token baseUrl options :
  signals (BaseGiteaService.makeGiteaRequest endpoint token baseUrl options).
Proof.
  unfold BaseGiteaService.makeGiteaRequest. apply signals_fetch_401.
  - intros r E. apply Z.eqb_eq in E. now rewrite E.
  - intros r NE. apply Z.eqb_neq in NE. rewrite NE.
    destruct (negb (ok r)); [apply signals_throw |].
    destruct (_ || _); [apply signals_ret |].
    destruct (payload r); first [apply signals_ret | apply signals_throw].
  - intros r NE w. apply Z.eqb_neq in NE. rewrite NE.
    destruct (negb (ok r)); [reflexivity |].
    destruct (_ || _); [reflexivity |].
    destruct (payload r); reflexivity.
Qed.

End MonadFacts.

(** ** Authentication failures are signalled *)

Ltac signalling :=
  repeat first
    [ assumption
    | apply signals_ret | apply signals_throw | apply signals_lift
    | apply signals_consoleLog
    | apply signals_makeRequest | apply signals_makeGiteaRequest
    | apply signals_settle
    | apply signals_bind; [| intros]
    | apply signals_tryCatch; [| intros]
    | apply signals_mapM; intros
    | apply signals_forEachM; intros
    | match goal with
      | |- signals (if ?b then _ else _) => destruct b
      | |- signals (match ?x with _ => _ end) => destruct x
      | |- signals (let (_, _) := ?x in _) => destruct x
      end ].

Section BaseSignals.
Context `{JsRuntime} `{Backend}.
Variable getRepoContents : jsstring -> M (list ContentInfo).
Variable getFileContent : jsstring -> M jsstring.
Hypothesis getRepoContents_signals : forall p, signals (getRepoContents p).
Hypothesis getFileContent_signals : forall p, signals (getFileContent p).

Lemma signals_base_listFiles p :
  signals (BaseGitService.listFiles getRepoContents p).
Proof.
  unfold BaseGitService.listFiles. signalling. apply getRepoContents_signals.
Qed.

Lemma signals_scanDirectoryGenericFuel fuel :
  forall p depth maxDepth fileCheck st,
    signals (BaseGitService.scanDirectoryGenericFuel getRepoContents fuel p depth
               maxDepth fileCheck st).
Proof.
  induction fuel as [| fuel IH]; intros; cbn [BaseGitService.scanDirectoryGenericFuel].
  - apply signals_ret.
  - signalling; [apply getRepoContents_signals | apply IH].
Qed.

Lemma signals_scanForContentDirectories :
  signals (BaseGitService.scanForContentDirectories getRepoContents).
Proof.
  unfold BaseGitService.scanForContentDirectories, BaseGitService.scanContent,
    BaseGitService.scanDirectoryGeneric.
  apply signals_bind; [apply signals_scanDirectoryGenericFuel | intros].
  apply signals_ret.
Qed.

Lemma signals_scanForImageDirectories :
  signals (BaseGitService.scanForImageDirectories getRepoContents).
Proof.
  unfold BaseGitService.scanForImageDirectories, BaseGitService.scanImages,
    BaseGitService.scanDirectoryGeneric.
  apply signals_bind; [apply signals_scanDirectoryGenericFuel | intros].
  apply signals_ret.
Qed.

Lemma signals_scanConfigFiles files :
  signals (BaseGitService.scanConfigFiles getFileContent files).
Proof.
  induction files as [| [filePath regex] rest IH]; cbn [BaseGitService.scanConfigFiles].
  - apply signals_ret.
  - signalling. apply getFileContent_signals.
Qed.

Lemma signals_findProductionUrl :
  signals (BaseGitService.findProductionUrl getFileContent).
Proof.
  unfold BaseGitService.findProductionUrl.
  apply signals_bind; [apply signals_scanConfigFiles | intros].
  signalling. apply getFileContent_signals.
Qed.

End BaseSignals.

Section AdapterSignals.
Context `{JsRuntime} `{Backend}.

Lemma signals_github_getRepoContents this p :
  signals (GithubAdapter.getRepoContents this p).
Proof. unfold GithubAdapter.getRepoContents, GithubAdapter.request. signalling. Qed.

Lemma signals_github_getFileContent this p :
  signals (GithubAdapter.getFileContent this p).
Proof. unfold GithubAdapter.getFileContent, GithubAdapter.request. signalling. Qed.

Lemma signals_github_getFileSha this p :
  signals (GithubAdapter.getFileSha this p).
Proof. unfold GithubAdapter.getFileSha, GithubAdapter.request. signalling. Qed.

Lemma signals_gitea_getRepoContents this p :
  signals (BaseGiteaAdapter.getRepoContents this p).
Proof. unfold BaseGiteaAdapter.getRepoContents, BaseGiteaAdapter.request. signalling. Qed.

Lemma signals_gitea_getFileContent this p :
  signals (BaseGiteaAdapter.getFileContent this p).
Proof. unfold BaseGiteaAdapter.getFileContent, BaseGiteaAdapter.request. signalling. Qed.

Lemma signals_gitea_getFileSha this p :
  signals (BaseGiteaAdapter.getFileSha this p).
Proof. unfold BaseGiteaAdapter.getFileSha, BaseGiteaAdapter.request. signalling. Qed.

Lemma signals_perform adapter op : signals (perform adapter op).
Proof.
  destruct adapter as [this | this]; destruct op; cbn [perform]; apply signals_settle.
  (* GitHub *)
  - apply signals_github_getRepoContents.
  - unfold GithubAdapter.listFiles, GithubAdapter.listFilesFast,
      GithubAdapter.getRepoDetails, GithubAdapter.super_listFiles, GithubAdapter.request.
    signalling.
  - apply signals_github_getFileContent.
  - unfold GithubAdapter.getFileAsBlob, GithubAdapter.request. signalling.
  - unfold GithubAdapter.uploadFile, GithubAdapter.request. signalling.
  - unfold GithubAdapter.createFileFromString, GithubAdapter.request.
    apply signals_bind; [apply signals_github_getFileSha | intros]. signalling.
  - unfold GithubAdapter.updateFileContent, GithubAdapter.request. signalling.
  - unfold GithubAdapter.deleteFile, GithubAdapter.request. signalling.
  - unfold GithubAdapter.getRepoTree, GithubAdapter.treeEntry.
    apply signals_bind; [apply signals_github_getRepoContents | intros].
    signalling.
  - unfold GithubAdapter.getRepoDetails, GithubAdapter.request. signalling.
  - apply signals_scanForContentDirectories. apply signals_github_getRepoContents.
  - apply signals_scanForImageDirectories. apply signals_github_getRepoContents.
  - apply signals_findProductionUrl. apply signals_github_getFileContent.
  (* Gitea and Gogs *)
  - apply signals_gitea_getRepoContents.
  - unfold BaseGiteaAdapter.listFiles, BaseGiteaAdapter.listFilesFast,
      BaseGiteaAdapter.getRepoDetails, BaseGiteaAdapter.super_listFiles,
      BaseGiteaAdapter.request.
    signalling.
  - apply signals_gitea_getFileContent.
  - unfold BaseGiteaAdapter.getFileAsBlob, BaseGiteaAdapter.request. signalling.
  - unfold BaseGiteaAdapter.uploadFile, BaseGiteaAdapter.request.
    apply signals_bind; [signalling | intros].
    apply signals_bind; [signalling | intros].
    signalling.
  - unfold BaseGiteaAdapter.createFileFromString, BaseGiteaAdapter.request.
    apply signals_bind; [apply signals_gitea_getFileSha | intros]. signalling.
  - unfold BaseGiteaAdapter.updateFileContent, BaseGiteaAdapter.request. signalling.
  - unfold BaseGiteaAdapter.deleteFile, BaseGiteaAdapter.request. signalling.
  - unfold BaseGiteaAdapter.getRepoTree, BaseGiteaAdapter.treeEntry.
    apply signals_bind; [apply signals_gitea_getRepoContents | intros].
    signalling.
  - unfold BaseGiteaAdapter.getRepoDetails, BaseGiteaAdapter.request. signalling.
  - apply signals_scanForContentDirectories. apply signals_gitea_getRepoContents.
  - apply signals_scanForImageDirectories. apply signals_gitea_getRepoContents.
  - apply signals_findProductionUrl. apply signals_gitea_getFileContent.
Qed.

End AdapterSignals.

(** ** Sorting and the promotion of [public/images] *)

Section ArrayFacts.
Context {A : Type}.

Lemma sortInsert_perm (compare : A -> A -> Z) x sorted :
  Permutation (x :: sorted) (sortInsert compare x sorted).
Proof.
  induction sorted as [| y rest IH]; cbn; [reflexivity |].
  destruct (compare x y <=? 0); [reflexivity |].
  rewrite perm_swap. now constructor.
Qed.

Lemma Array_sort_perm (compare : A -> A -> Z) items :
  Permutation items (Array_sort compare items).
Proof.
  induction items as [| x rest IH]; cbn; [constructor |].
  rewrite <- sortInsert_perm. now constructor.
Qed.

(** [findIndex] gives the first element that passes the test. *)
Lemma findIndex_Some (test : A -> bool) items : forall i,
  findIndex test items = Some i ->
  exists x, nth_error items i = Some x /\ test x = true.
Proof.
  induction items as [| y rest IH]; intros i E; cbn in E; [discriminate |].
  destruct (test y) eqn:Ty.
  - injection E as <-. exists y. now split.
  - destruct (findIndex test rest) as [j |]; [| discriminate].
    injection E as <-. exact (IH j eq_refl).
Qed.

Lemma findIndex_None (test : A -> bool) items :
  findIndex test items = None -> forall x, In x items -> test x = false.
Proof.
  induction items as [| y rest IH]; intros E x Hin; [destruct Hin |].
  cbn in E. destruct (test y) eqn:Ty; [discriminate |].
  destruct (findIndex test rest); [discriminate |].
  destruct Hin as [<- | Hin]; [assumption | now apply IH].
Qed.

Lemma findIndex_zero (test : A -> bool) items :
  findIndex test items = Some O ->
  exists x rest, items = x :: rest /\ test x = true.
Proof.
  destruct items as [| y rest]; cbn; [discriminate |].
  destruct (test y) eqn:Ty.
  - intros _. now exists y, rest.
  - destruct (findIndex test rest); discriminate.
Qed.

Lemma splice1_spec (items : list A) i x :
  nth_error items i = Some x ->
  splice1 items i = ([x], firstn i items ++ skipn (S i) items)
  /\ Permutation items (x :: firstn i items ++ skipn (S i) items).
Proof.
  revert i. induction items as [| y rest IH]; intros [| i] E; cbn in E;
    try discriminate.
  - injection E as <-. split; [reflexivity |]. cbn. reflexivity.
  - destruct (IH i E) as [Hs Hp]. split.
    + unfold splice1 in *. cbn [skipn firstn app].
      injection Hs as Hs. now rewrite Hs.
    + cbn [firstn skipn app]. rewrite perm_swap. now constructor.
Qed.

End ArrayFacts.

Section PromotionFacts.
Context `{JsRuntime}.

Lemma promotePublicImages_perm sorted :
  Permutation sorted (BaseGitService.promotePublicImages sorted).
Proof.
  unfold BaseGitService.promotePublicImages.
  destruct (findIndex BaseGitService.isPublicImages sorted) as [[| i] |] eqn:E;
    try reflexivity.
  destruct (findIndex_Some _ _ _ E) as (x & Hx & _).
  destruct (splice1_spec _ _ _ Hx) as [-> Hp]. exact Hp.
Qed.

(** When some path is [public/images] up to case, the promoted list starts
    with such a path. *)
Lemma promotePublicImages_head sorted p :
  In p sorted -> BaseGitService.isPublicImages p = true ->
  exists q rest,
    BaseGitService.promotePublicImages sorted = q :: rest
    /\ BaseGitService.isPublicImages q = true.
Proof.
  intros Hin Hp. unfold BaseGitService.promotePublicImages.
  destruct (findIndex BaseGitService.isPublicImages sorted) as [[| i] |] eqn:E.
  - destruct (findIndex_zero _ _ E) as (x & rest & -> & Hx). now exists x, rest.
  - destruct (findIndex_Some _ _ _ E) as (x & Hx & Tx).
    destruct (splice1_spec _ _ _ Hx) as [-> _]. cbn [app].
    now eexists _, _.
  - rewrite (findIndex_None _ _ E p Hin) in Hp. discriminate.
Qed.

End PromotionFacts.

(** ** The directory scan *)

Section ScanFacts.
Context `{JsRuntime} `{Backend}.
Variable getRepoContents : jsstring -> M (list ContentInfo).
Variable fileCheck : jsstring -> bool.

Lemma grows_refl st : grows st st.
Proof. exists []. now rewrite app_nil_r. Qed.

Lemma grows_trans st1 st2 st3 : grows st1 st2 -> grows st2 st3 -> grows st1 st3.
Proof.
  intros [m1 E1] [m2 E2]. exists (m1 ++ m2). now rewrite E2, E1, app_assoc.
Qed.

Lemma reached_grows st st' p :
  grows st st' -> reached (BaseGitService.listings st) p ->
  reached (BaseGitService.listings st') p.
Proof.
  intros [more E] [-> | (parent & contents & dir & Hin & Hrest)]; [now left |].
  right. exists parent, contents, dir. split; [| exact Hrest].
  rewrite E. apply in_or_app. now left.
Qed.

Lemma hit_grows st st' p :
  grows st st' -> hit fileCheck (BaseGitService.listings st) p ->
  hit fileCheck (BaseGitService.listings st') p.
Proof.
  intros [more E] (contents & file & Hin & Hrest).
  exists contents, file. split; [| exact Hrest].
  rewrite E. apply in_or_app. now left.
Qed.

Lemma setAdd_In x set y :
  In y (BaseGitService.setAdd x set) <-> In y set \/ y = x.
Proof.
  unfold BaseGitService.setAdd.
  destruct (JsString.arrayIncludes set x) eqn:E.
  - apply JsStringFacts.arrayIncludes_spec in E. split; [auto |].
    intros [Hy | ->]; assumption.
  - rewrite in_app_iff. cbn. intuition.
Qed.

(** Recording a listing of a reached path keeps a scan good. *)
Lemma goodScan_noteListing st p r :
  goodScan fileCheck st -> reached (BaseGitService.listings st) p ->
  goodScan fileCheck (BaseGitService.noteListing p r st).
Proof.
  intros [G1 G2 G3] Hp.
  assert (Hg : grows st (BaseGitService.noteListing p r st)) by (now exists [(p, r)]).
  constructor; cbn [BaseGitService.noteListing BaseGitService.foundDirs].
  - exact G1.
  - intros q Hq. apply (hit_grows st _ q Hg). now apply G2.
  - intros q r' Hin. apply (reached_grows st _ q Hg).
    cbn [BaseGitService.noteListing BaseGitService.listings] in Hin.
    apply in_app_or in Hin as [Hin | [E | []]].
    + now apply (G3 q r').
    + injection E as <- _. exact Hp.
Qed.

Lemma hasMatchingFile_spec contents :
  BaseGitService.hasMatchingFile fileCheck contents = true ->
  exists file, In file contents /\ ci_type file = js "file"
               /\ fileCheck (ci_name file) = true.
Proof.
  unfold BaseGitService.hasMatchingFile. rewrite existsb_exists.
  intros (file & Hin & E). apply andb_true_iff in E as [E1 E2].
  exists file. repeat split; try assumption.
  now apply JsStringFacts.eqb_eq in E1.
Qed.

Lemma subDirsOf_spec contents dir :
  In dir (BaseGitService.subDirsOf fileCheck contents) ->
  In dir contents /\ ci_type dir = js "dir"
  /\ ~ In (toLowerCase (ci_name dir)) BaseGitService.ignoredDirs.
Proof.
  unfold BaseGitService.subDirsOf. rewrite filter_In. intros [Hin E].
  destruct (BaseGitService.isFile dir && fileCheck (ci_name dir)); [discriminate |].
  apply andb_true_iff in E as [E1 E2]. repeat split; try assumption.
  - now apply JsStringFacts.eqb_eq in E1.
  - apply negb_true_iff in E2. intros Hign.
    apply JsStringFacts.arrayIncludes_spec in Hign. congruence.
Qed.

(** A loop whose steps settle and keep an invariant settles and keeps it. *)
Lemma forEachM_invariant {X S} (I : S -> World -> Prop) (items : list X)
    (step : X -> S -> M S) :
  (forall item s w, In item items -> I s w ->
     exists s' w', step item s w = (Ok s', w') /\ I s' w') ->
  forall s w, I s w ->
    exists s' w', forEachM items step s w = (Ok s', w') /\ I s' w'.
Proof.
  induction items as [| item rest IH]; intros Hstep s w Hs; cbn [forEachM].
  - now exists s, w.
  - unfold bind.
    destruct (Hstep item s w (or_introl eq_refl) Hs) as (s1 & w1 & E1 & H1).
    rewrite E1. apply IH; [| exact H1].
    intros item' s' w' Hin. apply Hstep. now right.
Qed.

(** A scan of a reached path settles, keeps the scan good and only adds
    to the record of listings. *)
Lemma scanDirectoryGenericFuel_good fuel :
  forall p depth maxDepth st w,
    goodScan fileCheck st -> reached (BaseGitService.listings st) p ->
    exists st' w',
      BaseGitService.scanDirectoryGenericFuel getRepoContents fuel p depth
        maxDepth fileCheck st w = (Ok st', w')
      /\ goodScan fileCheck st' /\ grows st st'.
Proof.
  induction fuel as [| fuel IH]; intros p depth maxDepth st w Hgood Hp;
    cbn [BaseGitService.scanDirectoryGenericFuel].
  { exists st, w. split; [reflexivity | split; [assumption | apply grows_refl]]. }
  destruct (maxDepth <=? depth)%nat.
  { exists st, w. split; [reflexivity | split; [assumption | apply grows_refl]]. }
  unfold tryCatch, bind at 1.
  destruct (getRepoContents p w) as [[contents | error] w1].
  - set (st1 := BaseGitService.noteListing p (Ok contents) st).
    assert (Hg1 : grows st st1) by (now exists [(p, Ok contents)]).
    assert (Hgood1 : goodScan fileCheck st1) by (now apply goodScan_noteListing).
    assert (Hin1 : In (p, Ok contents) (BaseGitService.listings st1)).
    { cbn. apply in_or_app. right. now left. }
    set (st2 := if BaseGitService.hasMatchingFile fileCheck contents
                   && JsString.truthy p
                then BaseGitService.addFound p st1 else st1).
    assert (Hl2 : BaseGitService.listings st2 = BaseGitService.listings st1).
    { unfold st2. now destruct (_ && _). }
    assert (Hgood2 : goodScan fileCheck st2).
    { unfold st2. destruct (_ && _) eqn:E; [| exact Hgood1].
      apply andb_true_iff in E as [E1 E2].
      destruct Hgood1 as [G1 G2 G3]. constructor; cbn.
      - intros q Hq. apply setAdd_In in Hq as [Hq | ->]; [now apply G1 |].
        now apply JsStringFacts.truthy_spec.
      - intros q Hq. apply setAdd_In in Hq as [Hq | ->]; [now apply G2 |].
        destruct (hasMatchingFile_spec _ E1) as (file & Hf & Ht & Hc).
        now exists contents, file.
      - exact G3. }
    destruct (forEachM_invariant
                (fun s _ => goodScan fileCheck s /\ grows st2 s)
                (BaseGitService.subDirsOf fileCheck contents)
                (fun dir =>
                   BaseGitService.scanDirectoryGenericFuel getRepoContents fuel
                     (ci_path dir) (depth + 1) maxDepth fileCheck))
      with (s := st2) (w := w1) as (st' & w' & E & Hgood' & Hg').
    + intros dir s w0 Hdir [Hs Hgs].
      destruct (subDirsOf_spec _ _ Hdir) as (Hd1 & Hd2 & Hd3).
      destruct (IH (ci_path dir) (depth + 1)%nat maxDepth s w0 Hs)
        as (s' & w0' & E' & Hs' & Hg').
      * apply (reached_grows st2 s _ Hgs). right.
        exists p, contents, dir. rewrite Hl2. now repeat split.
      * exists s', w0'. split; [exact E' | split; [exact Hs' |]].
        eapply grows_trans; eassumption.
    + split; [exact Hgood2 | apply grows_refl].
    + fold st1. fold st2. rewrite E. exists st', w'.
      split; [reflexivity | split; [exact Hgood' |]].
      apply (grows_trans st st1); [exact Hg1 |].
      apply (grows_trans st1 st2); [| exact Hg'].
      exists []. now rewrite Hl2, app_nil_r.
  - cbn. eexists _, _. split; [reflexivity |]. split.
    + now apply goodScan_noteListing.
    + now exists [(p, Err error)].
Qed.

(** *** The requests of a scan *)

Variable request : jsstring -> Request.
Hypothesis getRepoContents_one_exchange :
  forall p w, exists answer,
    traffic (snd (getRepoContents p w)) = traffic w ++ [(request p, answer)].

(** The exchanges of a scan are, in order, the requests of the paths it
    lists. *)
Lemma scanDirectoryGenericFuel_traffic fuel :
  forall p depth maxDepth st w,
    exists st' w' more exchanges,
      BaseGitService.scanDirectoryGenericFuel getRepoContents fuel p depth
        maxDepth fileCheck st w = (Ok st', w')
      /\ BaseGitService.listings st' = BaseGitService.listings st ++ more
      /\ traffic w' = traffic w ++ exchanges
      /\ map fst exchanges = map (fun l => request (fst l)) more.
Proof.
  induction fuel as [| fuel IH]; intros p depth maxDepth st w;
    cbn [BaseGitService.scanDirectoryGenericFuel].
  { exists st, w, [], []. now rewrite !app_nil_r. }
  destruct (maxDepth <=? depth)%nat.
  { exists st, w, [], []. now rewrite !app_nil_r. }
  unfold tryCatch, bind at 1.
  destruct (getRepoContents_one_exchange p w) as (answer & Hone).
  destruct (getRepoContents p w) as [[contents | error] w1]; cbn [snd] in Hone.
  - set (st1 := BaseGitService.noteListing p (Ok contents) st).
    set (st2 := if BaseGitService.hasMatchingFile fileCheck contents
                   && JsString.truthy p
                then BaseGitService.addFound p st1 else st1).
    assert (Hl2 : BaseGitService.listings st2
                  = BaseGitService.listings st ++ [(p, Ok contents)]).
    { unfold st2. now destruct (_ && _). }
    destruct (forEachM_invariant
                (fun s w0 =>
                   exists more exchanges,
                     BaseGitService.listings s = BaseGitService.listings st2 ++ more
                     /\ traffic w0 = traffic w1 ++ exchanges
                     /\ map fst exchanges = map (fun l => request (fst l)) more)
                (BaseGitService.subDirsOf fileCheck contents)
                (fun dir =>
                   BaseGitService.scanDirectoryGenericFuel getRepoContents fuel
                     (ci_path dir) (depth + 1) maxDepth fileCheck))
      with (s := st2) (w := w1) as (st' & w' & E & more & ex & Hl & Ht & Hm).
    + intros dir s w0 _ (more & ex & Hl & Ht & Hm).
      destruct (IH (ci_path dir) (depth + 1)%nat maxDepth s w0)
        as (s' & w0' & more' & ex' & E' & Hl' & Ht' & Hm').
      exists s', w0'. split; [exact E' |].
      exists (more ++ more'), (ex ++ ex'). split; [| split].
      * now rewrite Hl', Hl, app_assoc.
      * now rewrite Ht', Ht, app_assoc.
      * now rewrite !map_app, Hm, Hm'.
    + exists [], []. now rewrite !app_nil_r.
    + fold st1. fold st2. rewrite E.
      exists st', w', ((p, Ok contents) :: more), ((request p, answer) :: ex).
      split; [reflexivity | split; [| split]].
      * rewrite Hl, Hl2, <- app_assoc. reflexivity.
      * rewrite Ht, Hone, <- app_assoc. reflexivity.
      * cbn. now rewrite Hm.
  - cbn. eexists _, _, [(p, Err error)], [(request p, answer)].
    split; [reflexivity |]. cbn. now rewrite Hone.
Qed.

Lemma emptyScan_good : goodScan fileCheck BaseGitService.emptyScan.
Proof. constructor; cbn; intros; contradiction. Qed.

(** A scan from the root settles with a good scan. *)
Lemma scanDirectoryGeneric_root_good maxDepth w :
  exists st w',
    BaseGitService.scanDirectoryGeneric getRepoContents [] 0 maxDepth fileCheck
      BaseGitService.emptyScan w = (Ok st, w')
    /\ goodScan fileCheck st.
Proof.
  unfold BaseGitService.scanDirectoryGeneric.
  destruct (scanDirectoryGenericFuel_good (S (maxDepth - 0)) [] 0%nat maxDepth
              BaseGitService.emptyScan w emptyScan_good)
    as (st & w' & E & Hgood & _); [now left |].
  now exists st, w'.
Qed.

End ScanFacts.

(** ** The production URL *)

Section SniffFacts.
Context `{JsRuntime} `{Backend}.
Variable getFileContent : jsstring -> M jsstring.

Lemma scanConfigFiles_settles files w :
  exists found w', BaseGitService.scanConfigFiles getFileContent files w = (Ok found, w').
Proof.
  revert w. induction files as [| [filePath regex] rest IH]; intros w;
    cbn [BaseGitService.scanConfigFiles].
  - now exists None, w.
  - unfold bind at 1, tryCatch, bind, ret.
    destruct (getFileContent filePath w) as [[content | error] w1].
    + destruct (BaseGitService.siteUrlIn content regex) as [url |].
      * now exists (Some url), w1.
      * apply IH.
    + apply IH.
Qed.

Lemma findProductionUrl_settles w :
  exists found w', BaseGitService.findProductionUrl getFileContent w = (Ok found, w').
Proof.
  unfold BaseGitService.findProductionUrl, bind at 1.
  destruct (scanConfigFiles_settles BaseGitService.filesToScan w)
    as (found & w1 & ->).
  destruct found as [url |]; [now exists (Some url), w1 |].
  unfold tryCatch, bind, lift, ret.
  destruct (getFileContent (js "package.json") w1) as [[content | error] w2].
  - destruct (BaseGitService.homepageOf content) as [found | e];
      [now exists found, w2 | now exists None, w2].
  - now exists None, w2.
Qed.

Variable read : jsstring -> Result jsstring.
Variable stable : World -> Prop.
Hypothesis getFileContent_reads :
  forall p w, stable w ->
    fst (getFileContent p w) = read p /\ stable (snd (getFileContent p w)).

Lemma scanConfigFiles_first files w :
  stable w ->
  fst (BaseGitService.scanConfigFiles getFileContent files w)
  = Ok (hd_error (configUrls read files))
  /\ stable (snd (BaseGitService.scanConfigFiles getFileContent files w)).
Proof.
  revert w. induction files as [| [filePath regex] rest IH]; intros w Hw;
    cbn [BaseGitService.scanConfigFiles configUrls flat_map fst snd].
  - now split.
  - unfold bind at 1, tryCatch, bind, ret.
    destruct (getFileContent_reads filePath w Hw) as [Hr Hs].
    destruct (getFileContent filePath w) as [[content | error] w1];
      cbn [fst snd] in Hr, Hs; rewrite <- Hr.
    + destruct (BaseGitService.siteUrlIn content regex) as [url |];
        [now split | now apply IH].
    + now apply IH.
Qed.

Lemma findProductionUrl_first w :
  stable w ->
  fst (BaseGitService.findProductionUrl getFileContent w)
  = Ok (hd_error (urlsFound read)).
Proof.
  intros Hw.
  unfold BaseGitService.findProductionUrl, bind at 1, urlsFound.
  destruct (scanConfigFiles_first BaseGitService.filesToScan w Hw) as [Hc Hs].
  fold (configUrls read BaseGitService.filesToScan).
  remember (configUrls read BaseGitService.filesToScan) as urls eqn:Hurls.
  clear Hurls.
  destruct (BaseGitService.scanConfigFiles getFileContent
              BaseGitService.filesToScan w) as [[found | e] w1];
    cbn [fst snd] in Hc, Hs; [| discriminate].
  injection Hc as ->.
  destruct urls as [| url urls]; [| reflexivity].
  cbn [hd_error app]. unfold tryCatch, bind, lift, ret.
  destruct (getFileContent_reads (js "package.json") w1 Hs) as [Hr _].
  destruct (getFileContent (js "package.json") w1) as [[content | error] w2];
    cbn [fst] in Hr; rewrite <- Hr; [| reflexivity].
  destruct (BaseGitService.homepageOf content) as [[url |] | e]; reflexivity.
Qed.

End SniffFacts.

(** ** The code against the contract's production URL *)

Section UrlContractFacts.
Context `{JsRuntime}.

Lemma withoutTrailingSlash_slash s :
  UrlContract.withoutTrailingSlash (s ++ [JsString.slash]) = s.
Proof.
  induction s as [| c s IH]; [reflexivity |].
  cbn [app UrlContract.withoutTrailingSlash]. rewrite IH.
  destruct s; reflexivity.
Qed.

Lemma withoutTrailingSlash_other s c :
  c <> JsString.slash -> UrlContract.withoutTrailingSlash (s ++ [c]) = s ++ [c].
Proof.
  intros Hc. induction s as [| d s IH].
  - cbn. now apply Z.eqb_neq in Hc as ->.
  - cbn [app UrlContract.withoutTrailingSlash]. rewrite IH.
    destruct s; reflexivity.
Qed.

(** [replace(/\/$/, '')] strips the trailing slash. *)
Lemma stripTrailingSlash_strips s :
  JsString.stripTrailingSlash s = UrlContract.withoutTrailingSlash s.
Proof.
  unfold JsString.stripTrailingSlash.
  destruct (rev s) as [| c r] eqn:E.
  - apply (f_equal (@rev Z)) in E. rewrite rev_involutive in E. now subst s.
  - apply (f_equal (@rev Z)) in E. rewrite rev_involutive in E. cbn in E. subst s.
    destruct (Z.eqb_spec c 47) as [-> | Hc].
    + symmetry. apply withoutTrailingSlash_slash.
    + symmetry. now apply withoutTrailingSlash_other.
Qed.

(** What the code takes from a configuration text is the URL the text
    declares, the trailing slash stripped. *)
Lemma siteUrlIn_declared content syntax :
  BaseGitService.siteUrlIn content syntax
  = option_map UrlContract.withoutTrailingSlash
      (UrlContract.declaredSite content syntax).
Proof.
  unfold BaseGitService.siteUrlIn, UrlContract.declaredSite.
  destruct (String_match content syntax) as [[| whole [| url groups]] |];
    try reflexivity.
  cbn [nth_error]. destruct url as [| c url]; [reflexivity |].
  cbn [JsString.truthy option_map]. now rewrite stripTrailingSlash_strips.
Qed.

(** What the code takes from the manifest is the homepage the manifest
    declares, the trailing slash stripped; a manifest that does not parse
    or cannot be read as an object gives nothing. *)
Lemma homepageOf_declared content :
  match BaseGitService.homepageOf content with
  | Ok url => url
  | Err _ => None
  end
  = option_map UrlContract.withoutTrailingSlash
      (UrlContract.declaredHomepage content).
Proof.
  unfold BaseGitService.homepageOf, UrlContract.declaredHomepage.
  destruct (JSON_parse content) as [pkg | e]; [| reflexivity].
  destruct pkg as [| b | | s | items | members]; try reflexivity.
  cbn [getMember].
  destruct (lookupMember (js "homepage") members) as [[| b | | homepage | items | ms] |];
    try reflexivity.
  destruct homepage as [| c homepage]; [reflexivity |].
  cbn [JsString.truthy andb].
  destruct (JsString.startsWith (c :: homepage) (js "http")); [| reflexivity].
  cbn [option_map]. now rewrite stripTrailingSlash_strips.
Qed.

(** The URLs the code finds in a list of configuration files, followed by
    more, start with the first URL the contract finds in these files as
    sources, followed by more sources. *)
Lemma configUrls_firstFound read files more sources :
  hd_error more = UrlContract.firstFound read sources ->
  hd_error (configUrls read files ++ more)
  = UrlContract.firstFound read
      (map (fun file => UrlContract.ConfigFile (fst file) (snd file)) files
         ++ sources).
Proof.
  intros Hmore. induction files as [| [path syntax] files IH];
    [exact Hmore |].
  cbn [configUrls flat_map map app UrlContract.firstFound UrlContract.found fst snd].
  destruct (read path) as [content | e]; [| exact IH].
  rewrite siteUrlIn_declared.
  destruct (UrlContract.declaredSite content syntax) as [url |];
    [reflexivity | exact IH].
Qed.

(** The first of the URLs the code finds is the production URL of the
    contract. *)
Lemma urlsFound_productionUrl read :
  hd_error (urlsFound read) = UrlContract.productionUrl read.
Proof.
  unfold urlsFound, UrlContract.productionUrl.
  change UrlContract.sources
    with (map (fun file => UrlContract.ConfigFile (fst file) (snd file))
            BaseGitService.filesToScan ++ [UrlContract.ManifestHomepage]).
  apply (configUrls_firstFound read BaseGitService.filesToScan).
  cbn [UrlContract.firstFound UrlContract.found].
  destruct (read (js "package.json")) as [content | e]; [| reflexivity].
  rewrite <- homepageOf_declared.
  destruct (BaseGitService.homepageOf content) as [[url |] | e]; reflexivity.
Qed.

End UrlContractFacts.

(** ** Requests and what the adapters make of the answers *)

Section RequestFacts.
Context `{JsRuntime} `{Backend}.

Lemma bind_ok {A B} (m : M A) (k : A -> M B) w a w' :
  m w = (Ok a, w') -> bind m k w = k a w'.
Proof. intros E. unfold bind. now rewrite E. Qed.

Lemma bind_err {A B} (m : M A) (k : A -> M B) w e w' :
  m w = (Err e, w') -> bind m k w = (Err e, w').
Proof. intros E. unfold bind. now rewrite E. Qed.

Lemma tryCatch_ok {A} (m : M A) handler w a w' :
  m w = (Ok a, w') -> tryCatch m handler w = (Ok a, w').
Proof. intros E. unfold tryCatch. now rewrite E. Qed.

Lemma ok_not_401 r : ok r = true -> (status r =? 401) = false.
Proof.
  unfold ok. intros E. apply andb_true_iff in E as [_ E].
  apply Z.leb_le in E. apply Z.eqb_neq. lia.
Qed.

Lemma status_409 r : status r = 409 -> (status r =? 401) = false /\ ok r = false.
Proof. intros E. unfold ok. rewrite E. split; reflexivity. Qed.

(** A success that carries JSON is handed to the caller. *)
Lemma makeRequest_answered endpoint token options w R' r :
  answers (remote w) (GithubService.requestFor endpoint token options) R' r ->
  GithubService.makeRequest endpoint token options w
  = (Ok (payload r),
     after w R' (GithubService.requestFor endpoint token options) (Responded r)).
Proof.
  intros (E & Hok & Hjson). unfold GithubService.makeRequest, bind, fetch.
  rewrite E, (ok_not_401 r Hok), Hok. cbn [negb].
  destruct (_ || _); destruct (payload r); try reflexivity; contradiction.
Qed.

Lemma makeGiteaRequest_answered endpoint token baseUrl options w R' r :
  answers (remote w) (BaseGiteaService.requestFor endpoint token baseUrl options) R' r ->
  BaseGiteaService.makeGiteaRequest endpoint token baseUrl options w
  = (Ok (payload r),
     after w R' (BaseGiteaService.requestFor endpoint token baseUrl options)
       (Responded r)).
Proof.
  intros (E & Hok & Hjson). unfold BaseGiteaService.makeGiteaRequest, bind, fetch.
  rewrite E, (ok_not_401 r Hok), Hok. cbn [negb].
  destruct (_ || _); destruct (payload r); try reflexivity; contradiction.
Qed.


(** A refusal with status 409 is thrown as an error of that status. *)
Lemma makeRequest_conflict endpoint token options w R' r :
  serve (remote w) (GithubService.requestFor endpoint token options)
  = (R', Responded r) ->
  status r = 409 ->
  exists e,
    GithubService.makeRequest endpoint token options w
    = (Err e, after w R' (GithubService.requestFor endpoint token options)
                (Responded r))
    /\ kindOf e = Conflict.
Proof.
  intros E Hs. destruct (status_409 r Hs) as [H401 Hok].
  unfold GithubService.makeRequest, bind, fetch.
  rewrite E, H401, Hok. cbn [negb]. eexists. split; [reflexivity |].
  cbn. now rewrite Hs.
Qed.

Lemma makeGiteaRequest_conflict endpoint token baseUrl options w R' r :
  serve (remote w) (BaseGiteaService.requestFor endpoint token baseUrl options)
  = (R', Responded r) ->
  status r = 409 ->
  exists e,
    BaseGiteaService.makeGiteaRequest endpoint token baseUrl options w
    = (Err e, after w R' (BaseGiteaService.requestFor endpoint token baseUrl options)
                (Responded r))
    /\ kindOf e = Conflict.
Proof.
  intros E Hs. destruct (status_409 r Hs) as [H401 Hok].
  unfold BaseGiteaService.makeGiteaRequest, bind, fetch.
  rewrite E, H401, Hok. cbn [negb]. eexists. split; [reflexivity |].
  cbn. now rewrite Hs.
Qed.

(** *** [createFileFromString] on an existing file *)

Lemma createFileFromString_existing adapter path newContent commitMessage w r file :
  reportsFile (remote w) adapter path r file ->
  perform adapter (CreateFileFromString path newContent commitMessage) w
  = (Err (FileExists (orEmpty (lastSegment path))),
     after w (remote w) (contentsRequest adapter path) (Responded r)).
Proof.
  intros (Hans & Hfile & Hsha). destruct adapter as [this | this];
    cbn [perform]; unfold settle.
  - unfold GithubAdapter.createFileFromString.
    apply bind_err.
    assert (E : GithubAdapter.getFileSha this path w
                = (Ok (Some (ci_sha file)),
                   after w (remote w) (contentsRequest (Github this) path)
                     (Responded r))).
    { unfold GithubAdapter.getFileSha, GithubAdapter.request.
      apply tryCatch_ok.
      erewrite bind_ok by (apply makeRequest_answered; exact Hans).
      rewrite Hfile. reflexivity. }
    rewrite (bind_ok _ _ _ _ _ E). cbv beta.
    destruct (ci_sha file); [contradiction | reflexivity].
  - unfold BaseGiteaAdapter.createFileFromString.
    apply bind_err.
    assert (E : BaseGiteaAdapter.getFileSha this path w
                = (Ok (Some (ci_sha file)),
                   after w (remote w) (contentsRequest (Gitea this) path)
                     (Responded r))).
    { unfold BaseGiteaAdapter.getFileSha, BaseGiteaAdapter.request.
      apply tryCatch_ok.
      erewrite bind_ok by (apply makeGiteaRequest_answered; exact Hans).
      rewrite Hfile. reflexivity. }
    rewrite (bind_ok _ _ _ _ _ E). cbv beta.
    destruct (ci_sha file); [contradiction | reflexivity].
Qed.

End RequestFacts.

(** ** [updateFileContent] against a backend that compares and swaps *)

Section UpdateFacts.
Context `{JsRuntime} `{Backend}.

(** What a [PUT] that carries the hash comes to, on such a backend. *)
Lemma put_compared adapter path current w body hash :
  comparesAndSwaps (remote w) adapter path current ->
  wb_sha body = Some hash ->
  exists R' r,
    serve (remote w) (putRequest adapter path body) = (R', Responded r)
    /\ (current = Some hash -> answers (remote w) (putRequest adapter path body) R' r)
    /\ (current <> Some hash -> status r = 409 /\ R' = remote w).
Proof.
  intros Hcas Hs.
  destruct (Hcas body hash Hs) as (R' & r & E & Hyes & Hno).
  exists R', r. split; [exact E | split; [| exact Hno]].
  intros Hc. destruct (Hyes Hc) as [Hok Hjson]. now repeat split.
Qed.

Lemma bind_lift_ok {A B} (a : A) (k : A -> M B) : bind (lift (Ok a)) k = k a.
Proof. reflexivity. Qed.

Lemma current_dec (current : option jsstring) hash :
  {current = Some hash} + {current <> Some hash}.
Proof. decide equality. apply list_eq_dec, Z.eq_dec. Qed.

Lemma updateFileContent_compared adapter path newContent commitMessage hash
    current w :
  validString newContent ->
  comparesAndSwaps (remote w) adapter path current ->
  (current = Some hash ->
     exists w',
       perform adapter (UpdateFileContent path newContent commitMessage hash) w
       = (Ok tt, w'))
  /\ (current <> Some hash ->
        exists e w',
          perform adapter (UpdateFileContent path newContent commitMessage hash) w
          = (Err e, w')
          /\ kindOf e = Conflict /\ remote w' = remote w).
Proof.
  intros Hv Hcas.
  destruct (EncodingFacts.base64Encode_total newContent Hv) as (encoded & Henc).
  destruct adapter as [this | this]; cbn [perform]; unfold settle.
  - unfold GithubAdapter.updateFileContent, GithubService.base64Encode,
      GithubAdapter.request.
    rewrite Henc, bind_lift_ok.
    set (endpoint := contentsEndpoint _ _ _).
    set (options := {| init_method := Some PUT;
                       init_body := Some {| wb_message := commitMessage;
                                            wb_content := Some encoded;
                                            wb_sha := Some hash |} |}).
    destruct (put_compared (Github this) path current w
                {| wb_message := commitMessage; wb_content := Some encoded;
                   wb_sha := Some hash |} hash Hcas eq_refl)
      as (R' & r & E & Hyes & Hno).
    change (putRequest _ _ _)
      with (GithubService.requestFor endpoint (GithubAdapter.token this) options)
      in E, Hyes.
    split; intros Hc.
    + eexists. erewrite bind_ok; [reflexivity |].
      apply makeRequest_answered. now apply Hyes.
    + destruct (Hno Hc) as [Hs ->].
      destruct (makeRequest_conflict endpoint (GithubAdapter.token this) options
                  w (remote w) r E Hs) as (e & Ee & Hk).
      exists e. eexists.
      split; [apply bind_err; exact Ee | split; [exact Hk | reflexivity]].
  - unfold BaseGiteaAdapter.updateFileContent, BaseGiteaService.base64Encode,
      BaseGiteaAdapter.request.
    rewrite Henc.
    assert (Hcontent :
              exists content,
                forall (k : option jsstring -> M Payload) w0,
                  bind (if JsString.startsWith newContent (js "data:")
                        then ret (nth_error (JsString.split newContent JsString.comma) 1)
                        else c <- lift (Ok encoded) ;; ret (Some c)) k w0
                  = k content w0).
    { destruct (JsString.startsWith newContent (js "data:"));
        eexists; intros; reflexivity. }
    destruct Hcontent as (content & Hbind).
    set (endpoint := contentsEndpoint _ _ _).
    set (options := {| init_method := Some PUT;
                       init_body := Some {| wb_message := commitMessage;
                                            wb_content := content;
                                            wb_sha := Some hash |} |}).
    destruct (put_compared (Gitea this) path current w
                {| wb_message := commitMessage; wb_content := content;
                   wb_sha := Some hash |} hash Hcas eq_refl)
      as (R' & r & E & Hyes & Hno).
    change (putRequest _ _ _)
      with (BaseGiteaService.requestFor endpoint (BaseGiteaAdapter.token this)
              (BaseGiteaAdapter.baseUrl this) options)
      in E, Hyes.
    split; intros Hc.
    + eexists. erewrite bind_ok; [reflexivity |].
      rewrite Hbind. apply makeGiteaRequest_answered. now apply Hyes.
    + destruct (Hno Hc) as [Hs ->].
      destruct (makeGiteaRequest_conflict endpoint (BaseGiteaAdapter.token this)
                  (BaseGiteaAdapter.baseUrl this) options
                  w (remote w) r E Hs) as (e & Ee & Hk).
      exists e. eexists.
      split; [apply bind_err; rewrite Hbind; exact Ee
             | split; [exact Hk | reflexivity]].
Qed.

End UpdateFacts.

(** ** The two paths of [listFiles] on the reference backend *)

Section ListingFacts.
Context `{JsRuntime}.
Existing Instance RefBackend.backend.
Import RefBackend.

Lemma stripPrefix_app p : forall rest, stripPrefix p (p ++ rest) = Some rest.
Proof.
  induction p as [| c p IH]; intros rest; cbn; [reflexivity |].
  now rewrite Z.eqb_refl.
Qed.


Lemma contentsEndpoint_split o r p :
  contentsEndpoint o r p = repoEndpoint o r ++ js "/contents/" ++ p.
Proof. unfold contentsEndpoint, repoEndpoint. now rewrite <- !app_assoc. Qed.


Variable st : State.
Variable this : GithubAdapter.t.
Hypothesis Hserves : servesGithub st this.

Lemma authorised endpoint options :
  JsString.eqb
    (req_authorization (GithubService.requestFor endpoint (GithubAdapter.token this) options))
    (credentials st) = true.
Proof.
  destruct Hserves as (_ & -> & _). apply JsStringFacts.eqb_refl.
Qed.

Lemma repoUrl_eq :
  repoUrl st
  = GithubService.API_BASE_URL
      ++ repoEndpoint (GithubAdapter.owner this) (GithubAdapter.repoName this).
Proof. unfold repoUrl. destruct Hserves as (-> & _ & -> & ->). reflexivity. Qed.


Lemma route_contents p :
  route st (GithubService.requestFor
              (contentsEndpoint (GithubAdapter.owner this) (GithubAdapter.repoName this) p)
              (GithubAdapter.token this) noOptions)
  = getContents st p.
Proof.
  unfold route. rewrite authorised. cbn [negb].
  cbn [req_url GithubService.requestFor].
  rewrite contentsEndpoint_split, app_assoc, <- repoUrl_eq, stripPrefix_app.
  change (js "/contents/" ++ p) with (47 :: tl (js "/contents/") ++ p).
  cbv iota. change (47 :: tl (js "/contents/") ++ p) with (js "/contents/" ++ p).
  rewrite stripPrefix_app. reflexivity.
Qed.



(** *** The fast path *)







(** *** The fallback path *)






(** *** The two paths compared *)


End ListingFacts.

(** ** The reference backend compares and swaps *)

Section ReferenceFacts.
Context `{JsRuntime}.
Existing Instance RefBackend.backend.
Import RefBackend.

Lemma route_put st this p body :
  servesGithub st this ->
  route st (putRequest (Github this) p body) = putContents st p body.
Proof.
  intros Hserves. unfold route, putRequest, requestOf.
  rewrite (authorised st this Hserves). cbn [negb].
  cbn [req_url GithubService.requestFor ownerOf repoNameOf].
  rewrite contentsEndpoint_split, app_assoc, <- (repoUrl_eq st this Hserves),
    stripPrefix_app.
  change (js "/contents/" ++ p) with (47 :: tl (js "/contents/") ++ p).
  cbv iota. change (47 :: tl (js "/contents/") ++ p) with (js "/contents/" ++ p).
  rewrite stripPrefix_app. reflexivity.
Qed.

Lemma reference_comparesAndSwaps st this p :
  servesGithub st this ->
  comparesAndSwaps st (Github this) p (option_map sf_sha (lookup p (files st))).
Proof.
  intros Hserves body hash Hsha. cbn [serve backend].
  rewrite (route_put st this p body Hserves). unfold putContents. rewrite Hsha.
  destruct (lookup p (files st)) as [f |]; cbn [option_map].
  - destruct (JsString.eqb hash (sf_sha f)) eqn:E.
    + apply JsStringFacts.eqb_eq in E. subst hash.
      eexists _, _. split; [reflexivity |]. split.
      * intros _. split; [reflexivity | discriminate].
      * intros Hne. contradiction.
    + apply JsStringFacts.eqb_neq in E.
      eexists _, _. split; [reflexivity |]. split.
      * intros Heq. injection Heq as Heq. now symmetry in Heq.
      * intros _. split; reflexivity.
  - eexists _, _. split; [reflexivity |]. split.
    + discriminate.
    + intros _. split; reflexivity.
Qed.

(** A read of the contents of a path leaves the reference backend as it
    is. *)
Lemma route_contents_unchanged st this p :
  servesGithub st this ->
  exists r,
    route st (GithubService.requestFor
                (contentsEndpoint (GithubAdapter.owner this)
                   (GithubAdapter.repoName this) p)
                (GithubAdapter.token this) noOptions)
    = (st, Responded r).
Proof.
  intros Hserves. rewrite (route_contents st this Hserves p). unfold getContents.
  destruct (childrenOf _ _); [| eexists; reflexivity].
  destruct (lookup p (files st)); [eexists; reflexivity |].
  destruct (JsString.truthy p); eexists; reflexivity.
Qed.

(** On the reference backend [getFileContent] reads the same in every
    world that holds the same repository, and leaves the repository as it
    is. *)
Lemma getFileContent_reference st this p (w : World) :
  servesGithub st this -> remote w = st ->
  fst (GithubAdapter.getFileContent this p w)
  = fst (GithubAdapter.getFileContent this p (fresh st))
  /\ remote (snd (GithubAdapter.getFileContent this p w)) = st.
Proof.
  intros Hserves Hw.
  destruct (route_contents_unchanged st this p Hserves) as (r & Hr).
  unfold GithubAdapter.getFileContent, GithubAdapter.request,
    GithubService.makeRequest, bind, fetch.
  cbn [serve backend remote fresh]. rewrite Hw, Hr.
  destruct (status r =? 401); [split; reflexivity |].
  destruct (negb (ok r)); [split; reflexivity |].
  destruct (_ || _); destruct (payload r); split; reflexivity.
Qed.

End ReferenceFacts.

(** ** The fuel of the scan *)

Section FuelFacts.
Context `{JsRuntime} `{Backend}.
Variable getRepoContents : jsstring -> M (list ContentInfo).

Lemma forEachM_ext {X S} (items : list X) (step1 step2 : X -> S -> M S) :
  (forall item s w, step1 item s w = step2 item s w) ->
  forall s w, forEachM items step1 s w = forEachM items step2 s w.
Proof.
  intros Hstep. induction items as [| item rest IH]; intros s w; cbn [forEachM].
  - reflexivity.
  - unfold bind. rewrite Hstep. destruct (step2 item s w) as [[s' | e] w'];
      [apply IH | reflexivity].
Qed.

(** The depth test is reached before the fuel runs out: with more fuel
    than [maxDepth - depth] the scan is the one of the definition. *)
Lemma scanDirectoryGenericFuel_enough fuel :
  forall p depth maxDepth fileCheck st w,
    (maxDepth - depth < fuel)%nat ->
    BaseGitService.scanDirectoryGenericFuel getRepoContents fuel p depth maxDepth
      fileCheck st w
    = BaseGitService.scanDirectoryGeneric getRepoContents p depth maxDepth
        fileCheck st w.
Proof.
  unfold BaseGitService.scanDirectoryGeneric.
  induction fuel as [| fuel IH]; intros p depth maxDepth fileCheck st w Hfuel;
    [lia |].
  cbn [BaseGitService.scanDirectoryGenericFuel].
  destruct (maxDepth <=? depth)%nat eqn:Hd; [reflexivity |].
  apply Nat.leb_gt in Hd.
  unfold tryCatch, bind at 1. unfold bind at 2.
  destruct (getRepoContents p w) as [[contents | error] w1]; [| reflexivity].
  erewrite forEachM_ext; [reflexivity |].
  intros dir s w0. cbv beta.
  rewrite IH by lia.
  replace (maxDepth - depth)%nat with (S (maxDepth - (depth + 1)))%nat by lia.
  reflexivity.
Qed.

End FuelFacts.

(** ** The requests of a scan through an adapter *)

Section ScanRequests.
Context `{JsRuntime} `{Backend}.

Lemma makeRequest_one_exchange endpoint token options w :
  exists answer,
    traffic (snd (GithubService.makeRequest endpoint token options w))
    = traffic w ++ [(GithubService.requestFor endpoint token options, answer)].
Proof.
  unfold GithubService.makeRequest, bind, fetch.
  destruct (serve (remote w) _) as [remote' answer]. exists answer.
  destruct answer as [r |]; [| reflexivity].
  destruct (status r =? 401); [reflexivity |].
  destruct (negb (ok r)); [reflexivity |].
  destruct (_ || _); destruct (payload r); reflexivity.
Qed.

Lemma makeGiteaRequest_one_exchange endpoint token baseUrl options w :
  exists answer,
    traffic (snd (BaseGiteaService.makeGiteaRequest endpoint token baseUrl options w))
    = traffic w
      ++ [(BaseGiteaService.requestFor endpoint token baseUrl options, answer)].
Proof.
  unfold BaseGiteaService.makeGiteaRequest, bind, fetch.
  destruct (serve (remote w) _) as [remote' answer]. exists answer.
  destruct answer as [r |]; [| reflexivity].
  destruct (status r =? 401); [reflexivity |].
  destruct (negb (ok r)); [reflexivity |].
  destruct (_ || _); destruct (payload r); reflexivity.
Qed.

Lemma getRepoContentsOf_one_exchange adapter p w :
  exists answer,
    traffic (snd (getRepoContentsOf adapter p w))
    = traffic w ++ [(contentsRequest adapter p, answer)].
Proof.
  destruct adapter as [this | this]; cbn [getRepoContentsOf].
  - unfold GithubAdapter.getRepoContents, GithubAdapter.request, bind.
    destruct (makeRequest_one_exchange
                (contentsEndpoint (GithubAdapter.owner this)
                   (GithubAdapter.repoName this) p)
                (GithubAdapter.token this) noOptions w) as (answer & Ht).
    exists answer.
    destruct (GithubService.makeRequest _ _ _ w) as [[contents | e] w1];
      exact Ht.
  - unfold BaseGiteaAdapter.getRepoContents, BaseGiteaAdapter.request, bind.
    destruct (makeGiteaRequest_one_exchange
                (contentsEndpoint (BaseGiteaAdapter.owner this)
                   (BaseGiteaAdapter.repoName this) p)
                (BaseGiteaAdapter.token this) (BaseGiteaAdapter.baseUrl this)
                noOptions w) as (answer & Ht).
    exists answer.
    destruct (BaseGiteaService.makeGiteaRequest _ _ _ _ w) as [[contents | e] w1];
      exact Ht.
Qed.

(** Through an adapter, the scan for content directories sends exactly the
    reads of the paths it lists, in order; each of them is the root or a
    directory entry outside the ignore set. *)
Theorem scanContent_requests adapter w :
  exists st w' exchanges,
    BaseGitService.scanContent (getRepoContentsOf adapter) w = (Ok st, w')
    /\ traffic w' = traffic w ++ exchanges
    /\ map fst exchanges
       = map (fun l => contentsRequest adapter (fst l)) (BaseGitService.listings st)
    /\ forall p r, In (p, r) (BaseGitService.listings st) ->
                   reached (BaseGitService.listings st) p.
Proof.
  unfold BaseGitService.scanContent, BaseGitService.scanDirectoryGeneric.
  destruct (scanDirectoryGenericFuel_traffic (getRepoContentsOf adapter)
              BaseGitService.isMarkdownName (contentsRequest adapter)
              (getRepoContentsOf_one_exchange adapter)
              (S (4 - 0)) [] 0%nat 4%nat BaseGitService.emptyScan w)
    as (st & w' & more & ex & E & Hl & Ht & Hm).
  destruct (scanDirectoryGeneric_root_good (getRepoContentsOf adapter)
              BaseGitService.isMarkdownName 4 w) as (st0 & w0 & E0 & [_ _ G3]).
  unfold BaseGitService.scanDirectoryGeneric in E0. rewrite E in E0.
  injection E0 as <- <-.
  exists st, w', ex. split; [exact E |]. split; [exact Ht |].
  split; [| exact G3]. cbn in Hl. now rewrite Hl.
Qed.

End ScanRequests.

(** ** Reading an empty file *)

(** [getFileContent] takes an empty [content] for a missing one: a file
    written with the empty string cannot be read back. *)
Example getFileContent_empty_file :
  let written :=
    snd (@perform TestRuntime.runtime RefBackend.backend (Github Examples.ann)
           (CreateFileFromString (js "posts/new.md") [] (js "add"))
           (RefBackend.fresh Examples.blog)) in
  fst (@GithubAdapter.getFileContent RefBackend.backend Examples.ann
         (js "posts/new.md") written)
  = Err (PlainError (js "Could not decode file content.")).
Proof. vm_compute. reflexivity. Qed.

(** * The properties of the contract *)

(** C1.  For every path and every hash, [updateFileContent] succeeds exactly
    when the hash is the current remote hash of the path; with any other hash
    it fails with a conflict and the remote state is unchanged.  The backend
    is one that compares and swaps on the hash ([comparesAndSwaps]), and the
    new content is a JavaScript string. *)
Theorem updateFileContent_succeeds_iff_hash_current
    (runtime : JsRuntime) (backend : Backend) (adapter : Adapter)
    (path newContent commitMessage hash : jsstring)
    (current : option jsstring) (w : World) :
  validString newContent ->
  comparesAndSwaps (remote w) adapter path current ->
  let outcome :=
    perform adapter (UpdateFileContent path newContent commitMessage hash) w in
  (isOk (fst outcome) = true <-> current = Some hash)
  /\ (current <> Some hash ->
      exists e, fst outcome = Err e /\ kindOf e = Conflict
                /\ remote (snd outcome) = remote w).
Proof.
  intros Hv Hcas outcome.
  destruct (updateFileContent_compared adapter path newContent commitMessage hash
              current w Hv Hcas) as [Hyes Hno].
  split.
  - split.
    + intros Hok. destruct (current_dec current hash) as [Hc | Hc]; [exact Hc |].
      destruct (Hno Hc) as (e & w' & E & _). unfold outcome in Hok.
      rewrite E in Hok. discriminate.
    + intros Hc. destruct (Hyes Hc) as (w' & E). unfold outcome. now rewrite E.
  - intros Hc. destruct (Hno Hc) as (e & w' & E & Hk & Hr).
    exists e. unfold outcome. rewrite E. now repeat split.
Qed.

Lemma updateFileContent_succeeds_iff_hash_current_witness :
  isOk (fst (@perform TestRuntime.runtime RefBackend.backend
               (Github Examples.ann)
               (UpdateFileContent (js "posts/a.md") (js "hello") (js "edit")
                  (RefBackend.hashOf (js "QQ==")))
               (RefBackend.fresh Examples.blog))) = true
  <-> Some (RefBackend.hashOf (js "QQ==")) = Some (RefBackend.hashOf (js "QQ==")).
Proof.
  refine (proj1 (updateFileContent_succeeds_iff_hash_current
                   TestRuntime.runtime RefBackend.backend (Github Examples.ann)
                   (js "posts/a.md") (js "hello") (js "edit")
                   (RefBackend.hashOf (js "QQ=="))
                   (Some (RefBackend.hashOf (js "QQ==")))
                   (RefBackend.fresh Examples.blog) _ _)).
  - apply JsStringFacts.validString_js.
  - apply (reference_comparesAndSwaps Examples.blog Examples.ann (js "posts/a.md")).
    repeat split.
Defined.

(** Two updates with the same hash, one after the other: the first
    succeeds, the second is refused as a conflict. *)
Example updateFileContent_stale_hash :
  let update :=
    @perform TestRuntime.runtime RefBackend.backend (Github Examples.ann)
      (UpdateFileContent (js "posts/a.md") (js "hello") (js "edit")
         (RefBackend.hashOf (js "QQ=="))) in
  let first := update (RefBackend.fresh Examples.blog) in
  let second := update (snd first) in
  fst first = Ok tt
  /\ (exists e, fst second = Err e /\ kindOf e = Conflict)
  /\ remote (snd second) = remote (snd first).
Proof.
  vm_compute. split; [reflexivity |]. split; [| reflexivity].
  eexists. split; reflexivity.
Qed.




(** C3.  At a path where the backend reports a file, [createFileFromString]
    fails with a conflict whatever the new content: the only exchange with
    the backend is the read of the path, no write is sent and the remote
    state is unchanged. *)
Theorem createFileFromString_existing_conflict
    (runtime : JsRuntime) (backend : Backend) (adapter : Adapter)
    (path newContent commitMessage : jsstring) (w : World)
    (r : Response) (file : GithubContent) :
  reportsFile (remote w) adapter path r file ->
  let outcome :=
    perform adapter (CreateFileFromString path newContent commitMessage) w in
  exists e,
    fst outcome = Err e /\ kindOf e = Conflict
    /\ remote (snd outcome) = remote w
    /\ traffic (snd outcome)
       = traffic w ++ [(contentsRequest adapter path, Responded r)].
Proof.
  intros Hfile outcome. unfold outcome.
  rewrite (createFileFromString_existing adapter path newContent commitMessage w r
             file Hfile).
  eexists. repeat split.
Qed.

Lemma createFileFromString_existing_conflict_witness :
  exists e,
    fst (@perform TestRuntime.runtime RefBackend.backend (Github Examples.ann)
           (CreateFileFromString (js "posts/a.md") (js "anything") (js "add"))
           (RefBackend.fresh Examples.blog)) = Err e
    /\ kindOf e = Conflict.
Proof.
  destruct (createFileFromString_existing_conflict
              TestRuntime.runtime RefBackend.backend (Github Examples.ann)
              (js "posts/a.md") (js "anything") (js "add")
              (RefBackend.fresh Examples.blog)
              {| status := 200; statusText := js "OK";
                 payload := PFile (RefBackend.fileObject
                                     (Examples.stored "posts/a.md" "QQ==")) |}
              (RefBackend.fileObject (Examples.stored "posts/a.md" "QQ==")))
    as (e & He & Hk & _).
  - repeat split; vm_compute; first [reflexivity | discriminate].
  - exists e. now split.
Defined.

(** C4.  Whatever the repository, the scan of [scanForContentDirectories]
    settles, and (1) every path it lists is the root or the path of a
    directory entry, returned by one of its listings, whose lower-cased name
    is outside the ignore set: the contents of an ignored directory are never
    listed; (2) a directory is in the result only if its own listing holds a
    file whose name ends in [.md] or [.mdx]: a file in a subdirectory does
    not qualify the parent. *)
Theorem scanForContentDirectories_prunes_and_hits_directly
    (runtime : JsRuntime) (backend : Backend)
    (getRepoContents : jsstring -> M (list ContentInfo)) (w : World) :
  exists st w',
    BaseGitService.scanContent getRepoContents w = (Ok st, w')
    /\ BaseGitService.scanForContentDirectories getRepoContents w
       = (Ok (BaseGitService.sortPaths (BaseGitService.foundDirs st)
                BaseGitService.contentPreferredDirNames), w')
    /\ (forall p r, In (p, r) (BaseGitService.listings st) ->
          p = []
          \/ exists parent contents dir,
               In (parent, Ok contents) (BaseGitService.listings st)
               /\ In dir contents /\ ci_type dir = js "dir" /\ ci_path dir = p
               /\ ~ In (toLowerCase (ci_name dir)) BaseGitService.ignoredDirs)
    /\ (forall dir,
          In dir (BaseGitService.sortPaths (BaseGitService.foundDirs st)
                    BaseGitService.contentPreferredDirNames) ->
          exists contents file,
            In (dir, Ok contents) (BaseGitService.listings st)
            /\ In file contents /\ ci_type file = js "file"
            /\ (JsString.endsWith (ci_name file) (js ".md") = true
                \/ JsString.endsWith (ci_name file) (js ".mdx") = true)).
Proof.
  destruct (scanDirectoryGeneric_root_good getRepoContents
              BaseGitService.isMarkdownName 4 w) as (st & w' & E & [G1 G2 G3]).
  exists st, w'. split; [exact E |]. split; [| split].
  - unfold BaseGitService.scanForContentDirectories, bind.
    unfold BaseGitService.scanContent in *. now rewrite E.
  - intros p r Hin. exact (G3 p r Hin).
  - intros dir Hdir.
    apply (Permutation_in _ (Permutation_sym (Array_sort_perm _ _))) in Hdir.
    destruct (G2 dir Hdir) as (contents & file & H1 & H2 & H3 & H4).
    exists contents, file. repeat split; try assumption.
    unfold BaseGitService.isMarkdownName in H4. now apply orb_true_iff in H4.
Qed.

(** The directory [docs] of the nested example holds Markdown only below
    [docs/deep], and [node_modules] is ignored: the result is [docs/deep]
    alone. *)
Example scanForContentDirectories_nested :
  fst (@GithubAdapter.scanForContentDirectories TestRuntime.runtime RefBackend.backend
         Examples.ann (RefBackend.fresh Examples.nested))
  = Ok [js "docs/deep"].
Proof. vm_compute. reflexivity. Qed.

(** C5, as amended.  When the directories found by the scan of
    [scanForImageDirectories] include [public/images], the returned list
    starts with a path that is
    [public/images] up to the case of its letters, and with [public/images]
    itself when no other found path differs from it by case only. *)
Theorem scanForImageDirectories_public_images_first
    (runtime : JsRuntime) (backend : Backend)
    (getRepoContents : jsstring -> M (list ContentInfo)) (w : World)
    (st : BaseGitService.ScanState) :
  fst (BaseGitService.scanImages getRepoContents w) = Ok st ->
  In (js "public/images") (BaseGitService.foundDirs st) ->
  toLowerCase (js "public/images") = js "public/images" ->
  exists first rest,
    fst (BaseGitService.scanForImageDirectories getRepoContents w)
    = Ok (first :: rest)
    /\ toLowerCase first = js "public/images"
    /\ ((forall p, In p (BaseGitService.foundDirs st) ->
                   toLowerCase p = js "public/images" -> p = js "public/images") ->
        first = js "public/images").
Proof.
  intros Hscan Hin Hlower.
  set (sorted := BaseGitService.sortPaths (BaseGitService.foundDirs st)
                   BaseGitService.imagePreferredDirNames).
  assert (Hsorted : In (js "public/images") sorted).
  { apply (Permutation_in _ (Array_sort_perm _ _)). exact Hin. }
  assert (Hpub : BaseGitService.isPublicImages (js "public/images") = true).
  { unfold BaseGitService.isPublicImages. rewrite Hlower.
    apply JsStringFacts.eqb_refl. }
  destruct (promotePublicImages_head sorted _ Hsorted Hpub)
    as (first & rest & Hpromoted & Hfirst).
  exists first, rest. split; [| split].
  - unfold BaseGitService.scanForImageDirectories, bind.
    destruct (BaseGitService.scanImages getRepoContents w) as [[st0 | e] w'];
      cbn [fst] in Hscan; [| discriminate].
    injection Hscan as ->. cbn [fst ret]. fold sorted. now rewrite Hpromoted.
  - now apply JsStringFacts.eqb_eq in Hfirst.
  - intros Hunique. apply Hunique.
    + assert (Hs : In first sorted).
      { apply (Permutation_in _ (Permutation_sym (promotePublicImages_perm sorted))).
        rewrite Hpromoted. now left. }
      unfold sorted, BaseGitService.sortPaths in Hs.
      now apply (Permutation_in _ (Permutation_sym (Array_sort_perm _ _))) in Hs.
    + now apply JsStringFacts.eqb_eq in Hfirst.
Qed.

Lemma scanForImageDirectories_public_images_first_witness :
  exists rest,
    fst (@BaseGitService.scanForImageDirectories TestRuntime.runtime RefBackend.backend
           (GithubAdapter.getRepoContents Examples.ann)
           (RefBackend.fresh Examples.blog))
    = Ok (js "public/images" :: rest).
Proof.
  edestruct (scanForImageDirectories_public_images_first
               TestRuntime.runtime RefBackend.backend
               (GithubAdapter.getRepoContents Examples.ann)
               (RefBackend.fresh Examples.blog))
    as (first & rest & Hresult & _ & Hexact).
  - vm_compute. reflexivity.
  - vm_compute. auto.
  - vm_compute. reflexivity.
  - exists rest. rewrite Hresult. do 2 f_equal. apply Hexact.
    intros p Hp Hlow. vm_compute in Hp.
    destruct Hp as [<- | [<- | []]];
      first [reflexivity | vm_compute in Hlow; discriminate].
Defined.

(** C5, the claim as stated fails: the promotion looks for a path that is
    [public/images] in lower case and moves the first one it finds.  With
    pictures in [public/images] and in [Public/Images], on a runtime whose
    [localeCompare] puts the capital first, both directories are found and
    the list starts with [Public/Images]; [public/images] is at index 1. *)
Lemma scanForImageDirectories_case_variant_first :
  (exists st,
     fst (@BaseGitService.scanImages TestRuntime.runtime RefBackend.backend
            (GithubAdapter.getRepoContents Examples.ann)
            (RefBackend.fresh CaseVariants.repository)) = Ok st
     /\ In (js "public/images") (BaseGitService.foundDirs st)
     /\ In (js "Public/Images") (BaseGitService.foundDirs st))
  /\ fst (@BaseGitService.scanForImageDirectories TestRuntime.runtime
            RefBackend.backend (GithubAdapter.getRepoContents Examples.ann)
            (RefBackend.fresh CaseVariants.repository))
     = Ok [js "Public/Images"; js "public/images"]
  /\ ~ (exists rest,
          fst (@BaseGitService.scanForImageDirectories TestRuntime.runtime
                 RefBackend.backend (GithubAdapter.getRepoContents Examples.ann)
                 (RefBackend.fresh CaseVariants.repository))
          = Ok (js "public/images" :: rest)).
Proof.
  assert (Hresult :
            fst (@BaseGitService.scanForImageDirectories TestRuntime.runtime
                   RefBackend.backend (GithubAdapter.getRepoContents Examples.ann)
                   (RefBackend.fresh CaseVariants.repository))
            = Ok [js "Public/Images"; js "public/images"])
    by (vm_compute; reflexivity).
  split; [| split].
  - eexists. split; [vm_compute; reflexivity |].
    split; vm_compute; auto.
  - exact Hresult.
  - intros (rest & Hrest). rewrite Hresult in Hrest. discriminate Hrest.
Qed.

(** C6.  When the backend answers the recursive-tree request with a tree
    marked truncated, [listFiles] returns the file entries of that tree below
    the path: the truncation is logged as a console warning, nothing is
    thrown and no event is dispatched. *)
Theorem listFiles_truncated_tree_is_returned
    (backend : Backend) (adapter : Adapter) (path : jsstring) (w : World)
    (R1 R2 : Remote) (r1 r2 : Response) (repo : GithubRepo) (tree : list TreeItem) :
  answers (remote w) (repoRequest adapter) R1 r1 ->
  payload r1 = PRepo repo ->
  answers R1 (treeRequest adapter (default_branch repo)) R2 r2 ->
  payload r2 = PTree tree true ->
  exists w',
    listFilesOf adapter path w
    = (Ok (map blobInfo (filter (underPath (normalizePath path)) tree)), w')
    /\ console w' = console w ++ [(ConsoleWarn, truncationWarning adapter)]
    /\ events w' = events w.
Proof.
  intros H1 P1 H2 P2. destruct adapter as [this | this]; cbn [listFilesOf].
  - unfold GithubAdapter.listFiles, GithubAdapter.listFilesFast,
      GithubAdapter.getRepoDetails, GithubAdapter.request.
    eexists. split.
    + apply tryCatch_ok.
      erewrite bind_ok by (apply makeRequest_answered; exact H1).
      rewrite P1. cbn [branchOf].
      erewrite bind_ok by (apply makeRequest_answered; exact H2).
      rewrite P2. reflexivity.
    + split; reflexivity.
  - unfold BaseGiteaAdapter.listFiles, BaseGiteaAdapter.listFilesFast,
      BaseGiteaAdapter.getRepoDetails, BaseGiteaAdapter.request.
    eexists. split.
    + apply tryCatch_ok.
      erewrite bind_ok by (apply makeGiteaRequest_answered; exact H1).
      rewrite P1. cbn [branchOf].
      erewrite bind_ok by (apply makeGiteaRequest_answered; exact H2).
      rewrite P2. reflexivity.
    + split; reflexivity.
Qed.

Lemma listFiles_truncated_tree_is_returned_witness :
  exists entries w',
    @listFilesOf RefBackend.backend (Github Examples.ann) (js "posts")
      (RefBackend.fresh Examples.crowded) = (Ok entries, w')
    /\ filePaths entries = [js "posts/a.md"; js "posts/sub/b.md"].
Proof.
  destruct (listFiles_truncated_tree_is_returned RefBackend.backend
              (Github Examples.ann) (js "posts") (RefBackend.fresh Examples.crowded)
              Examples.crowded Examples.crowded
              {| status := 200; statusText := js "OK"; payload := PRepo Examples.site |}
              {| status := 200; statusText := js "OK";
                 payload := PTree (firstn 2 (RefBackend.treeItems
                                               (RefBackend.files Examples.crowded)))
                              true |}
              Examples.site
              (firstn 2 (RefBackend.treeItems (RefBackend.files Examples.crowded))))
    as (w' & Hresult & _).
  - repeat split; vm_compute; first [reflexivity | discriminate].
  - reflexivity.
  - repeat split; vm_compute; first [reflexivity | discriminate].
  - reflexivity.
  - eexists _, w'. split; [exact Hresult |]. vm_compute. reflexivity.
Defined.

(** C7.  Every operation of an adapter, on any backend and in any world,
    dispatches one [auth-error] event on [window] for each answer of status
    401 it receives, and no other event: whenever an answer to the operation
    has status 401, an [auth-error] event is among the events dispatched by
    the time the operation settles, whether it settles with an error or not. *)
Theorem auth_failure_dispatches_auth_error
    (runtime : JsRuntime) (backend : Backend)
    (adapter : Adapter) (op : Operation) (w : World) :
  exists exchanges dispatched,
    traffic (snd (perform adapter op w)) = traffic w ++ exchanges
    /\ events (snd (perform adapter op w)) = events w ++ dispatched
    /\ List.length (filter isAuthFailure exchanges) = List.length dispatched
    /\ Forall (fun e => e = js "auth-error") dispatched
    /\ ((exists req r, In (req, Responded r) exchanges /\ status r = 401) <->
        In (js "auth-error") dispatched).
Proof.
  destruct (signals_perform adapter op w) as (x & d & [Ht He] & Hlen & Hall).
  exists x, d. repeat split; try assumption.
  - eapply Forall_impl; [| exact Hall]. intros e He'.
    now apply JsStringFacts.eqb_eq in He'.
  - intros (req & r & Hin & Hs).
    assert (Hf : In (req, Responded r) (filter isAuthFailure x)).
    { apply filter_In. split; [exact Hin |]. unfold isAuthFailure. cbn.
      now apply Z.eqb_eq. }
    destruct d as [| e d].
    + destruct (filter isAuthFailure x); [destruct Hf | discriminate].
    + inversion_clear Hall as [| ? ? He' _].
      apply JsStringFacts.eqb_eq in He'. subst e. now left.
  - intros Hin.
    destruct (filter isAuthFailure x) as [| [req answer] rest] eqn:Hf.
    + destruct d; [destruct Hin | discriminate].
    + assert (Hx : In (req, answer) (filter isAuthFailure x))
        by (rewrite Hf; now left).
      apply filter_In in Hx as [Hx Ha]. unfold isAuthFailure in Ha. cbn in Ha.
      destruct answer as [r |]; [| discriminate].
      exists req, r. split; [exact Hx | now apply Z.eqb_eq].
Qed.

(** An update with a token the backend does not accept: the request is
    answered 401, the operation throws and [auth-error] is dispatched. *)
Example updateFileContent_unauthorised :
  let outcome :=
    @perform TestRuntime.runtime RefBackend.backend
      (Github (GithubAdapter.new (js "expired") (js "ann") (js "site")))
      (UpdateFileContent (js "posts/a.md") (js "hello") (js "edit")
         (RefBackend.hashOf (js "QQ==")))
      (RefBackend.fresh Examples.blog) in
  fst outcome = Err Unauthorized
  /\ events (snd outcome) = [js "auth-error"]
  /\ remote (snd outcome) = Examples.blog.
Proof. vm_compute. repeat split. Qed.

(** C8.  [findProductionUrl] never throws; over a repository whose files read
    the same throughout the call, its result is the production URL of the
    contract ([UrlContract.productionUrl], which is written from the
    contract and shares nothing with the code): the first URL found in the
    fixed list of sources taken in priority order (the Astro configuration
    files, then the YAML, TypeScript and JavaScript configuration files,
    then the homepage of [package.json]), with its trailing slash stripped;
    a file whose read fails is passed over, and the result is [null] when
    no source yields a URL. *)
Theorem findProductionUrl_first_url_in_priority_order
    (runtime : JsRuntime) (backend : Backend)
    (getFileContent : jsstring -> M jsstring)
    (read : jsstring -> Result jsstring) (stable : World -> Prop) (w : World) :
  (forall p w0, stable w0 ->
     fst (getFileContent p w0) = read p /\ stable (snd (getFileContent p w0))) ->
  stable w ->
  fst (BaseGitService.findProductionUrl getFileContent w)
  = Ok (UrlContract.productionUrl read)
  /\ (forall getFileContent' w0, exists found w',
        BaseGitService.findProductionUrl getFileContent' w0 = (Ok found, w')).
Proof.
  intros Hreads Hw. split.
  - rewrite (findProductionUrl_first getFileContent read stable Hreads w Hw).
    f_equal. apply urlsFound_productionUrl.
  - intros g w0. apply findProductionUrl_settles.
Qed.

(** With a URL in [astro.config.ts] and a homepage in the manifest, the
    configuration file wins; with the manifest alone, its homepage is the
    result; each time the trailing slash is stripped. *)
Lemma findProductionUrl_first_url_in_priority_order_witness :
  fst (@GithubAdapter.findProductionUrl TestRuntime.runtime RefBackend.backend
         Examples.ann (RefBackend.fresh Examples.configured))
  = Ok (Some (js "https://example.org"))
  /\ fst (@GithubAdapter.findProductionUrl TestRuntime.runtime RefBackend.backend
            Examples.ann (RefBackend.fresh ManifestOnly.repository))
     = Ok (Some (js "https://example.com")).
Proof.
  split.
  - refine (eq_trans
              (proj1 (findProductionUrl_first_url_in_priority_order
                        TestRuntime.runtime RefBackend.backend
                        (GithubAdapter.getFileContent Examples.ann)
                        (fun p =>
                           fst (GithubAdapter.getFileContent Examples.ann p
                                  (RefBackend.fresh Examples.configured)))
                        (fun w => remote w = Examples.configured)
                        (RefBackend.fresh Examples.configured) _ eq_refl))
              _).
    + intros p w0 Hw0.
      apply (getFileContent_reference Examples.configured Examples.ann p w0);
        [repeat split | exact Hw0].
    + vm_compute. reflexivity.
  - refine (eq_trans
              (proj1 (findProductionUrl_first_url_in_priority_order
                        TestRuntime.runtime RefBackend.backend
                        (GithubAdapter.getFileContent Examples.ann)
                        (fun p =>
                           fst (GithubAdapter.getFileContent Examples.ann p
                                  (RefBackend.fresh ManifestOnly.repository)))
                        (fun w => remote w = ManifestOnly.repository)
                        (RefBackend.fresh ManifestOnly.repository) _ eq_refl))
              _).
    + intros p w0 Hw0.
      apply (getFileContent_reference ManifestOnly.repository Examples.ann p w0);
        [repeat split | exact Hw0].
    + vm_compute. reflexivity.
Defined.

(** The order of the list decides: with a URL in [astro.config.ts], in
    [src/config.yml] and in the manifest, the first is returned; with the
    manifest alone, its homepage, the trailing slash removed; with no file
    at all, [null]. *)
Example findProductionUrl_examples :
  fst (@BaseGitService.findProductionUrl TestRuntime.runtime RefBackend.backend
         (Examples.reading Examples.configFiles) (RefBackend.fresh Examples.blog))
  = Ok (Some (js "https://example.org"))
  /\ fst (@BaseGitService.findProductionUrl TestRuntime.runtime RefBackend.backend
            (Examples.reading Examples.manifestOnly) (RefBackend.fresh Examples.blog))
     = Ok (Some (js "https://example.com"))
  /\ fst (@GithubAdapter.findProductionUrl TestRuntime.runtime RefBackend.backend
            Examples.ann (RefBackend.fresh Examples.blog))
     = Ok None.
Proof. repeat split; vm_compute; reflexivity. Qed.

(** C9, as amended.  For every well-formed string that does not start with
    U+FEFF, [base64Encode] yields a text that the decoding of
    [getFileContent] ([atob], the byte loop and the UTF-8 [TextDecoder])
    turns back into the string. *)
Theorem decode_base64Encode_roundtrip (s : jsstring) :
  Encoding.wellFormed s = true ->
  hd 0 s <> Encoding.byteOrderMark ->
  exists content,
    Encoding.base64Encode s = Ok content
    /\ Encoding.decodeContent content = Ok s.
Proof.
  intros Hwf Hbom.
  pose proof (EncodingFacts.TextEncoder_bytes s Hwf) as Hbytes.
  destruct (EncodingFacts.wellFormed_scalars s Hwf) as (Hscalar & Hback & Hhead).
  unfold Encoding.base64Encode.
  (* the binary string holds the bytes themselves *)
  rewrite (EncodingFacts.map_id_on Encoding.fromCharCode isByte) by
    (auto; unfold Encoding.fromCharCode, isByte; intros; lia).
  (* base64 there and back *)
  destruct (EncodingFacts.atob_btoa _ Hbytes) as (text & Hencoded & Hdecoded).
  exists text. split; [exact Hencoded |].
  unfold Encoding.decodeContent, Encoding.decodeBytes. rewrite Hdecoded.
  rewrite (EncodingFacts.map_id_on (fun c => c mod 256) isByte) by
    (auto; unfold isByte; intros; lia).
  (* UTF-8 there and back, and no byte order mark to drop *)
  f_equal. unfold Encoding.TextDecoder_decode, Encoding.TextEncoder_encode.
  rewrite (EncodingFacts.utf8Decode_encode _ Hscalar).
  destruct (Encoding.toScalarValues s) as [| cp cps] eqn:E; [exact Hback |].
  destruct (Z.eqb_spec cp Encoding.byteOrderMark) as [Hcp | _]; [| exact Hback].
  exfalso. apply Hbom, Hhead. exact Hcp.
Qed.

Lemma decode_base64Encode_roundtrip_witness :
  exists content,
    Encoding.base64Encode [72; 233; 8364; 55357; 56832] = Ok content
    /\ Encoding.decodeContent content = Ok [72; 233; 8364; 55357; 56832].
Proof.
  apply (decode_base64Encode_roundtrip [72; 233; 8364; 55357; 56832]).
  - reflexivity.
  - cbn. unfold Encoding.byteOrderMark. lia.
Defined.

(** C9, the claim as stated fails: the one-character string U+FEFF is well
    formed, and what [base64Encode] makes of it is decoded to the empty
    string. *)
Lemma roundtrip_drops_leading_byte_order_mark :
  Encoding.wellFormed [65279] = true
  /\ exists content,
       Encoding.base64Encode [65279] = Ok content
       /\ Encoding.decodeContent content = Ok []
       /\ Encoding.decodeContent content <> Ok [65279].
Proof.
  split; [reflexivity |].
  exists (js "77u/"). split; [reflexivity |]. split; [reflexivity |].
  vm_compute. discriminate.
Qed.

(** C10.  Whatever the repository, the lists returned by
    [scanForContentDirectories] and [scanForImageDirectories] never hold the
    empty path: the root is never reported. *)
Theorem scans_never_report_the_root
    (runtime : JsRuntime) (backend : Backend)
    (getRepoContents : jsstring -> M (list ContentInfo)) (w : World) :
  (exists dirs w',
     BaseGitService.scanForContentDirectories getRepoContents w = (Ok dirs, w')
     /\ ~ In [] dirs)
  /\ (exists dirs w',
        BaseGitService.scanForImageDirectories getRepoContents w = (Ok dirs, w')
        /\ ~ In [] dirs).
Proof.
  split.
  - destruct (scanDirectoryGeneric_root_good getRepoContents
                BaseGitService.isMarkdownName 4 w) as (st & w' & E & [G1 _ _]).
    eexists _, w'. split.
    + unfold BaseGitService.scanForContentDirectories, bind,
        BaseGitService.scanContent. rewrite E. reflexivity.
    + intros Hin.
      apply (Permutation_in _ (Permutation_sym (Array_sort_perm _ _))) in Hin.
      now apply (G1 [] Hin).
  - destruct (scanDirectoryGeneric_root_good getRepoContents
                BaseGitService.isImageName 4 w) as (st & w' & E & [G1 _ _]).
    eexists _, w'. split.
    + unfold BaseGitService.scanForImageDirectories, bind,
        BaseGitService.scanImages. rewrite E. reflexivity.
    + intros Hin.
      apply (Permutation_in _ (Permutation_sym (promotePublicImages_perm _))) in Hin.
      apply (Permutation_in _ (Permutation_sym (Array_sort_perm _ _))) in Hin.
      now apply (G1 [] Hin).
Qed.

(** A root that holds a Markdown file itself is not reported. *)
Example scanForContentDirectories_root_file :
  fst (@GithubAdapter.scanForContentDirectories TestRuntime.runtime RefBackend.backend
         Examples.ann (RefBackend.fresh Examples.nested))
  = Ok [js "docs/deep"]
  /\ In (js "README.md")
        (map RefBackend.sf_path (RefBackend.files Examples.nested)).
Proof. split; [vm_compute; reflexivity | vm_compute; auto]. Qed.

(** * Further properties of the content layer *)

(** ** Helpers: strings *)

Section StringHelpers.

Lemma includes_app a p b : JsString.includes (a ++ p ++ b) p = true.
Proof.
  induction a as [| x a IH]; cbn [app].
  - destruct (p ++ b) eqn:E; cbn [JsString.includes];
      rewrite <- E, JsStringFacts.startsWith_app; reflexivity.
  - cbn [JsString.includes]. rewrite IH. apply orb_true_r.
Qed.

Lemma filter_filter {A} (f : A -> bool) l : filter f (filter f l) = filter f l.
Proof.
  induction l as [| x l IH]; [reflexivity |]. cbn [filter].
  destruct (f x) eqn:E; [| exact IH]. cbn [filter]. now rewrite E, IH.
Qed.

(** [atob] does not see the whitespace of a wrapped text. *)
Lemma atob_wrapped content text :
  wrappedAs content text -> Encoding.atob content = Encoding.atob text.
Proof.
  unfold wrappedAs. intros <-. unfold Encoding.atob. now rewrite filter_filter.
Qed.

End StringHelpers.

(** ** Helpers: one request *)

Section RequestHelpers.
Context `{JsRuntime} `{Backend}.

Lemma requestM_answered adapter endpoint options w R' r :
  answers (remote w) (requestOf adapter endpoint options) R' r ->
  requestM adapter endpoint options w
  = (Ok (payload r), after w R' (requestOf adapter endpoint options) (Responded r)).
Proof.
  destruct adapter as [this | this]; intros Hans.
  - now apply makeRequest_answered.
  - now apply makeGiteaRequest_answered.
Qed.

(** A refusal other than 401 is thrown as an error that carries the status
    and its text. *)
Lemma requestM_refused adapter endpoint options w R' r :
  serve (remote w) (requestOf adapter endpoint options) = (R', Responded r) ->
  ok r = false -> status r <> 401 ->
  exists prefix detail,
    requestM adapter endpoint options w
    = (Err (HttpError prefix (status r) (statusText r) detail),
       after w R' (requestOf adapter endpoint options) (Responded r)).
Proof.
  intros E Hok Hs. apply Z.eqb_neq in Hs.
  destruct adapter as [this | this]; cbn [requestM requestOf] in *.
  - unfold GithubAdapter.request, GithubService.makeRequest, bind, fetch.
    rewrite E, Hs, Hok. cbn [negb]. eexists _, _. reflexivity.
  - unfold BaseGiteaAdapter.request, BaseGiteaService.makeGiteaRequest, bind, fetch.
    rewrite E, Hs, Hok. cbn [negb]. eexists _, _. reflexivity.
Qed.

(** An answer of status 401 is thrown as [Unauthorized], after the
    [auth-error] event. *)
Lemma requestM_unauthorized adapter endpoint options w R' r :
  serve (remote w) (requestOf adapter endpoint options) = (R', Responded r) ->
  status r = 401 ->
  exists w',
    requestM adapter endpoint options w = (Err Unauthorized, w')
    /\ remote w' = R'
    /\ traffic w' = traffic w ++ [(requestOf adapter endpoint options, Responded r)]
    /\ events w' = events w ++ [js "auth-error"]
    /\ console w' = console w.
Proof.
  intros E Hs. apply Z.eqb_eq in Hs.
  destruct adapter as [this | this]; cbn [requestM requestOf] in *.
  - unfold GithubAdapter.request, GithubService.makeRequest, bind, fetch,
      dispatchEvent, throw.
    rewrite E, Hs. eexists. split; [reflexivity |]. now repeat split.
  - unfold BaseGiteaAdapter.request, BaseGiteaService.makeGiteaRequest, bind, fetch,
      dispatchEvent, throw.
    rewrite E, Hs. eexists. split; [reflexivity |]. now repeat split.
Qed.

End RequestHelpers.

(** ** The transport encoding *)

(** X1.  [base64Encode] never throws, whatever the string: for every string
    of code units it yields a text, and the decoding of [getFileContent]
    turns that text into the string of the scalar values of the input (a lone
    surrogate read as U+FFFD) without a leading U+FEFF. *)
Theorem base64Encode_decodes_to_scalar_values (s : jsstring) :
  validString s ->
  exists content,
    Encoding.base64Encode s = Ok content
    /\ Encoding.decodeContent content
       = Ok (Encoding.fromCodePoints
               (withoutByteOrderMark (Encoding.toScalarValues s))).
Proof.
  intros Hv.
  pose proof (EncodingFacts.TextEncoder_bytes_valid s Hv) as Hbytes.
  pose proof (EncodingFacts.toScalarValues_scalar s Hv) as Hscalar.
  unfold Encoding.base64Encode.
  rewrite (EncodingFacts.map_id_on Encoding.fromCharCode isByte) by
    (auto; unfold Encoding.fromCharCode, isByte; intros; lia).
  destruct (EncodingFacts.atob_btoa _ Hbytes) as (text & Hencoded & Hdecoded).
  exists text. split; [exact Hencoded |].
  unfold Encoding.decodeContent, Encoding.decodeBytes. rewrite Hdecoded.
  rewrite (EncodingFacts.map_id_on (fun c => c mod 256) isByte) by
    (auto; unfold isByte; intros; lia).
  unfold Encoding.TextDecoder_decode, Encoding.TextEncoder_encode.
  rewrite (EncodingFacts.utf8Decode_encode _ Hscalar). reflexivity.
Qed.

Lemma base64Encode_decodes_to_scalar_values_witness :
  exists content,
    Encoding.base64Encode [65279; 72; 55357; 233] = Ok content
    /\ Encoding.decodeContent content = Ok [72; 65533; 233].
Proof.
  apply (base64Encode_decodes_to_scalar_values [65279; 72; 55357; 233]).
  repeat constructor; lia.
Defined.

(** X2.  What [base64Encode] yields is padded base64: its length is a
    multiple of four and each of its characters is of the base64 alphabet or
    the equals sign. *)
Theorem base64Encode_yields_padded_base64 (s : jsstring) :
  validString s ->
  exists content,
    Encoding.base64Encode s = Ok content
    /\ Z.of_nat (List.length content) mod 4 = 0
    /\ Forall (fun c => Encoding.isBase64Char c = true \/ c = Encoding.equalsSign)
         content.
Proof.
  intros Hv.
  pose proof (EncodingFacts.TextEncoder_bytes_valid s Hv) as Hbytes.
  unfold Encoding.base64Encode.
  rewrite (EncodingFacts.map_id_on Encoding.fromCharCode isByte) by
    (auto; unfold Encoding.fromCharCode, isByte; intros; lia).
  set (bytes := Encoding.TextEncoder_encode s) in *.
  unfold Encoding.btoa.
  assert (Hin : forallb (Encoding.inRange 0 255) bytes = true).
  { apply forallb_forall. intros b Hb.
    apply EncodingFacts.inRange_true.
    exact (proj1 (Forall_forall _ _) Hbytes b Hb). }
  rewrite Hin. eexists. split; [reflexivity |]. split.
  - rewrite length_app, length_map, Nat2Z.inj_add.
    destruct (EncodingFacts.sextets_length bytes)
      as [(_ & -> & Hl) | [(_ & -> & Hl) | (_ & -> & Hl)]]; cbn [List.length];
      revert Hl; generalize (Z.of_nat (List.length (Encoding.sextets bytes)));
      intros n Hl; rewrite Z.add_mod by lia; rewrite Hl; reflexivity.
  - apply Forall_app. split.
    + apply Forall_forall. intros c Hc. apply in_map_iff in Hc as (v & <- & Hv').
      left. apply EncodingFacts.isBase64Char_Char.
      exact (proj1 (Forall_forall _ _) (EncodingFacts.sextets_range bytes Hbytes) v Hv').
    + unfold Encoding.padding.
      destruct (Z.of_nat (List.length bytes) mod 3) as [| [ [] | [] | ] |];
        repeat constructor; now right.
Qed.

Lemma base64Encode_yields_padded_base64_witness :
  exists content,
    Encoding.base64Encode [72; 233] = Ok content
    /\ Z.of_nat (List.length content) mod 4 = 0
    /\ Forall (fun c => Encoding.isBase64Char c = true \/ c = Encoding.equalsSign)
         content.
Proof.
  apply (base64Encode_yields_padded_base64 [72; 233]).
  repeat constructor; lia.
Defined.

(** ** Reading a file *)

Section Reads.
Context `{JsRuntime} `{Backend}.

Lemma wrapped_nonempty_truthy content : content <> [] -> JsString.truthy content = true.
Proof. now destruct content. Qed.

(** X3.  [getFileContent] reads back what [base64Encode] wrote: when the
    backend answers the read of a path with a file whose base64 content is
    the encoding of a well-formed string without a leading U+FEFF, with
    whitespace put in or not, the result is that string, after one
    exchange. *)
Theorem getFileContent_reads_back_encoded_text
    (adapter : Adapter) (path s encoded content : jsstring)
    (file : GithubContent) (w : World) (R' : Remote) (r : Response) :
  Encoding.wellFormed s = true ->
  hd 0 s <> Encoding.byteOrderMark ->
  Encoding.base64Encode s = Ok encoded ->
  wrappedAs content encoded ->
  content <> [] ->
  answers (remote w) (contentsRequest adapter path) R' r ->
  payload r = PFile file ->
  ci_content file = Some content ->
  ci_encoding file = Some (js "base64") ->
  getFileContentOf adapter path w
  = (Ok s, after w R' (contentsRequest adapter path) (Responded r)).
Proof.
  intros Hwf Hbom Henc Hwrap Hne Hans Hfile Hcontent Hencoding.
  assert (Hdecode : Encoding.decodeContent content = Ok s).
  { pose proof (EncodingFacts.TextEncoder_bytes s Hwf) as Hbytes.
    destruct (EncodingFacts.wellFormed_scalars s Hwf) as (Hscalar & Hback & Hhead).
    unfold Encoding.base64Encode in Henc.
    rewrite (EncodingFacts.map_id_on Encoding.fromCharCode isByte) in Henc by
      (auto; unfold Encoding.fromCharCode, isByte; intros; lia).
    destruct (EncodingFacts.atob_btoa _ Hbytes) as (text & Hencoded & Hdecoded).
    rewrite Hencoded in Henc. injection Henc as ->.
    unfold Encoding.decodeContent, Encoding.decodeBytes.
    rewrite (atob_wrapped content encoded Hwrap), Hdecoded.
    rewrite (EncodingFacts.map_id_on (fun c => c mod 256) isByte) by
      (auto; unfold isByte; intros; lia).
    f_equal. unfold Encoding.TextDecoder_decode, Encoding.TextEncoder_encode.
    rewrite (EncodingFacts.utf8Decode_encode _ Hscalar).
    destruct (Encoding.toScalarValues s) as [| cp cps] eqn:E; [exact Hback |].
    destruct (Z.eqb_spec cp Encoding.byteOrderMark) as [Hcp | _]; [| exact Hback].
    exfalso. apply Hbom, Hhead. exact Hcp. }
  pose proof (requestM_answered adapter _ _ w R' r Hans) as Hreq.
  destruct adapter as [this | this]; cbn [getFileContentOf requestM] in *.
  - unfold GithubAdapter.getFileContent.
    rewrite (bind_ok _ _ _ _ _ Hreq). unfold lift. f_equal.
    unfold GithubAdapter.decodeFileData.
    rewrite Hfile, Hcontent, Hencoding, (wrapped_nonempty_truthy _ Hne).
    exact Hdecode.
  - unfold BaseGiteaAdapter.getFileContent.
    rewrite (bind_ok _ _ _ _ _ Hreq). unfold lift. f_equal.
    unfold BaseGiteaAdapter.decodeFileData.
    rewrite Hfile, Hcontent, Hencoding, (wrapped_nonempty_truthy _ Hne).
    exact Hdecode.
Qed.

(** X4.  [getFileAsBlob] returns the bytes that were encoded: when the
    backend answers the read of a path with a file whose base64 content
    is what [btoa] makes of a sequence of bytes, with whitespace put in or
    not, the blob holds exactly these bytes, under the type that goes with
    the name of the file. *)
Theorem getFileAsBlob_returns_the_encoded_bytes
    (adapter : Adapter) (path : jsstring) (bytes : list Z) (text content : jsstring)
    (file : GithubContent) (w : World) (R' : Remote) (r : Response) :
  Forall isByte bytes ->
  Encoding.btoa bytes = Ok text ->
  wrappedAs content text ->
  content <> [] ->
  answers (remote w) (contentsRequest adapter path) R' r ->
  payload r = PFile file ->
  ci_content file = Some content ->
  ci_encoding file = Some (js "base64") ->
  getFileAsBlobOf adapter path w
  = (Ok {| blob_bytes := bytes; blob_type := mimeTypeOf (ci_name file) |},
     after w R' (contentsRequest adapter path) (Responded r)).
Proof.
  intros Hbytes Henc Hwrap Hne Hans Hfile Hcontent Hencoding.
  assert (Hdecode : Encoding.decodeBytes content = Ok bytes).
  { destruct (EncodingFacts.atob_btoa _ Hbytes) as (text' & Hencoded & Hdecoded).
    rewrite Hencoded in Henc. injection Henc as ->.
    unfold Encoding.decodeBytes.
    rewrite (atob_wrapped content text Hwrap), Hdecoded.
    rewrite (EncodingFacts.map_id_on (fun c => c mod 256) isByte) by
      (auto; unfold isByte; intros; lia).
    reflexivity. }
  pose proof (requestM_answered adapter _ _ w R' r Hans) as Hreq.
  destruct adapter as [this | this]; cbn [getFileAsBlobOf requestM] in *.
  - unfold GithubAdapter.getFileAsBlob.
    rewrite (bind_ok _ _ _ _ _ Hreq).
    rewrite Hfile, Hcontent, Hencoding, (wrapped_nonempty_truthy _ Hne).
    cbn [andb JsString.eqb]. rewrite Hdecode. reflexivity.
  - unfold BaseGiteaAdapter.getFileAsBlob.
    rewrite (bind_ok _ _ _ _ _ Hreq).
    rewrite Hfile, Hcontent, Hencoding, (wrapped_nonempty_truthy _ Hne).
    cbn [andb JsString.eqb]. rewrite Hdecode. reflexivity.
Qed.

(** X5.  An empty file cannot be read: when the backend answers the read
    of a path with a file whose content is the empty string, both
    [getFileContent] and [getFileAsBlob] throw their own error, as they do
    for an answer without content. *)
Theorem empty_file_cannot_be_read
    (adapter : Adapter) (path : jsstring) (file : GithubContent)
    (w : World) (R' : Remote) (r : Response) :
  answers (remote w) (contentsRequest adapter path) R' r ->
  payload r = PFile file ->
  ci_content file = Some [] ->
  fst (getFileContentOf adapter path w) = Err (PlainError (decodeFailure adapter))
  /\ fst (getFileAsBlobOf adapter path w)
     = Err (PlainError (js "Could not get file content for path: " ++ path)).
Proof.
  intros Hans Hfile Hcontent.
  pose proof (requestM_answered adapter _ _ w R' r Hans) as Hreq.
  destruct adapter as [this | this];
    cbn [getFileContentOf getFileAsBlobOf requestM decodeFailure] in *.
  - unfold GithubAdapter.getFileContent, GithubAdapter.getFileAsBlob.
    rewrite !(bind_ok _ _ _ _ _ Hreq). unfold GithubAdapter.decodeFileData.
    rewrite Hfile, Hcontent. destruct (ci_encoding file); split; reflexivity.
  - unfold BaseGiteaAdapter.getFileContent, BaseGiteaAdapter.getFileAsBlob.
    rewrite !(bind_ok _ _ _ _ _ Hreq). unfold BaseGiteaAdapter.decodeFileData.
    rewrite Hfile, Hcontent. destruct (ci_encoding file); split; reflexivity.
Qed.

End Reads.

Lemma getFileContent_reads_back_encoded_text_witness :
  fst (@getFileContentOf RefBackend.backend (Github Examples.ann) (js "notes/hello.md")
         (RefBackend.fresh MoreExamples.notes))
  = Ok (js "Hello").
Proof.
  rewrite (@getFileContent_reads_back_encoded_text RefBackend.backend
             (Github Examples.ann) (js "notes/hello.md") (js "Hello")
             (js "SGVsbG8=") (js "SGVs" ++ [10] ++ js "bG8=")
             (RefBackend.fileObject MoreExamples.hello)
             (RefBackend.fresh MoreExamples.notes) MoreExamples.notes
             (MoreExamples.fileAnswer MoreExamples.hello)).
  - reflexivity.
  - reflexivity.
  - cbn. unfold Encoding.byteOrderMark. lia.
  - vm_compute. reflexivity.
  - vm_compute. reflexivity.
  - discriminate.
  - repeat split; vm_compute; first [reflexivity | discriminate].
  - reflexivity.
  - reflexivity.
  - reflexivity.
Defined.

Lemma getFileAsBlob_returns_the_encoded_bytes_witness :
  fst (@getFileAsBlobOf TestRuntime.runtime RefBackend.backend (Github Examples.ann)
         (js "notes/dot.PNG") (RefBackend.fresh MoreExamples.notes))
  = Ok {| blob_bytes := [137; 80; 78; 71]; blob_type := js "image/png" |}.
Proof.
  rewrite (@getFileAsBlob_returns_the_encoded_bytes TestRuntime.runtime
             RefBackend.backend
             (Github Examples.ann) (js "notes/dot.PNG") [137; 80; 78; 71]
             (js "iVBORw==") (js "iVBO" ++ [13; 10] ++ js "Rw==")
             (RefBackend.fileObject MoreExamples.dot)
             (RefBackend.fresh MoreExamples.notes) MoreExamples.notes
             (MoreExamples.fileAnswer MoreExamples.dot)).
  - reflexivity.
  - repeat constructor; unfold isByte; lia.
  - vm_compute. reflexivity.
  - vm_compute. reflexivity.
  - discriminate.
  - repeat split; vm_compute; first [reflexivity | discriminate].
  - reflexivity.
  - reflexivity.
  - reflexivity.
Defined.

Lemma empty_file_cannot_be_read_witness :
  fst (@getFileContentOf RefBackend.backend (Github Examples.ann) (js "notes/empty.md")
         (RefBackend.fresh MoreExamples.notes))
  = Err (PlainError (js "Could not decode file content."))
  /\ fst (@getFileAsBlobOf TestRuntime.runtime RefBackend.backend (Github Examples.ann)
            (js "notes/empty.md") (RefBackend.fresh MoreExamples.notes))
     = Err (PlainError (js "Could not get file content for path: notes/empty.md")).
Proof.
  apply (@empty_file_cannot_be_read TestRuntime.runtime RefBackend.backend
           (Github Examples.ann) (js "notes/empty.md")
           (RefBackend.fileObject MoreExamples.empty)
           (RefBackend.fresh MoreExamples.notes) MoreExamples.notes
           (MoreExamples.fileAnswer MoreExamples.empty)).
  - repeat split; vm_compute; first [reflexivity | discriminate].
  - reflexivity.
  - reflexivity.
Defined.

(** ** Looking up the hash of a path *)

Section HashLookup.
Context `{JsRuntime} `{Backend}.

Lemma getFileShaOf_unfold adapter path w :
  getFileShaOf adapter path w
  = tryCatch
      (fileData <- requestM adapter (contentsEndpointOf adapter path) noOptions ;;
       ret (shaOf fileData))
      (fun error =>
         if JsString.includes (message error) (js "404") then ret None
         else throw error) w.
Proof. destruct adapter; reflexivity. Qed.

Lemma getFileShaOf_refused adapter path w R' e :
  requestM adapter (contentsEndpointOf adapter path) noOptions w = (Err e, R') ->
  getFileShaOf adapter path w
  = ((if JsString.includes (message e) (js "404") then Ok None else Err e), R').
Proof.
  intros E. rewrite getFileShaOf_unfold. unfold tryCatch.
  rewrite (bind_err _ _ _ _ _ E).
  destruct (JsString.includes _ _); reflexivity.
Qed.

(** X6.  [getFileSha] takes a 404 for absence: when the backend answers
    the read of the path with status 404 the lookup resolves to
    [undefined], after that one exchange and without an event. *)
Theorem getFileSha_of_missing_path_is_undefined
    (adapter : Adapter) (path : jsstring) (w : World) (R' : Remote) (r : Response) :
  serve (remote w) (contentsRequest adapter path) = (R', Responded r) ->
  status r = 404 ->
  getFileShaOf adapter path w
  = (Ok None, after w R' (contentsRequest adapter path) (Responded r)).
Proof.
  intros E Hs.
  destruct (requestM_refused adapter (contentsEndpointOf adapter path) noOptions
              w R' r E) as (prefix & detail & Hreq).
  { unfold ok. rewrite Hs. reflexivity. }
  { rewrite Hs. discriminate. }
  rewrite (getFileShaOf_refused _ _ _ _ _ Hreq). rewrite Hs.
  cbn [message]. change (JsString.decimal 404) with (js "404").
  now rewrite includes_app.
Qed.

(** X7.  [getFileSha] does not take a rejected token for absence: an
    answer of status 401 is thrown as the authentication error, after the
    [auth-error] event, so that [createFileFromString] and [uploadFile]
    stop there and send no write. *)
Theorem getFileSha_rethrows_unauthorized
    (adapter : Adapter) (path : jsstring) (w : World) (R' : Remote) (r : Response) :
  serve (remote w) (contentsRequest adapter path) = (R', Responded r) ->
  status r = 401 ->
  exists w',
    getFileShaOf adapter path w = (Err Unauthorized, w')
    /\ (forall newContent commitMessage,
          createFileFromStringOf adapter path newContent commitMessage w
          = (Err Unauthorized, w'))
    /\ traffic w' = traffic w ++ [(contentsRequest adapter path, Responded r)]
    /\ events w' = events w ++ [js "auth-error"].
Proof.
  intros E Hs.
  destruct (requestM_unauthorized adapter (contentsEndpointOf adapter path)
              noOptions w R' r E Hs) as (w' & Hreq & _ & Ht & He & _).
  pose proof (getFileShaOf_refused _ _ _ _ _ Hreq) as Hsha.
  change (JsString.includes (message Unauthorized) (js "404")) with false in Hsha.
  exists w'. split; [exact Hsha |]. split; [| split; assumption].
  intros newContent commitMessage.
  destruct adapter as [this | this]; cbn [createFileFromStringOf getFileShaOf] in *.
  - unfold GithubAdapter.createFileFromString. now apply bind_err.
  - unfold BaseGiteaAdapter.createFileFromString. now apply bind_err.
Qed.

(** A refusal other than 401 is thrown as the error of the adapter for
    the answer. *)
Lemma requestM_refusal adapter endpoint options w R' r :
  serve (remote w) (requestOf adapter endpoint options) = (R', Responded r) ->
  ok r = false -> status r <> 401 ->
  requestM adapter endpoint options w
  = (Err (refusalOf adapter r),
     after w R' (requestOf adapter endpoint options) (Responded r)).
Proof.
  intros E Hok Hs. apply Z.eqb_neq in Hs.
  destruct adapter as [this | this]; cbn [requestM requestOf] in *.
  - unfold GithubAdapter.request, GithubService.makeRequest, bind, fetch.
    rewrite E, Hs, Hok. cbn [negb]. unfold throw, refusalOf, refusalDetail.
    destruct (payload r); reflexivity.
  - unfold BaseGiteaAdapter.request, BaseGiteaService.makeGiteaRequest, bind, fetch.
    rewrite E, Hs, Hok. cbn [negb]. unfold throw, refusalOf, refusalDetail.
    destruct (payload r); reflexivity.
Qed.

(** X8.  [getFileSha] reads absence off the text of the error: a refusal
    other than 401 is thrown by the request as the error of the adapter
    for the answer (its prefix, the status, the status text and the
    detail of the error body); the lookup resolves to [undefined] when the
    message of that error holds the digits 404 anywhere, and throws that
    error on when it does not. *)
Theorem getFileSha_reads_absence_off_the_message
    (adapter : Adapter) (path : jsstring) (w : World) (R' : Remote) (r : Response) :
  serve (remote w) (contentsRequest adapter path) = (R', Responded r) ->
  ok r = false -> status r <> 401 ->
  getFileShaOf adapter path w
  = ((if JsString.includes (message (refusalOf adapter r)) (js "404")
      then Ok None else Err (refusalOf adapter r)),
     after w R' (contentsRequest adapter path) (Responded r)).
Proof.
  intros E Hok Hs.
  apply getFileShaOf_refused.
  exact (requestM_refusal adapter (contentsEndpointOf adapter path) noOptions
           w R' r E Hok Hs).
Qed.

End HashLookup.

Lemma getFileSha_of_missing_path_is_undefined_witness :
  fst (@getFileShaOf RefBackend.backend (Github Examples.ann) (js "posts/none.md")
         (RefBackend.fresh Examples.blog))
  = Ok None.
Proof.
  rewrite (@getFileSha_of_missing_path_is_undefined RefBackend.backend
             (Github Examples.ann) (js "posts/none.md")
             (RefBackend.fresh Examples.blog) Examples.blog
             {| status := 404; statusText := js "Not Found";
                payload := PMessage (Some (js "Not Found")) None |}).
  - reflexivity.
  - vm_compute. reflexivity.
  - reflexivity.
Defined.

Lemma getFileSha_rethrows_unauthorized_witness :
  exists w',
    @getFileShaOf RefBackend.backend
      (Github (GithubAdapter.new (js "expired") (js "ann") (js "site")))
      (js "posts/a.md") (RefBackend.fresh Examples.blog)
    = (Err Unauthorized, w')
    /\ events w' = [js "auth-error"].
Proof.
  destruct (@getFileSha_rethrows_unauthorized RefBackend.backend
              (Github (GithubAdapter.new (js "expired") (js "ann") (js "site")))
              (js "posts/a.md") (RefBackend.fresh Examples.blog) Examples.blog
              {| status := 401; statusText := js "Unauthorized";
                 payload := PMessage (Some (js "Unauthorized")) None |})
    as (w' & Hsha & _ & _ & Hev).
  - vm_compute. reflexivity.
  - reflexivity.
  - exists w'. split; [exact Hsha | exact Hev].
Defined.

Lemma getFileSha_reads_absence_off_the_message_witness :
  fst (@getFileShaOf Broken.backend (Github Examples.ann) (js "posts/a.md") Broken.fresh)
  = Ok None
  /\ fst (@getFileShaOf Broken.plainBackend (Github Examples.ann) (js "posts/a.md")
            Broken.plainFresh)
     = Err (HttpError (js "GitHub API Error: ") 500 (js "Internal Server Error")
              (js "try again")).
Proof.
  split.
  - rewrite (@getFileSha_reads_absence_off_the_message Broken.backend
               (Github Examples.ann) (js "posts/a.md") Broken.fresh tt Broken.answer).
    + vm_compute. reflexivity.
    + reflexivity.
    + reflexivity.
    + cbn. discriminate.
  - rewrite (@getFileSha_reads_absence_off_the_message Broken.plainBackend
               (Github Examples.ann) (js "posts/a.md") Broken.plainFresh tt
               Broken.plainAnswer).
    + vm_compute. reflexivity.
    + reflexivity.
    + reflexivity.
    + cbn. discriminate.
Defined.

(** The lookup on the backend that is out of order: the error of status 500
    is taken for absence. *)
Example getFileSha_out_of_order :
  fst (@getFileShaOf Broken.backend (Github Examples.ann) (js "posts/a.md")
         Broken.fresh) = Ok None.
Proof. vm_compute. reflexivity. Qed.

(** ** Writing *)

Section Writes.
Context `{JsRuntime} `{Backend}.

Lemma createFileFromStringOf_unfold adapter path newContent commitMessage :
  createFileFromStringOf adapter path newContent commitMessage
  = (sha <- getFileShaOf adapter path ;;
     if truthySha sha then
       throw (FileExists (orEmpty (lastSegment path)))
     else
       content <- lift (Encoding.base64Encode newContent) ;;
       requestM adapter (contentsEndpointOf adapter path)
         (writeOptions (createMethod adapter)
            {| wb_message := commitMessage; wb_content := Some content;
               wb_sha := None |})).
Proof. destruct adapter; reflexivity. Qed.

(** X9.  [createFileFromString] on a path the backend reports missing
    sends, after the lookup, one write and nothing else: a [PUT] on GitHub
    and a [POST] on Gitea and Gogs, which carries the commit message, the
    base64 text of the new content and no hash; the call settles as that
    request does. *)
Theorem createFileFromString_on_missing_path_sends_one_write
    (adapter : Adapter) (path newContent commitMessage : jsstring)
    (w : World) (R1 : Remote) (r1 : Response) :
  validString newContent ->
  serve (remote w) (contentsRequest adapter path) = (R1, Responded r1) ->
  status r1 = 404 ->
  exists content,
    Encoding.base64Encode newContent = Ok content
    /\ createFileFromStringOf adapter path newContent commitMessage w
       = requestM adapter (contentsEndpointOf adapter path)
           (writeOptions (createMethod adapter)
              {| wb_message := commitMessage; wb_content := Some content;
                 wb_sha := None |})
           (after w R1 (contentsRequest adapter path) (Responded r1)).
Proof.
  intros Hv E Hs.
  destruct (EncodingFacts.base64Encode_total newContent Hv) as (content & Henc).
  exists content. split; [exact Henc |].
  rewrite createFileFromStringOf_unfold.
  rewrite (bind_ok _ _ _ _ _
             (getFileSha_of_missing_path_is_undefined adapter path w R1 r1 E Hs)).
  cbn [truthySha]. rewrite Henc. reflexivity.
Qed.

(** X10.  [uploadFile] overwrites: given a hash it sends one [PUT] that
    carries it, without a lookup; given none, on a path where the backend
    reports a file, it looks the hash up and sends the [PUT] with the
    current hash of that file.  It never stops at an existing file. *)
Theorem uploadFile_overwrites
    (adapter : Adapter) (path commitMessage : jsstring) (file : File)
    (content : option jsstring) (w : World) :
  fileToBase64 file = Ok content ->
  (forall sha, sha <> [] ->
     uploadFileOf adapter path file commitMessage (Some sha) w
     = requestM adapter (contentsEndpointOf adapter path)
         (writeOptions PUT
            {| wb_message := commitMessage; wb_content := content;
               wb_sha := Some sha |}) w)
  /\ (forall r stored sha,
        reportsFile (remote w) adapter path r stored ->
        truthySha sha = false ->
        uploadFileOf adapter path file commitMessage sha w
        = requestM adapter (contentsEndpointOf adapter path)
            (writeOptions PUT
               {| wb_message := commitMessage; wb_content := content;
                  wb_sha := Some (ci_sha stored) |})
            (after w (remote w) (contentsRequest adapter path) (Responded r))).
Proof.
  intros Hfile. split.
  - intros sha Hsha.
    assert (Ht : JsString.truthy sha = true) by (now destruct sha).
    destruct adapter as [this | this]; cbn [uploadFileOf requestM].
    + unfold GithubAdapter.uploadFile. rewrite Hfile. cbn [truthySha].
      rewrite Ht. reflexivity.
    + unfold BaseGiteaAdapter.uploadFile. rewrite Hfile. cbn [truthySha].
      rewrite Ht. unfold bind, lift, ret. cbn [truthySha]. rewrite Ht. reflexivity.
  - intros r stored sha (Hans & Hstored & Hsha) Hfalsy.
    assert (Ht : JsString.truthy (ci_sha stored) = true)
      by (now destruct (ci_sha stored)).
    assert (Hlookup :
              getFileShaOf adapter path w
              = (Ok (Some (ci_sha stored)),
                 after w (remote w) (contentsRequest adapter path) (Responded r))).
    { rewrite getFileShaOf_unfold. apply tryCatch_ok.
      rewrite (bind_ok _ _ _ _ _ (requestM_answered adapter _ _ w _ r Hans)).
      rewrite Hstored. reflexivity. }
    destruct adapter as [this | this]; cbn [uploadFileOf requestM getFileShaOf] in *.
    + unfold GithubAdapter.uploadFile. rewrite Hfile, Hfalsy.
      unfold bind at 1. unfold lift at 1.
      rewrite (bind_ok _ _ _ _ _ Hlookup). reflexivity.
    + unfold BaseGiteaAdapter.uploadFile. rewrite Hfile, Hfalsy.
      unfold bind at 1. unfold lift at 1.
      rewrite (bind_ok _ _ _ _ _ Hlookup). cbn [truthySha]. rewrite Ht.
      reflexivity.
Qed.

(** X11.  [uploadFile] without a hash on a path the backend reports
    missing creates the file: after the lookup it sends one write without
    a hash, a [PUT] on GitHub and a [POST] on Gitea and Gogs. *)
Theorem uploadFile_on_missing_path_creates
    (adapter : Adapter) (path commitMessage : jsstring) (file : File)
    (content : option jsstring) (w : World) (R1 : Remote) (r1 : Response) :
  fileToBase64 file = Ok content ->
  serve (remote w) (contentsRequest adapter path) = (R1, Responded r1) ->
  status r1 = 404 ->
  uploadFileOf adapter path file commitMessage None w
  = requestM adapter (contentsEndpointOf adapter path)
      (writeOptions (createMethod adapter)
         {| wb_message := commitMessage; wb_content := content; wb_sha := None |})
      (after w R1 (contentsRequest adapter path) (Responded r1)).
Proof.
  intros Hfile E Hs.
  pose proof (getFileSha_of_missing_path_is_undefined adapter path w R1 r1 E Hs)
    as Hlookup.
  destruct adapter as [this | this];
    cbn [uploadFileOf requestM getFileShaOf createMethod] in *.
  - unfold GithubAdapter.uploadFile. rewrite Hfile. cbn [truthySha].
    unfold bind at 1. unfold lift at 1.
    rewrite (bind_ok _ _ _ _ _ Hlookup). reflexivity.
  - unfold BaseGiteaAdapter.uploadFile. rewrite Hfile. cbn [truthySha].
    unfold bind at 1. unfold lift at 1.
    rewrite (bind_ok _ _ _ _ _ Hlookup). reflexivity.
Qed.

Lemma split_no_separator sep s :
  ~ In sep s -> JsString.split s sep = [s].
Proof.
  induction s as [| c s IH]; intros Hnot; [reflexivity |].
  cbn [JsString.split].
  destruct (Z.eqb_spec c sep) as [-> | _]; [exfalso; apply Hnot; now left |].
  rewrite IH; [reflexivity |]. intros Hin. apply Hnot. now right.
Qed.

Lemma split_at_separator sep a b :
  ~ In sep a -> JsString.split (a ++ sep :: b) sep = a :: JsString.split b sep.
Proof.
  induction a as [| c a IH]; intros Hnot; cbn [app JsString.split].
  - now rewrite Z.eqb_refl.
  - destruct (Z.eqb_spec c sep) as [-> | _]; [exfalso; apply Hnot; now left |].
    rewrite IH; [reflexivity |]. intros Hin. apply Hnot. now right.
Qed.

(** X12.  [fileToBase64] hands on the data of a data URL: for a file read
    as [header,data], with no comma in the header and none in the data (the
    base64 alphabet has none), the content to upload is the data.  A file
    that is read as the empty string is refused. *)
Theorem fileToBase64_is_the_data_of_the_url (header data : jsstring) :
  ~ In JsString.comma header -> ~ In JsString.comma data ->
  fileToBase64 {| readAsDataURL := Ok (header ++ JsString.comma :: data) |}
  = Ok (Some data)
  /\ fileToBase64 {| readAsDataURL := Ok [] |}
     = Err (PlainError (js "Failed to read file")).
Proof.
  intros Hh Hd. split; [| reflexivity].
  unfold fileToBase64. cbn [readAsDataURL].
  assert (Ht : JsString.truthy (header ++ JsString.comma :: data) = true)
    by (now destruct header).
  rewrite Ht, (split_at_separator _ _ _ Hh), (split_no_separator _ _ Hd).
  reflexivity.
Qed.

(** X13.  [deleteFile] sends one [DELETE] that carries the hash and the
    commit message, and takes an answer of status 200, 201 or 204 for
    success whether or not it has a JSON body. *)
Theorem deleteFile_succeeds_without_a_body
    (adapter : Adapter) (path sha commitMessage : jsstring)
    (w : World) (R' : Remote) (r : Response) :
  let req :=
    requestOf adapter (contentsEndpointOf adapter path)
      (writeOptions DELETE
         {| wb_message := commitMessage; wb_content := None; wb_sha := Some sha |}) in
  serve (remote w) req = (R', Responded r) ->
  status r = 200 \/ status r = 201 \/ status r = 204 ->
  exists result,
    deleteFileOf adapter path sha commitMessage w
    = (Ok result, after w R' req (Responded r))
    /\ (payload r = PNotJson -> result = PEmpty)
    /\ (payload r <> PNotJson -> result = payload r).
Proof.
  intros req E Hs.
  assert (H401 : (status r =? 401) = false)
    by (destruct Hs as [-> | [-> | ->]]; reflexivity).
  assert (Hok : ok r = true)
    by (unfold ok; destruct Hs as [-> | [-> | ->]]; reflexivity).
  assert (Hquiet : ((status r =? 204) || (status r =? 201)
                    || ((status r =? 200) && true)) = true)
    by (destruct Hs as [-> | [-> | ->]]; reflexivity).
  destruct adapter as [this | this]; cbn [deleteFileOf requestOf] in *.
  - unfold GithubAdapter.deleteFile, GithubAdapter.request,
      GithubService.makeRequest, bind, fetch.
    unfold req, contentsEndpointOf, writeOptions in E. cbn [ownerOf repoNameOf] in E.
    rewrite E, H401, Hok. cbn [negb init_method isDelete]. rewrite Hquiet.
    eexists. split; [reflexivity |].
    destruct (payload r); split; intros; congruence.
  - unfold BaseGiteaAdapter.deleteFile, BaseGiteaAdapter.request,
      BaseGiteaService.makeGiteaRequest, bind, fetch.
    unfold req, contentsEndpointOf, writeOptions in E. cbn [ownerOf repoNameOf] in E.
    rewrite E, H401, Hok. cbn [negb init_method isDelete isPut orb]. rewrite Hquiet.
    eexists. split; [reflexivity |].
    destruct (payload r); split; intros; congruence.
Qed.

(** X14.  A refusal is thrown with its status: when the one request of
    [getRepoContents], [getFileContent], [getFileAsBlob], [getRepoTree],
    [getRepoDetails] or [deleteFile] is answered with a status outside
    200-299 other than 401, the call rejects with an error that carries the
    status and its text, after that one exchange, without an event and
    without console output. *)
Theorem refused_request_is_thrown_with_its_status
    (adapter : Adapter) (op : Operation) (req : Request)
    (w : World) (R' : Remote) (r : Response) :
  soleRequest adapter op = Some req ->
  serve (remote w) req = (R', Responded r) ->
  ok r = false -> status r <> 401 ->
  exists prefix detail,
    perform adapter op w
    = (Err (HttpError prefix (status r) (statusText r) detail),
       after w R' req (Responded r)).
Proof.
  intros Hop E Hok Hs.
  assert (Hreq : forall endpoint options,
             req = requestOf adapter endpoint options ->
             exists prefix detail,
               requestM adapter endpoint options w
               = (Err (HttpError prefix (status r) (statusText r) detail),
                  after w R' req (Responded r))).
  { intros endpoint options ->. now apply requestM_refused. }
  destruct op; cbn [soleRequest] in Hop; try discriminate;
    injection Hop as Hop; symmetry in Hop;
    destruct (Hreq _ _ Hop) as (prefix & detail & Hthrown);
    exists prefix, detail;
    destruct adapter as [this | this]; cbn [perform requestM] in *;
    unfold settle; apply bind_err;
    first [ exact Hthrown
          | apply bind_err; exact Hthrown
          | apply bind_err; apply bind_err; exact Hthrown ].
Qed.

End Writes.

Lemma createFileFromString_on_missing_path_sends_one_write_witness :
  fst (@createFileFromStringOf RefBackend.backend (Github Examples.ann)
         (js "posts/new.md") (js "hello") (js "add")
         (RefBackend.fresh Examples.blog))
  = Ok PEmpty.
Proof.
  destruct (@createFileFromString_on_missing_path_sends_one_write RefBackend.backend
              (Github Examples.ann) (js "posts/new.md") (js "hello") (js "add")
              (RefBackend.fresh Examples.blog) Examples.blog Uploads.notFound)
    as (content & Henc & E).
  - apply JsStringFacts.validString_js.
  - vm_compute. reflexivity.
  - reflexivity.
  - rewrite E. vm_compute in Henc. injection Henc as <-. vm_compute. reflexivity.
Defined.

Lemma uploadFile_overwrites_witness :
  fst (@uploadFileOf RefBackend.backend (Github Examples.ann)
         (js "posts/a.md") Uploads.greeting (js "upload") None
         (RefBackend.fresh Examples.blog))
  = Ok PEmpty.
Proof.
  destruct (@uploadFile_overwrites RefBackend.backend (Github Examples.ann)
              (js "posts/a.md") (js "upload") Uploads.greeting (Some (js "SGk="))
              (RefBackend.fresh Examples.blog)) as [_ Hlookup].
  - vm_compute. reflexivity.
  - rewrite (Hlookup
               {| status := 200; statusText := js "OK";
                  payload := PFile (RefBackend.fileObject
                                      (Examples.stored "posts/a.md" "QQ==")) |}
               (RefBackend.fileObject (Examples.stored "posts/a.md" "QQ==")) None).
    + vm_compute. reflexivity.
    + repeat split; vm_compute; first [reflexivity | discriminate].
    + reflexivity.
Defined.

Lemma uploadFile_on_missing_path_creates_witness :
  fst (@uploadFileOf RefBackend.backend (Github Examples.ann)
         (js "posts/hi.txt") Uploads.greeting (js "upload") None
         (RefBackend.fresh Examples.blog))
  = Ok PEmpty.
Proof.
  rewrite (@uploadFile_on_missing_path_creates RefBackend.backend
             (Github Examples.ann) (js "posts/hi.txt") (js "upload")
             Uploads.greeting (Some (js "SGk="))
             (RefBackend.fresh Examples.blog) Examples.blog Uploads.notFound).
  - vm_compute. reflexivity.
  - vm_compute. reflexivity.
  - vm_compute. reflexivity.
  - reflexivity.
Defined.

Lemma fileToBase64_is_the_data_of_the_url_witness :
  fileToBase64 Uploads.greeting = Ok (Some (js "SGk=")).
Proof.
  apply (fileToBase64_is_the_data_of_the_url (js "data:text/plain;base64") (js "SGk=")).
  - vm_compute. intuition discriminate.
  - vm_compute. intuition discriminate.
Defined.

Lemma deleteFile_succeeds_without_a_body_witness :
  exists result,
    fst (@deleteFileOf RefBackend.backend (Github Examples.ann) (js "posts/a.md")
           (RefBackend.hashOf (js "QQ==")) (js "remove")
           (RefBackend.fresh Examples.blog))
    = Ok result.
Proof.
  destruct (@deleteFile_succeeds_without_a_body RefBackend.backend
              (Github Examples.ann) (js "posts/a.md")
              (RefBackend.hashOf (js "QQ==")) (js "remove")
              (RefBackend.fresh Examples.blog)
              (RefBackend.withFiles Examples.blog
                 (RefBackend.remove (js "posts/a.md") (RefBackend.files Examples.blog)))
              {| status := 200; statusText := js "OK"; payload := PEmpty |})
    as (result & E & _).
  - vm_compute. reflexivity.
  - left. reflexivity.
  - exists result. now rewrite E.
Defined.

Lemma refused_request_is_thrown_with_its_status_witness :
  exists prefix detail,
    @perform TestRuntime.runtime RefBackend.backend (Github Examples.ann)
      (GetFileContent (js "posts/none.md")) (RefBackend.fresh Examples.blog)
    = (Err (HttpError prefix 404 (js "Not Found") detail),
       @after RefBackend.backend (RefBackend.fresh Examples.blog) Examples.blog
         (@contentsRequest (Github Examples.ann) (js "posts/none.md"))
         (Responded Uploads.notFound)).
Proof.
  apply (@refused_request_is_thrown_with_its_status TestRuntime.runtime
           RefBackend.backend (Github Examples.ann)
           (GetFileContent (js "posts/none.md"))
           (@contentsRequest (Github Examples.ann) (js "posts/none.md"))
           (RefBackend.fresh Examples.blog) Examples.blog Uploads.notFound).
  - reflexivity.
  - vm_compute. reflexivity.
  - reflexivity.
  - cbn. discriminate.
Defined.

(** ** Listing files *)

Section Listings.
Context `{JsRuntime} `{Backend}.

Lemma super_listFiles_settles (getRepoContents : jsstring -> M (list ContentInfo))
    path w :
  exists entries w',
    BaseGitService.listFiles getRepoContents path w = (Ok entries, w')
    /\ (isOk (fst (getRepoContents path w)) = false -> entries = []).
Proof.
  unfold BaseGitService.listFiles, tryCatch, bind.
  destruct (getRepoContents path w) as [[contents | e] w1]; cbn [fst isOk].
  - eexists _, _. split; [reflexivity | discriminate].
  - eexists _, _. split; [reflexivity | reflexivity].
Qed.

(** X15.  [listFiles] of an adapter never rejects: whatever the backend
    answers, it resolves to a list.  When the tree cannot be read and the
    listing of the path cannot be read either, the list is empty, so a
    caller cannot tell a failure from a directory without files. *)
Theorem listFiles_never_rejects (adapter : Adapter) (path : jsstring) (w : World) :
  exists entries w',
    listFilesOf adapter path w = (Ok entries, w')
    /\ (isOk (fst (listFilesFastOf adapter path w)) = false ->
        (forall w1, isOk (fst (getRepoContentsOf adapter path w1)) = false) ->
        entries = []).
Proof.
  destruct adapter as [this | this];
    cbn [listFilesOf listFilesFastOf getRepoContentsOf].
  - unfold GithubAdapter.listFiles, tryCatch.
    destruct (GithubAdapter.listFilesFast this path w) as [[entries | e] w1];
      cbn [fst isOk].
    + eexists _, _. split; [reflexivity | discriminate].
    + unfold bind at 1. unfold consoleLog at 1.
      unfold GithubAdapter.super_listFiles.
      match goal with
      | |- context [BaseGitService.listFiles _ path ?w2] =>
          destruct (super_listFiles_settles (GithubAdapter.getRepoContents this)
                      path w2) as (entries & w' & E & Hempty)
      end.
      exists entries, w'. split; [exact E |]. intros _ Hfail. apply Hempty, Hfail.
  - unfold BaseGiteaAdapter.listFiles, tryCatch.
    destruct (BaseGiteaAdapter.listFilesFast this path w) as [[entries | e] w1];
      cbn [fst isOk].
    + eexists _, _. split; [reflexivity | discriminate].
    + unfold bind at 1. unfold consoleLog at 1.
      unfold BaseGiteaAdapter.super_listFiles.
      match goal with
      | |- context [BaseGitService.listFiles _ path ?w2] =>
          destruct (super_listFiles_settles (BaseGiteaAdapter.getRepoContents this)
                      path w2) as (entries & w' & E & Hempty)
      end.
      exists entries, w'. split; [exact E |]. intros _ Hfail. apply Hempty, Hfail.
Qed.

Lemma listFilesFastOf_result adapter path w entries w' :
  listFilesFastOf adapter path w = (Ok entries, w') ->
  exists tree,
    entries = map blobInfo (filter (underPath (normalizePath path)) tree).
Proof.
  destruct adapter as [this | this]; cbn [listFilesFastOf].
  - unfold GithubAdapter.listFilesFast, bind.
    destruct (GithubAdapter.getRepoDetails this w) as [[repo | e] w1];
      [| discriminate].
    destruct (GithubAdapter.request this _ noOptions w1) as [[response | e] w2];
      [| discriminate].
    destruct response as [| | | tree truncated | | |]; try discriminate.
    destruct truncated; cbn; intros E; injection E as <- _; now exists tree.
  - unfold BaseGiteaAdapter.listFilesFast, bind.
    destruct (BaseGiteaAdapter.getRepoDetails this w) as [[repo | e] w1];
      [| discriminate].
    destruct (BaseGiteaAdapter.request this _ noOptions w1) as [[response | e] w2];
      [| discriminate].
    destruct response as [| | | tree truncated | | |]; try discriminate.
    destruct truncated; cbn; intros E; injection E as <- _; now exists tree.
Qed.

(** X16.  What the recursive tree gives [listFiles] is files under the
    path only: every entry is of type [file], its path is the path asked
    for, closed by a slash, followed by something, and its name is the
    last segment of its path.  So a listing of [post] holds no file of
    [posts]. *)
Theorem listFiles_tree_entries_are_files_under_the_path
    (adapter : Adapter) (path : jsstring) (w w' : World)
    (entries : list RepoTreeInfo) :
  listFilesFastOf adapter path w = (Ok entries, w') ->
  Forall (fun entry =>
            info_type entry = js "file"
            /\ (exists rest, info_path entry = normalizePath path ++ rest)
            /\ info_name entry = orEmpty (lastSegment (info_path entry)))
    entries.
Proof.
  intros E. destruct (listFilesFastOf_result _ _ _ _ _ E) as (tree & ->).
  apply Forall_forall. intros entry Hin.
  apply in_map_iff in Hin as (item & <- & Hitem).
  apply filter_In in Hitem as [_ Hunder].
  split; [reflexivity |]. split.
  - unfold underPath in Hunder. apply andb_true_iff in Hunder as [_ Hunder].
    apply orb_true_iff in Hunder as [Hroot | Hprefix].
    + apply JsStringFacts.eqb_eq in Hroot. rewrite Hroot.
      now exists (tree_path item).
    + now apply JsStringFacts.startsWith_spec in Hprefix.
  - cbn [blobInfo info_name info_path]. unfold orElse.
    destruct (lastSegment (tree_path item)) as [seg |]; [| reflexivity].
    destruct seg; reflexivity.
Qed.

Lemma endsWith_app p s : JsString.endsWith (p ++ s) s = true.
Proof.
  unfold JsString.endsWith. rewrite rev_app_distr.
  apply JsStringFacts.startsWith_app.
Qed.

(** X17.  For the recursive tree a closing slash makes no difference:
    [listFiles] of a path and of the path with a slash added read the
    tree alike. *)
Theorem listFiles_tree_ignores_a_closing_slash
    (adapter : Adapter) (path : jsstring) (w : World) :
  path <> [] ->
  JsString.endsWith path (js "/") = false ->
  listFilesFastOf adapter (path ++ js "/") w = listFilesFastOf adapter path w.
Proof.
  intros Hne Hslash.
  assert (Hnorm : normalizePath (path ++ js "/") = normalizePath path).
  { unfold normalizePath. rewrite endsWith_app, Hslash.
    destruct path as [| c path]; [contradiction | reflexivity]. }
  destruct adapter as [this | this]; cbn [listFilesFastOf].
  - unfold GithubAdapter.listFilesFast, bind.
    destruct (GithubAdapter.getRepoDetails this w) as [[repo | e] w1];
      [| reflexivity].
    destruct (GithubAdapter.request this _ noOptions w1) as [[response | e] w2];
      [| reflexivity].
    destruct response; try reflexivity. now rewrite Hnorm.
  - unfold BaseGiteaAdapter.listFilesFast, bind.
    destruct (BaseGiteaAdapter.getRepoDetails this w) as [[repo | e] w1];
      [| reflexivity].
    destruct (BaseGiteaAdapter.request this _ noOptions w1) as [[response | e] w2];
      [| reflexivity].
    destruct response; try reflexivity. now rewrite Hnorm.
Qed.

End Listings.

Lemma listFiles_tree_entries_are_files_under_the_path_witness :
  Forall (fun entry =>
            info_type entry = js "file"
            /\ (exists rest, info_path entry = js "posts/" ++ rest)
            /\ info_name entry = orEmpty (lastSegment (info_path entry)))
    (match fst (@listFilesFastOf RefBackend.backend (Github Examples.ann) (js "posts")
                  (RefBackend.fresh Examples.blog))
     with Ok entries => entries | Err _ => [] end).
Proof.
  apply (@listFiles_tree_entries_are_files_under_the_path RefBackend.backend
           (Github Examples.ann) (js "posts") (RefBackend.fresh Examples.blog)
           (snd (@listFilesFastOf RefBackend.backend (Github Examples.ann) (js "posts")
                   (RefBackend.fresh Examples.blog)))).
  vm_compute. reflexivity.
Defined.

Lemma listFiles_tree_ignores_a_closing_slash_witness :
  @listFilesFastOf RefBackend.backend (Github Examples.ann) (js "posts/")
    (RefBackend.fresh Examples.blog)
  = @listFilesFastOf RefBackend.backend (Github Examples.ann) (js "posts")
      (RefBackend.fresh Examples.blog).
Proof.
  apply (@listFiles_tree_ignores_a_closing_slash RefBackend.backend
           (Github Examples.ann) (js "posts") (RefBackend.fresh Examples.blog)).
  - discriminate.
  - reflexivity.
Defined.

(** ** Sorting *)

Section SortFacts.
Context {A : Type}.
Variable compare : A -> A -> Z.
Variable before : A -> A -> Prop.
Hypothesis before_trans : forall x y z, before x y -> before y z -> before x z.
Hypothesis compare_le : forall x y, compare x y <= 0 -> before x y.
Hypothesis compare_gt : forall x y, 0 < compare x y -> before y x.

(** With a comparison function that follows an order, the sort puts every
    element before the ones that come later. *)
Lemma sortInsert_sorted x sorted :
  StronglySorted before sorted -> StronglySorted before (sortInsert compare x sorted).
Proof.
  induction sorted as [| y rest IH]; intros Hsorted; cbn [sortInsert].
  - repeat constructor.
  - apply StronglySorted_inv in Hsorted as [Hrest Hy].
    destruct (Z.leb_spec (compare x y) 0) as [Hle | Hgt].
    + constructor; [now constructor |].
      constructor; [now apply compare_le |].
      eapply Forall_impl; [| exact Hy]. intros z Hz.
      eapply before_trans; [apply compare_le; exact Hle | exact Hz].
    + constructor; [now apply IH |].
      apply Forall_forall. intros z Hz.
      apply (Permutation_in _ (Permutation_sym (sortInsert_perm compare x rest)))
        in Hz.
      destruct Hz as [<- | Hz]; [now apply compare_gt |].
      exact (proj1 (Forall_forall _ _) Hy z Hz).
Qed.

Lemma Array_sort_sorted items : StronglySorted before (Array_sort compare items).
Proof.
  induction items as [| x rest IH]; cbn [Array_sort]; [constructor |].
  now apply sortInsert_sorted.
Qed.

End SortFacts.

Section PathOrder.
Context `{JsRuntime}.

Lemma rankedBefore_trans preferredNames x y z :
  rankedBefore preferredNames x y -> rankedBefore preferredNames y z ->
  rankedBefore preferredNames x z.
Proof.
  unfold rankedBefore.
  intros [[Hx Hy] | [Hxy Hd1]] [[Hy' Hz] | [Hyz Hd2]].
  - congruence.
  - left. split; congruence.
  - left. split; congruence.
  - right. split; [congruence | lia].
Qed.

Lemma comparePaths_ranks preferredNames x y :
  (BaseGitService.comparePaths preferredNames x y <= 0 ->
   rankedBefore preferredNames x y)
  /\ (0 < BaseGitService.comparePaths preferredNames x y ->
      rankedBefore preferredNames y x).
Proof.
  unfold BaseGitService.comparePaths, rankedBefore, isPreferred.
  destruct (JsString.arrayIncludes preferredNames (BaseGitService.lastNameOf x));
    destruct (JsString.arrayIncludes preferredNames (BaseGitService.lastNameOf y));
    cbn [andb negb].
  - destruct (Z.eqb_spec (BaseGitService.depthOf x) (BaseGitService.depthOf y))
      as [E | E]; cbn [negb]; split; intros; right; split;
      first [reflexivity | lia].
  - split; intros; [left; now split | lia].
  - split; intros; [lia | left; now split].
  - destruct (Z.eqb_spec (BaseGitService.depthOf x) (BaseGitService.depthOf y))
      as [E | E]; cbn [negb]; split; intros; right; split;
      first [reflexivity | lia].
Qed.

(** X18.  [sortPaths] ranks: its result holds the paths it was given, each
    as often, and in it every path comes before the ones it outranks, a
    path whose last name is preferred before any whose last name is not,
    and among paths of the same kind one of fewer segments before one of
    more, whatever the way [localeCompare] orders names. *)
Theorem sortPaths_ranks_preferred_then_shallow
    (paths preferredNames : list jsstring) :
  Permutation paths (BaseGitService.sortPaths paths preferredNames)
  /\ StronglySorted (rankedBefore preferredNames)
       (BaseGitService.sortPaths paths preferredNames).
Proof.
  unfold BaseGitService.sortPaths. split.
  - apply Array_sort_perm.
  - apply Array_sort_sorted.
    + apply rankedBefore_trans.
    + intros x y. apply comparePaths_ranks.
    + intros x y. apply comparePaths_ranks.
Qed.

Lemma directoryFirst_trans x y z :
  directoryFirst x y -> directoryFirst y z -> directoryFirst x z.
Proof. unfold directoryFirst. auto. Qed.

Lemma compareTreeInfo_ranks x y :
  (compareTreeInfo x y <= 0 -> directoryFirst x y)
  /\ (0 < compareTreeInfo x y -> directoryFirst y x).
Proof.
  unfold compareTreeInfo, directoryFirst.
  destruct (JsString.eqb (info_type x) (js "dir")) eqn:Ex;
    destruct (JsString.eqb (info_type y) (js "dir")) eqn:Ey; cbn [andb negb].
  - apply JsStringFacts.eqb_eq in Ex, Ey. split; intros; assumption.
  - apply JsStringFacts.eqb_eq in Ex. split; intros; [assumption | lia].
  - apply JsStringFacts.eqb_eq in Ey. split; intros; [lia | assumption].
  - apply JsStringFacts.eqb_neq in Ex, Ey. split; intros; contradiction.
Qed.

End PathOrder.

(** ** The tree of a directory *)

Section TreeFacts.
Context `{JsRuntime} `{Backend}.

Lemma mapM_related {X Y} (f : X -> M Y) (P : X -> Y -> Prop) :
  (forall item w, exists b w', f item w = (Ok b, w') /\ P item b) ->
  forall items w,
    exists bs w', mapM f items w = (Ok bs, w') /\ Forall2 P items bs.
Proof.
  intros Hf. induction items as [| item rest IH]; intros w; cbn [mapM].
  - exists [], w. split; [reflexivity | constructor].
  - destruct (Hf item w) as (b & w1 & E1 & Hb).
    destruct (IH w1) as (bs & w2 & E2 & Hbs).
    exists (b :: bs), w2. unfold bind. rewrite E1, E2.
    split; [reflexivity | now constructor].
Qed.

(** Each entry is processed without an error, whatever the listing of a
    subdirectory comes to. *)
Lemma treeEntry_github this item w :
  exists entry w',
    GithubAdapter.treeEntry this item w = (Ok entry, w') /\ entryFor item entry.
Proof.
  unfold GithubAdapter.treeEntry, entryFor, isIgnoredInTree.
  destruct (JsString.arrayIncludes _ _) eqn:Hign.
  - eexists _, _. split; [reflexivity | reflexivity].
  - destruct (BaseGitService.isDir item) eqn:Hdir.
    + unfold tryCatch, bind.
      destruct (GithubAdapter.getRepoContents this (ci_path item) w)
        as [[subContents | e] w1];
        eexists _, _; (split; [reflexivity |]); cbn; now repeat split.
    + eexists _, _. split; [reflexivity |]. cbn. repeat split. discriminate.
Qed.

Lemma treeEntry_gitea this item w :
  exists entry w',
    BaseGiteaAdapter.treeEntry this item w = (Ok entry, w') /\ entryFor item entry.
Proof.
  unfold BaseGiteaAdapter.treeEntry, entryFor, isIgnoredInTree.
  destruct (JsString.arrayIncludes _ _) eqn:Hign.
  - eexists _, _. split; [reflexivity | reflexivity].
  - destruct (BaseGitService.isDir item) eqn:Hdir.
    + unfold tryCatch, bind.
      destruct (BaseGiteaAdapter.getRepoContents this (ci_path item) w)
        as [[subContents | e] w1];
        eexists _, _; (split; [reflexivity |]); cbn; now repeat split.
    + eexists _, _. split; [reflexivity |]. cbn. repeat split. discriminate.
Qed.

Lemma dropNulls_entries items entries :
  Forall2 entryFor items entries ->
  map info_path (dropNulls entries)
  = map ci_path (filter (fun item => negb (isIgnoredInTree (ci_name item))) items)
  /\ Forall (fun e => isIgnoredInTree (info_name e) = false) (dropNulls entries).
Proof.
  induction 1 as [| item entry items entries Hentry _ [IH1 IH2]];
    [split; [reflexivity | constructor] |].
  destruct entry as [e |]; cbn [entryFor] in Hentry.
  - destruct Hentry as (Hign & Hname & Hpath & _).
    cbn [dropNulls flat_map app filter map] in *. rewrite Hign. cbn [negb map].
    split; [now rewrite Hpath, <- IH1 |].
    constructor; [now rewrite Hname | exact IH2].
  - cbn [dropNulls flat_map app filter] in *. rewrite Hentry. cbn [negb].
    split; assumption.
Qed.

(** What [getRepoTree] comes to once the listing of the path is there. *)
Lemma getRepoTreeOf_after_listing adapter path w contents w1 :
  getRepoContentsOf adapter path w = (Ok contents, w1) ->
  exists processed w',
    getRepoTreeOf adapter path w
    = (Ok (Array_sort compareTreeInfo (dropNulls processed)), w')
    /\ Forall2 entryFor contents processed.
Proof.
  intros E. destruct adapter as [this | this];
    cbn [getRepoTreeOf getRepoContentsOf] in *.
  - destruct (mapM_related (GithubAdapter.treeEntry this) entryFor
                (treeEntry_github this) contents w1)
      as (processed & w' & Emap & Hall).
    exists processed, w'. split; [| exact Hall].
    unfold GithubAdapter.getRepoTree.
    rewrite (bind_ok _ _ _ _ _ E), (bind_ok _ _ _ _ _ Emap). reflexivity.
  - destruct (mapM_related (BaseGiteaAdapter.treeEntry this) entryFor
                (treeEntry_gitea this) contents w1)
      as (processed & w' & Emap & Hall).
    exists processed, w'. split; [| exact Hall].
    unfold BaseGiteaAdapter.getRepoTree.
    rewrite (bind_ok _ _ _ _ _ E), (bind_ok _ _ _ _ _ Emap). reflexivity.
Qed.

Lemma getRepoTreeOf_listing adapter path w entries w' :
  getRepoTreeOf adapter path w = (Ok entries, w') ->
  exists contents w1, getRepoContentsOf adapter path w = (Ok contents, w1).
Proof.
  destruct adapter as [this | this]; cbn [getRepoTreeOf getRepoContentsOf].
  - unfold GithubAdapter.getRepoTree. unfold bind at 1.
    destruct (GithubAdapter.getRepoContents this path w) as [[contents | e] w1];
      [now eexists _, _ | discriminate].
  - unfold BaseGiteaAdapter.getRepoTree. unfold bind at 1.
    destruct (BaseGiteaAdapter.getRepoContents this path w) as [[contents | e] w1];
      [now eexists _, _ | discriminate].
Qed.

(** X19.  The entries of [getRepoTree] leave out the ignored names
    (compared in lower case) and list no file before a directory,
    whatever the way [localeCompare] orders names. *)
Theorem getRepoTree_hides_ignored_names_and_puts_directories_first
    (adapter : Adapter) (path : jsstring) (w w' : World)
    (entries : list RepoTreeInfo) :
  getRepoTreeOf adapter path w = (Ok entries, w') ->
  Forall (fun e => ~ In (toLowerCase (info_name e)) BaseGitService.ignoredTreeDirs)
    entries
  /\ StronglySorted directoryFirst entries.
Proof.
  intros E.
  destruct (getRepoTreeOf_listing _ _ _ _ _ E) as (contents & w1 & Elist).
  destruct (getRepoTreeOf_after_listing _ _ _ _ _ Elist)
    as (processed & w2 & Etree & Hall).
  rewrite Etree in E. injection E as <- _. split.
  - destruct (dropNulls_entries _ _ Hall) as [_ Hkept].
    apply Forall_forall. intros e He.
    apply (Permutation_in _ (Permutation_sym (Array_sort_perm compareTreeInfo _)))
      in He.
    pose proof (proj1 (Forall_forall _ _) Hkept e He) as Hign.
    unfold isIgnoredInTree in Hign. intros Hin.
    apply JsStringFacts.arrayIncludes_spec in Hin. congruence.
  - apply Array_sort_sorted.
    + apply directoryFirst_trans.
    + intros x y. apply compareTreeInfo_ranks.
    + intros x y. apply compareTreeInfo_ranks.
Qed.

(** X20.  [getRepoTree] fails only with the listing of the path itself:
    once that listing is there the call resolves, whatever the listings of
    the subdirectories come to, and its entries are, by path and each as
    often, the entries of the listing whose names are not ignored. *)
Theorem getRepoTree_survives_failing_subdirectories
    (adapter : Adapter) (path : jsstring) (w w1 : World)
    (contents : list ContentInfo) :
  getRepoContentsOf adapter path w = (Ok contents, w1) ->
  exists entries w',
    getRepoTreeOf adapter path w = (Ok entries, w')
    /\ Permutation (map info_path entries)
         (map ci_path
            (filter (fun item => negb (isIgnoredInTree (ci_name item))) contents)).
Proof.
  intros Elist.
  destruct (getRepoTreeOf_after_listing _ _ _ _ _ Elist)
    as (processed & w2 & Etree & Hall).
  eexists _, _. split; [exact Etree |].
  destruct (dropNulls_entries _ _ Hall) as [Hpaths _].
  rewrite <- Hpaths. apply Permutation_map, Permutation_sym, Array_sort_perm.
Qed.

End TreeFacts.

Lemma getRepoTree_hides_ignored_names_and_puts_directories_first_witness :
  let entries :=
    match fst (@getRepoTreeOf TestRuntime.runtime RefBackend.backend
                 (Github Examples.ann) [] (RefBackend.fresh Examples.blog))
    with Ok entries => entries | Err _ => [] end in
  map info_name entries = [js "img"; js "posts"; js "public"]
  /\ Forall (fun e => ~ In (@toLowerCase TestRuntime.runtime (info_name e))
                          BaseGitService.ignoredTreeDirs) entries
  /\ StronglySorted directoryFirst entries.
Proof.
  split; [vm_compute; reflexivity |].
  apply (@getRepoTree_hides_ignored_names_and_puts_directories_first
           TestRuntime.runtime RefBackend.backend (Github Examples.ann) []
           (RefBackend.fresh Examples.blog)
           (snd (@getRepoTreeOf TestRuntime.runtime RefBackend.backend
                   (Github Examples.ann) [] (RefBackend.fresh Examples.blog)))).
  vm_compute. reflexivity.
Defined.

Lemma getRepoTree_survives_failing_subdirectories_witness :
  exists entries w',
    @getRepoTreeOf TestRuntime.runtime RefBackend.backend (Github Examples.ann) []
      (RefBackend.fresh Examples.blog) = (Ok entries, w')
    /\ Permutation (map info_path entries) [js "posts"; js "public"; js "img"].
Proof.
  destruct (@getRepoTree_survives_failing_subdirectories
              TestRuntime.runtime RefBackend.backend (Github Examples.ann) []
              (RefBackend.fresh Examples.blog)
              (snd (@getRepoContentsOf RefBackend.backend (Github Examples.ann) []
                      (RefBackend.fresh Examples.blog)))
              (match fst (@getRepoContentsOf RefBackend.backend (Github Examples.ann) []
                            (RefBackend.fresh Examples.blog))
               with Ok contents => contents | Err _ => [] end))
    as (entries & w' & E & Hperm).
  - vm_compute. reflexivity.
  - exists entries, w'. split; [exact E | exact Hperm].
Defined.

(** ** What a scan keeps *)

Section ScanBounds.
Context `{JsRuntime} `{Backend}.
Variable getRepoContents : jsstring -> M (list ContentInfo).
Variable fileCheck : jsstring -> bool.

Lemma levelOf_more seen more k : forall p,
  levelOf seen k p -> levelOf (seen ++ more) k p.
Proof.
  induction k as [| k IH]; intros p; cbn [levelOf]; [trivial |].
  intros (parent & contents & dir & Hin & Hdir & Ht & Hp & Hlevel).
  exists parent, contents, dir. repeat split; try assumption.
  - apply in_or_app. now left.
  - now apply IH.
Qed.

Lemma levelOf_grows st st' k p :
  grows st st' -> levelOf (BaseGitService.listings st) k p ->
  levelOf (BaseGitService.listings st') k p.
Proof. intros (more & ->). apply levelOf_more. Qed.

Lemma NoDup_setAdd x set : NoDup set -> NoDup (BaseGitService.setAdd x set).
Proof.
  intros Hset. unfold BaseGitService.setAdd.
  destruct (JsString.arrayIncludes set x) eqn:E; [exact Hset |].
  apply (Permutation_NoDup (l := x :: set)).
  - apply Permutation_cons_append.
  - constructor; [| exact Hset]. intros Hin.
    apply JsStringFacts.arrayIncludes_spec in Hin. congruence.
Qed.

Lemma boundedScan_grows maxDepth st st' :
  boundedScan maxDepth st ->
  BaseGitService.foundDirs st' = BaseGitService.foundDirs st ->
  (exists p r depth,
     BaseGitService.listings st' = BaseGitService.listings st ++ [(p, r)]
     /\ (depth < maxDepth)%nat /\ levelOf (BaseGitService.listings st) depth p) ->
  boundedScan maxDepth st'.
Proof.
  intros [Hnodup Hlevels] Hfound (p & r & depth & Hl & Hd & Hp).
  split; [now rewrite Hfound |].
  intros q rq Hq. rewrite Hl in *.
  apply in_app_or in Hq as [Hq | [Hq | []]].
  - destruct (Hlevels q rq Hq) as (k & Hk & Hlevel).
    exists k. split; [exact Hk | now apply levelOf_more].
  - injection Hq as <- <-. exists depth. split; [exact Hd | now apply levelOf_more].
Qed.

(** A scan of a path at its level settles, finds no directory twice and
    lists nothing at or below the depth limit. *)
Lemma scanDirectoryGenericFuel_bounded fuel :
  forall p depth maxDepth st w,
    boundedScan maxDepth st -> levelOf (BaseGitService.listings st) depth p ->
    exists st' w',
      BaseGitService.scanDirectoryGenericFuel getRepoContents fuel p depth
        maxDepth fileCheck st w = (Ok st', w')
      /\ boundedScan maxDepth st' /\ grows st st'.
Proof.
  induction fuel as [| fuel IH]; intros p depth maxDepth st w Hb Hp;
    cbn [BaseGitService.scanDirectoryGenericFuel].
  { exists st, w. split; [reflexivity | split; [assumption | apply grows_refl]]. }
  destruct (maxDepth <=? depth)%nat eqn:Hdepth.
  { exists st, w. split; [reflexivity | split; [assumption | apply grows_refl]]. }
  apply Nat.leb_gt in Hdepth.
  unfold tryCatch, bind at 1.
  destruct (getRepoContents p w) as [[contents | error] w1].
  - set (st1 := BaseGitService.noteListing p (Ok contents) st).
    assert (Hg1 : grows st st1) by (now exists [(p, Ok contents)]).
    assert (Hb1 : boundedScan maxDepth st1).
    { apply (boundedScan_grows maxDepth st); [exact Hb | reflexivity |].
      now exists p, (Ok contents), depth. }
    set (st2 := if BaseGitService.hasMatchingFile fileCheck contents
                   && JsString.truthy p
                then BaseGitService.addFound p st1 else st1).
    assert (Hl2 : BaseGitService.listings st2 = BaseGitService.listings st1).
    { unfold st2. now destruct (_ && _). }
    assert (Hb2 : boundedScan maxDepth st2).
    { unfold st2. destruct (_ && _); [| exact Hb1].
      destruct Hb1 as [Hnodup Hlevels]. split; [| exact Hlevels].
      cbn. now apply NoDup_setAdd. }
    assert (Hg2 : grows st st2).
    { apply (grows_trans st st1); [exact Hg1 |]. exists []. now rewrite Hl2, app_nil_r. }
    assert (Hin2 : In (p, Ok contents) (BaseGitService.listings st2)).
    { rewrite Hl2. cbn. apply in_or_app. right. now left. }
    destruct (forEachM_invariant
                (fun s _ => boundedScan maxDepth s /\ grows st2 s)
                (BaseGitService.subDirsOf fileCheck contents)
                (fun dir =>
                   BaseGitService.scanDirectoryGenericFuel getRepoContents fuel
                     (ci_path dir) (depth + 1) maxDepth fileCheck))
      with (s := st2) (w := w1) as (st' & w' & E & Hb' & Hg').
    + intros dir s w0 Hdir [Hs Hgs].
      destruct (subDirsOf_spec fileCheck contents dir Hdir) as (Hd1 & Hd2 & _).
      destruct (IH (ci_path dir) (depth + 1)%nat maxDepth s w0 Hs)
        as (s' & w0' & E' & Hs' & Hg').
      * replace (depth + 1)%nat with (S depth) by lia. cbn [levelOf].
        exists p, contents, dir. repeat split; try assumption.
        -- destruct Hgs as (more & ->). apply in_or_app. now left.
        -- apply (levelOf_grows st s); [| exact Hp].
           eapply grows_trans; eassumption.
      * exists s', w0'. split; [exact E' | split; [exact Hs' |]].
        eapply grows_trans; eassumption.
    + split; [exact Hb2 | apply grows_refl].
    + fold st1. fold st2. rewrite E. exists st', w'.
      split; [reflexivity | split; [exact Hb' |]].
      eapply grows_trans; eassumption.
  - cbn. eexists _, _. split; [reflexivity |]. split.
    + apply (boundedScan_grows maxDepth st); [exact Hb | reflexivity |].
      now exists p, (Err error), depth.
    + now exists [(p, Err error)].
Qed.

Lemma emptyScan_bounded maxDepth : boundedScan maxDepth BaseGitService.emptyScan.
Proof. split; [constructor | intros p r []]. Qed.

(** A scan from the root: what it found is without repetition, every path
    it listed is at a level below the limit, and every directory it found
    is at a level from one on. *)
Lemma scanDirectoryGeneric_root_bounded maxDepth w :
  exists st w',
    BaseGitService.scanDirectoryGeneric getRepoContents [] 0 maxDepth fileCheck
      BaseGitService.emptyScan w = (Ok st, w')
    /\ NoDup (BaseGitService.foundDirs st)
    /\ (forall p r, In (p, r) (BaseGitService.listings st) ->
          exists k, (k < maxDepth)%nat /\ levelOf (BaseGitService.listings st) k p)
    /\ (forall d, In d (BaseGitService.foundDirs st) ->
          exists k, (1 <= k < maxDepth)%nat
                    /\ levelOf (BaseGitService.listings st) k d).
Proof.
  destruct (scanDirectoryGeneric_root_good getRepoContents fileCheck maxDepth w)
    as (st & w' & E & [Hroot Hhit _]).
  unfold BaseGitService.scanDirectoryGeneric in *.
  destruct (scanDirectoryGenericFuel_bounded (S (maxDepth - 0)) [] 0%nat maxDepth
              BaseGitService.emptyScan w (emptyScan_bounded maxDepth) eq_refl)
    as (st0 & w0 & E0 & [Hnodup Hlevels] & _).
  rewrite E in E0. injection E0 as <- <-.
  exists st, w'. split; [exact E |]. split; [exact Hnodup |].
  split; [exact Hlevels |].
  intros d Hd. destruct (Hhit d Hd) as (contents & file & Hin & _).
  destruct (Hlevels d (Ok contents) Hin) as (k & Hk & Hlevel).
  exists k. split; [| exact Hlevel].
  destruct k as [| k]; [| lia].
  cbn in Hlevel. exfalso. exact (Hroot d Hd Hlevel).
Qed.

End ScanBounds.

Section ScanResults.
Context `{JsRuntime} `{Backend}.
Variable getRepoContents : jsstring -> M (list ContentInfo).

(** X21.  The scans report each directory once: the lists
    [scanForContentDirectories] and [scanForImageDirectories] resolve to
    hold no path twice. *)
Theorem scans_report_each_directory_once (w : World) :
  (exists dirs w',
     BaseGitService.scanForContentDirectories getRepoContents w = (Ok dirs, w')
     /\ NoDup dirs)
  /\ (exists dirs w',
        BaseGitService.scanForImageDirectories getRepoContents w = (Ok dirs, w')
        /\ NoDup dirs).
Proof.
  split.
  - destruct (scanDirectoryGeneric_root_bounded getRepoContents
                BaseGitService.isMarkdownName 4 w) as (st & w' & E & Hnodup & _).
    unfold BaseGitService.scanForContentDirectories, BaseGitService.scanContent.
    rewrite (bind_ok _ _ _ _ _ E). eexists _, _. split; [reflexivity |].
    eapply Permutation_NoDup; [| exact Hnodup].
    apply Array_sort_perm.
  - destruct (scanDirectoryGeneric_root_bounded getRepoContents
                BaseGitService.isImageName 4 w) as (st & w' & E & Hnodup & _).
    unfold BaseGitService.scanForImageDirectories, BaseGitService.scanImages.
    rewrite (bind_ok _ _ _ _ _ E). eexists _, _. split; [reflexivity |].
    eapply Permutation_NoDup; [| exact Hnodup].
    eapply Permutation_trans; [apply Array_sort_perm |].
    apply promotePublicImages_perm.
Qed.

(** X22.  The scans stop at the fourth level: every path a scan lists is
    the root or is reached from it through at most three directory
    entries, and every directory it finds through one, two or three; a
    directory further down is neither listed nor found. *)
Theorem scans_stop_at_the_fourth_level (w : World) :
  (exists st w',
     BaseGitService.scanContent getRepoContents w = (Ok st, w')
     /\ (forall p r, In (p, r) (BaseGitService.listings st) ->
           exists k, (k <= 3)%nat /\ levelOf (BaseGitService.listings st) k p)
     /\ (forall d, In d (BaseGitService.foundDirs st) ->
           exists k, (1 <= k <= 3)%nat
                     /\ levelOf (BaseGitService.listings st) k d))
  /\ (exists st w',
        BaseGitService.scanImages getRepoContents w = (Ok st, w')
        /\ (forall p r, In (p, r) (BaseGitService.listings st) ->
              exists k, (k <= 3)%nat /\ levelOf (BaseGitService.listings st) k p)
        /\ (forall d, In d (BaseGitService.foundDirs st) ->
              exists k, (1 <= k <= 3)%nat
                        /\ levelOf (BaseGitService.listings st) k d)).
Proof.
  split.
  - destruct (scanDirectoryGeneric_root_bounded getRepoContents
                BaseGitService.isMarkdownName 4 w)
      as (st & w' & E & _ & Hlisted & Hfound).
    exists st, w'. split; [exact E |]. split.
    + intros p r Hin. destruct (Hlisted p r Hin) as (k & Hk & Hlevel).
      exists k. split; [lia | exact Hlevel].
    + intros d Hin. destruct (Hfound d Hin) as (k & Hk & Hlevel).
      exists k. split; [lia | exact Hlevel].
  - destruct (scanDirectoryGeneric_root_bounded getRepoContents
                BaseGitService.isImageName 4 w)
      as (st & w' & E & _ & Hlisted & Hfound).
    exists st, w'. split; [exact E |]. split.
    + intros p r Hin. destruct (Hlisted p r Hin) as (k & Hk & Hlevel).
      exists k. split; [lia | exact Hlevel].
    + intros d Hin. destruct (Hfound d Hin) as (k & Hk & Hlevel).
      exists k. split; [lia | exact Hlevel].
Qed.

End ScanResults.

(** Markdown three directories down is found, Markdown four directories
    down is not. *)
Example scanForContentDirectories_fourth_level :
  fst (@GithubAdapter.scanForContentDirectories TestRuntime.runtime RefBackend.backend
         Examples.ann (RefBackend.fresh Deep.repository))
  = Ok [js "a/b/c"].
Proof. vm_compute. reflexivity. Qed.

(** ** The promotion of [public/images] *)

Section Promotion.
Context `{JsRuntime}.

Lemma findIndex_first {A} (test : A -> bool) before x after :
  Forall (fun y => test y = false) before -> test x = true ->
  findIndex test (before ++ x :: after) = Some (List.length before).
Proof.
  induction 1 as [| y before Hy _ IH]; intros Hx; cbn [app findIndex List.length].
  - now rewrite Hx.
  - now rewrite Hy, (IH Hx).
Qed.

Lemma firstn_length_app {A} (a b : list A) : firstn (List.length a) (a ++ b) = a.
Proof. induction a as [| x a IH]; cbn; [reflexivity | now rewrite IH]. Qed.

Lemma skipn_length_app {A} (a b : list A) : skipn (List.length a) (a ++ b) = b.
Proof. induction a as [| x a IH]; cbn; [reflexivity | exact IH]. Qed.

(** X23.  The promotion of [public/images] moves one path and leaves the
    others in their order: the first path that is [public/images] in lower
    case goes to the front, and the paths before it and after it follow as
    they were ranked. *)
Theorem promotePublicImages_keeps_the_order_of_the_rest
    (before after : list jsstring) (x : jsstring) :
  Forall (fun p => BaseGitService.isPublicImages p = false) before ->
  BaseGitService.isPublicImages x = true ->
  BaseGitService.promotePublicImages (before ++ x :: after) = x :: before ++ after.
Proof.
  intros Hbefore Hx. unfold BaseGitService.promotePublicImages.
  rewrite (findIndex_first _ _ _ _ Hbefore Hx).
  destruct before as [| b before]; [reflexivity |].
  cbn [List.length]. unfold splice1.
  change (S (List.length before)) with (List.length (b :: before)).
  rewrite skipn_length_app, firstn_length_app.
  replace (S (List.length (b :: before)))
    with (List.length ((b :: before) ++ [x])) by (rewrite length_app; cbn; lia).
  replace ((b :: before) ++ x :: after) with (((b :: before) ++ [x]) ++ after)
    by (now rewrite <- app_assoc).
  rewrite skipn_length_app. reflexivity.
Qed.

End Promotion.

Lemma promotePublicImages_keeps_the_order_of_the_rest_witness :
  @BaseGitService.promotePublicImages TestRuntime.runtime
    [js "assets"; js "static/img"; js "Public/Images"; js "docs/img"]
  = [js "Public/Images"; js "assets"; js "static/img"; js "docs/img"].
Proof.
  apply (@promotePublicImages_keeps_the_order_of_the_rest TestRuntime.runtime
           [js "assets"; js "static/img"] [js "docs/img"] (js "Public/Images")).
  - repeat constructor.
  - reflexivity.
Defined.

(** ** [isImageFile] and the image scan *)

Section Images.
Context `{JsRuntime}.

(** X24.  Under the default settings the image list shows every file
    the image scan counts: a name that has one of the extensions of
    [scanForImageDirectories], in any case, is an image file for
    [isImageFile] when the accepted types are empty or [image/*],
    provided [toLowerCase] folds the name as ASCII. *)
Theorem isImageFile_accepts_what_the_scan_counts (name : jsstring) :
  toLowerCase name = map JsString.asciiLower name ->
  BaseGitService.isImageName name = true ->
  ImageUtils.isImageFile name [] = true
  /\ ImageUtils.isImageFile name (js "image/*") = true.
Proof.
  intros Hlower Hname.
  assert (Hcommon :
            existsb (fun ext => JsString.endsWith (toLowerCase name) ext)
              ImageUtils.commonImageExtensions = true).
  { rewrite Hlower. unfold BaseGitService.isImageName in Hname.
    cbn [existsb] in Hname. unfold ImageUtils.commonImageExtensions.
    cbn [existsb].
    repeat (apply orb_true_iff in Hname as [Hname | Hname];
            [rewrite Hname; repeat rewrite orb_true_r; reflexivity |]).
    discriminate. }
  split.
  - unfold ImageUtils.isImageFile. cbn [JsString.truthy negb orb]. exact Hcommon.
  - unfold ImageUtils.isImageFile.
    replace (JsString.eqb (StringBuiltins.trim (js "image/*")) (js "image/*"))
      with true by (vm_compute; reflexivity).
    rewrite orb_true_r. exact Hcommon.
Qed.

End Images.

Lemma isImageFile_accepts_what_the_scan_counts_witness :
  @ImageUtils.isImageFile TestRuntime.runtime (js "Photo.JPG") [] = true
  /\ @ImageUtils.isImageFile TestRuntime.runtime (js "Photo.JPG") (js "image/*") = true.
Proof.
  apply (@isImageFile_accepts_what_the_scan_counts TestRuntime.runtime (js "Photo.JPG")).
  - reflexivity.
  - reflexivity.
Defined.

(** The image list shows more than the scan counts: a bitmap is an image
    file, and is not counted by the scan. *)
Example isImageFile_bitmap :
  @ImageUtils.isImageFile TestRuntime.runtime (js "scan.bmp") [] = true
  /\ BaseGitService.isImageName (js "scan.bmp") = false
  /\ @ImageUtils.isImageFile TestRuntime.runtime (js "scan.bmp") (js ".png, .JPG") = false
  /\ @ImageUtils.isImageFile TestRuntime.runtime (js "a.jpg") (js ".png, .JPG") = true.
Proof. repeat split; vm_compute; reflexivity. Qed.

(** ** [escapeRegExp] *)

(** X25.  [escapeRegExp] yields a pattern that spells its argument: the
    result is built from pattern characters and escaped syntax characters
    only, and the text such a pattern matches is the string that was
    given. *)
Theorem escapeRegExp_spells_its_argument (str : jsstring) :
  Parsing.literalOf (Parsing.escapeRegExp str) = Some str.
Proof.
  induction str as [| c str IH]; [reflexivity |].
  unfold Parsing.escapeRegExp in *. cbn [flat_map].
  destruct (Parsing.isSyntaxCharacter c) eqn:Hc; cbn [app Parsing.literalOf].
  - unfold Parsing.backslash at 1. rewrite Z.eqb_refl, Hc, IH. reflexivity.
  - destruct (Z.eqb_spec c Parsing.backslash) as [-> | _]; [discriminate Hc |].
    rewrite Hc, IH. reflexivity.
Qed.

(** ** The directory picker *)

Section Picker.

Lemma split_nonempty s sep : JsString.split s sep <> [].
Proof.
  destruct s as [| c s]; cbn [JsString.split]; [discriminate |].
  destruct (c =? sep); [discriminate |].
  destruct (JsString.split s sep); discriminate.
Qed.

Lemma split_app sep a b :
  JsString.split (a ++ sep :: b) sep = JsString.split a sep ++ JsString.split b sep.
Proof.
  induction a as [| c a IH]; cbn [app JsString.split].
  - now rewrite Z.eqb_refl.
  - destruct (c =? sep); [now rewrite IH |].
    rewrite IH. pose proof (split_nonempty a sep) as Hne.
    destruct (JsString.split a sep); [contradiction | reflexivity].
Qed.

Lemma join_split sep s : StringBuiltins.join (JsString.split s sep) sep = s.
Proof.
  induction s as [| c s IH]; [reflexivity |]. cbn [JsString.split].
  pose proof (split_nonempty s sep) as Hne.
  destruct (Z.eqb_spec c sep) as [-> | Hc].
  - destruct (JsString.split s sep) as [| seg segs]; [contradiction |].
    cbn [StringBuiltins.join app] in *. now rewrite IH.
  - destruct (JsString.split s sep) as [| seg segs]; [contradiction |].
    destruct segs as [| seg' segs]; cbn [StringBuiltins.join app] in *;
      now rewrite <- IH.
Qed.

Lemma filter_truthy_all segs :
  Forall (fun seg => seg <> []) segs -> filter JsString.truthy segs = segs.
Proof.
  induction 1 as [| seg segs Hseg _ IH]; [reflexivity |]. cbn [filter].
  destruct seg; [contradiction |]. cbn [JsString.truthy]. now rewrite IH.
Qed.

(** X26.  In the directory picker, going up after entering a directory
    leads back: from a proper path, a click on a directory entry whose
    path is the path of its name in the current directory, followed by
    [goUp], gives the path the picker was at.  At the root [goUp] stays at
    the root. *)
Theorem goUp_after_entering_leads_back
    (parent name : jsstring) (item : GithubContent) :
  DirectoryPicker.properPath parent ->
  name <> [] -> ~ In JsString.slash name ->
  BaseGitService.isDir item = true ->
  ci_path item = DirectoryPicker.childPath parent name ->
  DirectoryPicker.goUp (DirectoryPicker.handleItemClick item parent) = parent
  /\ DirectoryPicker.goUp [] = [].
Proof.
  intros Hproper Hname Hslash Hdir Hpath. split; [| reflexivity].
  unfold DirectoryPicker.handleItemClick. rewrite Hdir, Hpath.
  unfold DirectoryPicker.childPath, DirectoryPicker.goUp.
  destruct parent as [| c parent]; cbn [JsString.truthy].
  - destruct name as [| d name]; [contradiction |]. cbn [JsString.eqb].
    rewrite (split_no_separator _ _ Hslash). reflexivity.
  - destruct Hproper as [Hroot | Hsegs]; [discriminate |].
    cbn [app JsString.eqb].
    change (c :: parent ++ JsString.slash :: name)
      with ((c :: parent) ++ JsString.slash :: name).
    rewrite split_app, (split_no_separator _ _ Hslash).
    rewrite filter_truthy_all.
    + rewrite removelast_last. apply join_split.
    + apply Forall_app. split; [exact Hsegs | now constructor].
Qed.

End Picker.

Lemma goUp_after_entering_leads_back_witness :
  DirectoryPicker.goUp
    (DirectoryPicker.handleItemClick
       (RefBackend.dirEntry (js "src/content/") (Examples.stored "src/content/blog/a.md" "QQ=="))
       (js "src/content"))
  = js "src/content".
Proof.
  apply (goUp_after_entering_leads_back (js "src/content") (js "blog")
           (RefBackend.dirEntry (js "src/content/")
              (Examples.stored "src/content/blog/a.md" "QQ=="))).
  - right. vm_compute. repeat constructor; discriminate.
  - discriminate.
  - vm_compute. intuition discriminate.
  - reflexivity.
  - reflexivity.
Defined.

(** ** The requests of the scans *)

Section ScanReads.
Context `{JsRuntime} `{Backend}.

Lemma contentsRequest_is_a_read adapter p :
  req_method (contentsRequest adapter p) = GET
  /\ req_body (contentsRequest adapter p) = None.
Proof. destruct adapter; split; reflexivity. Qed.

Lemma scan_reads adapter fileCheck w :
  exists st w' exchanges,
    BaseGitService.scanDirectoryGeneric (getRepoContentsOf adapter) [] 0 4
      fileCheck BaseGitService.emptyScan w = (Ok st, w')
    /\ traffic w' = traffic w ++ exchanges
    /\ Permutation (map fst exchanges)
         (map (fun l => contentsRequest adapter (fst l)) (BaseGitService.listings st))
    /\ Forall (fun x => req_method (fst x) = GET /\ req_body (fst x) = None)
         exchanges.
Proof.
  unfold BaseGitService.scanDirectoryGeneric.
  destruct (scanDirectoryGenericFuel_traffic (getRepoContentsOf adapter)
              fileCheck (contentsRequest adapter)
              (getRepoContentsOf_one_exchange adapter)
              (S (4 - 0)) [] 0%nat 4%nat BaseGitService.emptyScan w)
    as (st & w' & more & ex & E & Hl & Ht & Hm).
  cbn in Hl. subst more.
  exists st, w', ex. split; [exact E |]. split; [exact Ht |]. split.
  - rewrite Hm. apply Permutation_refl.
  - apply Forall_forall. intros x Hx.
    assert (Hin : In (fst x) (map fst ex)) by (now apply in_map).
    rewrite Hm in Hin. apply in_map_iff in Hin as (l & <- & _).
    apply contentsRequest_is_a_read.
Qed.

(** X27.  The scans only read: through an adapter,
    [scanForContentDirectories] and [scanForImageDirectories] send one
    request for each path they list and no other, and each of these is a
    [GET] of the contents of the path, without a body. *)
Theorem scans_send_only_reads_of_listed_paths (adapter : Adapter) (w : World) :
  (exists st w' exchanges,
     BaseGitService.scanContent (getRepoContentsOf adapter) w = (Ok st, w')
     /\ traffic w' = traffic w ++ exchanges
     /\ Permutation (map fst exchanges)
          (map (fun l => contentsRequest adapter (fst l))
             (BaseGitService.listings st))
     /\ Forall (fun x => req_method (fst x) = GET /\ req_body (fst x) = None)
          exchanges)
  /\ (exists st w' exchanges,
        BaseGitService.scanImages (getRepoContentsOf adapter) w = (Ok st, w')
        /\ traffic w' = traffic w ++ exchanges
        /\ Permutation (map fst exchanges)
             (map (fun l => contentsRequest adapter (fst l))
                (BaseGitService.listings st))
        /\ Forall (fun x => req_method (fst x) = GET /\ req_body (fst x) = None)
             exchanges).
Proof.
  split.
  - exact (scan_reads adapter BaseGitService.isMarkdownName w).
  - exact (scan_reads adapter BaseGitService.isImageName w).
Qed.

End ScanReads.

(** ** The base URL of a Gitea or Gogs adapter *)

(** X28.  A closing slash of the base URL makes no difference: an adapter
    made with the base URL and one made with the base URL and a slash are
    the same object, and each request goes to the base URL followed by
    [/api/v1] and the endpoint, with no doubled slash. *)
Theorem gitea_base_url_ignores_a_closing_slash
    (token owner repoName baseUrl endpoint : jsstring) (options : RequestInit) :
  JsString.endsWith baseUrl (js "/") = false ->
  BaseGiteaAdapter.new token owner repoName (baseUrl ++ js "/")
  = BaseGiteaAdapter.new token owner repoName baseUrl
  /\ req_url (requestOf (Gitea (BaseGiteaAdapter.new token owner repoName
                                  (baseUrl ++ js "/")))
                endpoint options)
     = baseUrl ++ js "/api/v1" ++ endpoint.
Proof.
  intros Hslash.
  assert (Hwith : JsString.stripTrailingSlash (baseUrl ++ js "/") = baseUrl).
  { unfold JsString.stripTrailingSlash. rewrite rev_app_distr. cbn.
    apply rev_involutive. }
  assert (Hwithout : JsString.stripTrailingSlash baseUrl = baseUrl).
  { unfold JsString.stripTrailingSlash, JsString.endsWith in *.
    destruct (rev baseUrl) as [| c r]; [reflexivity |].
    cbn in Hslash. rewrite andb_true_r in Hslash. now rewrite Hslash. }
  unfold BaseGiteaAdapter.new. rewrite Hwith, Hwithout. split; reflexivity.
Qed.

Lemma gitea_base_url_ignores_a_closing_slash_witness :
  req_url (requestOf (Gitea (BaseGiteaAdapter.new (js "s3cret") (js "ann") (js "site")
                               (js "https://git.example.org/")))
             (js "/user") noOptions)
  = js "https://git.example.org/api/v1/user".
Proof.
  apply (gitea_base_url_ignores_a_closing_slash (js "s3cret") (js "ann") (js "site")
           (js "https://git.example.org") (js "/user") noOptions).
  reflexivity.
Defined.
